(** * llm_novel_writer: a shallow embedding of the text utilities, the chapter
    ledger, the memory store and the draft writer, with the properties the
    specification states about them.

    Python strings are sequences of Unicode code points: [len], slicing and
    the character classes of [re] all work on code points, so a string is
    embedded as a list of code points (type [N]).  String constants of the
    source are written as UTF-8 literals and decoded by [py]. *)

From Stdlib Require Import String Ascii DecimalString.
From Stdlib Require Import SpecFloat.
From Stdlib Require Import List NArith ZArith Bool Lia Arith.
Import ListNotations.

Set Implicit Arguments.
Set Warnings "-register-all".

(* ================================================================== *)
(** ** Python strings *)
(* ================================================================== *)

Module PyStr.

Definition char := N.
Definition str := list char.

(** UTF-8 decoding of a byte sequence (well-formed input assumed, as
    produced by an editor saving the source file). *)
Fixpoint utf8_go (acc : N) (need : nat) (bs : list N) : str :=
  match bs with
  | [] => []
  | b :: r =>
      match need with
      | S k =>
          let acc' := (acc * 64 + b mod 64)%N in
          match k with
          | O => acc' :: utf8_go 0%N 0 r
          | S _ => utf8_go acc' k r
          end
      | O =>
          if (b <? 128)%N then b :: utf8_go 0%N 0 r
          else if (b <? 224)%N then utf8_go (b mod 32)%N 1 r
          else if (b <? 240)%N then utf8_go (b mod 16)%N 2 r
          else utf8_go (b mod 8)%N 3 r
      end
  end.

Definition py (s : string) : str :=
  utf8_go 0%N 0 (map N_of_ascii (list_ascii_of_string s)).

Definition NL : char := 10%N.

Fixpoint str_eqb (a b : str) : bool :=
  match a, b with
  | [], [] => true
  | x :: a', y :: b' => (x =? y)%N && str_eqb a' b'
  | _, _ => false
  end.

(** [str.isspace] for one code point (the table of CPython's
    [Py_UNICODE_ISSPACE], which [str.strip()] and the class [\s] of [re]
    share). *)
Definition isspace (c : char) : bool :=
  ((9 <=? c) && (c <=? 13) || (28 <=? c) && (c <=? 32)
   || (c =? 133) || (c =? 160) || (c =? 5760)
   || (8192 <=? c) && (c <=? 8202)
   || (c =? 8232) || (c =? 8233) || (c =? 8239) || (c =? 8287)
   || (c =? 12288))%N.

Fixpoint lstrip (s : str) : str :=
  match s with
  | [] => []
  | c :: r => if isspace c then lstrip r else s
  end.

Definition rstrip (s : str) : str := rev (lstrip (rev s)).

(** [s.strip()] *)
Definition strip (s : str) : str := rstrip (lstrip s).

(** Truth value of a string: [if s:] *)
Definition truthy (s : str) : bool :=
  match s with [] => false | _ :: _ => true end.

Fixpoint drop_while (p : char -> bool) (s : str) : str :=
  match s with
  | [] => []
  | c :: r => if p c then drop_while p r else s
  end.

(** The number of maximal runs of characters of class [p]; [inside] tells
    whether the character before belongs to a run. *)
Fixpoint count_runs (p : char -> bool) (inside : bool) (s : str) : nat :=
  match s with
  | [] => 0
  | c :: r =>
      if p c then (if inside then 0 else 1) + count_runs p true r
      else count_runs p false r
  end.

(** [text.split('\n')]: never the empty list. *)
Fixpoint split_lines (s : str) : list str :=
  match s with
  | [] => [[]]
  | c :: r =>
      if (c =? NL)%N then [] :: split_lines r
      else match split_lines r with
           | l :: ls => (c :: l) :: ls
           | [] => [[c]]
           end
  end.

(** [sep.join(parts)] *)
Fixpoint join (sep : str) (parts : list str) : str :=
  match parts with
  | [] => []
  | p :: rest =>
      match rest with
      | [] => p
      | _ :: _ => p ++ sep ++ join sep rest
      end
  end.

(** [s[-n:]] for [n > 0]: the last [n] code points (all of [s] when it is
    shorter). *)
Definition last_n (n : nat) (s : str) : str := skipn (length s - n) s.

(** [s[:n]] for [n >= 0]. *)
Definition first_n (n : nat) (s : str) : str := firstn n s.

End PyStr.
Import PyStr.

(* ================================================================== *)
(** ** utils.remove_duplicate_sentences *)
(* ================================================================== *)

Module Dedup.

(** The loop state of [remove_duplicate_sentences]. *)
Record loop_state := mkLoop {
  cleaned_lines : list str;
  prev_line : option str;
  consecutive_count : nat
}.

Definition init : loop_state := mkLoop [] None 0.

(** [prev_line and stripped == prev_line] *)
Definition same_as_prev (prev : option str) (stripped : str) : bool :=
  match prev with
  | None => false
  | Some p => truthy p && str_eqb stripped p
  end.

(** One iteration of the [for line in lines] loop. *)
Definition step (st : loop_state) (line : str) : loop_state :=
  let stripped := strip line in
  if negb (truthy stripped) then
    mkLoop (cleaned_lines st ++ [line]) None 0
  else if same_as_prev (prev_line st) stripped then
    let c := S (consecutive_count st) in
    if 2 <=? c then
      mkLoop (cleaned_lines st) (prev_line st) c
    else
      mkLoop (cleaned_lines st ++ [line]) (Some stripped) c
  else
    mkLoop (cleaned_lines st ++ [line]) (Some stripped) 0.

Definition run (lines : list str) : loop_state := fold_left step lines init.

Definition remove_duplicate_lines (lines : list str) : list str :=
  cleaned_lines (run lines).

Definition remove_duplicate_sentences (text : str) : str :=
  join [NL] (remove_duplicate_lines (split_lines text)).

(** The same loop as a recursive function producing the lines appended from
    a given state on; used for the proofs. *)
Fixpoint go (prev : option str) (cnt : nat) (lines : list str) : list str :=
  match lines with
  | [] => []
  | line :: rest =>
      let stripped := strip line in
      if negb (truthy stripped) then line :: go None 0 rest
      else if same_as_prev prev stripped then
        if 2 <=? S cnt then go prev (S cnt) rest
        else line :: go (Some stripped) (S cnt) rest
      else line :: go (Some stripped) 0 rest
  end.

(** What the specification's words describe: a line is dropped when it is
    non-blank and at least [cap] lines directly before it in the input are
    non-blank and equal to it after trimming.  [cap = 1] keeps one line per
    run. *)
Definition nonblank (line : str) : bool := truthy (strip line).

Fixpoint run_before (s : str) (rev_seen : list str) : nat :=
  match rev_seen with
  | [] => 0
  | x :: r => if nonblank x && str_eqb (strip x) s then S (run_before s r) else 0
  end.

Fixpoint collapse_runs (cap : nat) (rev_seen : list str) (lines : list str)
  : list str :=
  match lines with
  | [] => []
  | line :: rest =>
      if negb (nonblank line) || (run_before (strip line) rev_seen <? cap)
      then line :: collapse_runs cap (line :: rev_seen) rest
      else collapse_runs cap (line :: rev_seen) rest
  end.

(** The state of the loop against the lines read so far, last line first. *)
Definition tracks (prev : option str) (c : nat) (rev_seen : list str) : Prop :=
  match rev_seen with
  | [] => prev = None
  | h :: t =>
      if nonblank h
      then prev = Some (strip h) /\ (c = 0 <-> run_before (strip h) t = 0)
      else prev = None
  end.

End Dedup.

(* ================================================================== *)
(** ** The fragment of Python's [re] the sources use

    A backtracking matcher with the priority order of [re]: alternatives
    left to right, greedy repetition tries one more iteration first, lazy
    repetition tries to stop first.  An iteration of a repetition has to
    consume input.  Continuations receive the rest of the input and the
    groups captured so far. *)
(* ================================================================== *)

Module Re.

Inductive regex :=
| Eps
| Cls (p : char -> bool)
| Seq (a b : regex)
| Alt (a b : regex)
| Star (greedy : bool) (a : regex)
| Group (n : nat) (a : regex)
| Eos.

Definition captures := list (nat * str).

Fixpoint group (n : nat) (caps : captures) : option str :=
  match caps with
  | [] => None
  | (k, v) :: r => if Nat.eqb k n then Some v else group n r
  end.

Section Matcher.
Variable R : Type.

(** The iterations of a repetition of [a], given the matcher [run_a] of
    [a]; [fuel] bounds their number by the length of the input. *)
Fixpoint star_loop
         (run_a : str -> captures -> (str -> captures -> option R) -> option R)
         (greedy : bool) (k : str -> captures -> option R)
         (fuel : nat) (s : str) (caps : captures) {struct fuel} : option R :=
  match fuel with
  | O => k s caps
  | S f =>
      let more :=
        run_a s caps
              (fun s1 c1 =>
                 if length s1 <? length s
                 then star_loop run_a greedy k f s1 c1
                 else None) in
      if greedy then
        match more with Some x => Some x | None => k s caps end
      else
        match k s caps with Some x => Some x | None => more end
  end.

Fixpoint run (r : regex) (s : str) (caps : captures)
         (k : str -> captures -> option R) {struct r} : option R :=
  match r with
  | Eps => k s caps
  | Cls p =>
      match s with
      | c :: s' => if p c then k s' caps else None
      | [] => None
      end
  | Seq a b => run a s caps (fun s1 c1 => run b s1 c1 k)
  | Alt a b =>
      match run a s caps k with
      | Some x => Some x
      | None => run b s caps k
      end
  | Group n a =>
      run a s caps
          (fun s1 c1 => k s1 ((n, firstn (length s - length s1) s) :: c1))
  | Eos =>
      (* [$]: at the end, or before a newline that ends the input *)
      match s with
      | [] => k s caps
      | [c] => if (c =? NL)%N then k s caps else None
      | _ => None
      end
  | Star greedy a => star_loop (run a) greedy k (length s) s caps
  end.
End Matcher.

(** A literal character, a literal string, [a+], any character. *)
Definition Chr (c : char) : regex := Cls (fun x => (x =? c)%N).
Fixpoint Lit (s : str) : regex :=
  match s with
  | [] => Eps
  | c :: r => Seq (Chr c) (Lit r)
  end.
Definition Plus (greedy : bool) (a : regex) : regex := Seq a (Star greedy a).
Definition AnyChar : regex := Cls (fun _ => true).
Definition Space : regex := Cls isspace.

(** A match anchored at the start of [s]: the rest of the input after the
    match, and the groups. *)
Definition match_prefix (r : regex) (s : str) : option (str * captures) :=
  run r s [] (fun s1 c => Some (s1, c)).

Definition matched_text (s rest : str) : str :=
  firstn (length s - length rest) s.

(** [re.search(r, s)]: the leftmost match; the text before it, the matched
    text, the rest, and the groups. *)
Fixpoint search_from (r : regex) (before_rev : str) (s : str)
  : option (str * str * str * captures) :=
  match match_prefix r s with
  | Some (rest, caps) => Some (rev before_rev, matched_text s rest, rest, caps)
  | None =>
      match s with
      | [] => None
      | c :: s' => search_from r (c :: before_rev) s'
      end
  end.

Definition search (r : regex) (s : str) := search_from r [] s.

(** [re.findall(r, s)] for a pattern without groups that matches no empty
    string: the successive leftmost matches. *)
Fixpoint findall_go (r : regex) (fuel : nat) (s : str) : list str :=
  match fuel with
  | O => []
  | S f =>
      match s with
      | [] => []
      | _ :: s' =>
          match match_prefix r s with
          | Some (rest, _) =>
              if length rest <? length s
              then matched_text s rest :: findall_go r f rest
              else findall_go r f s'
          | None => findall_go r f s'
          end
      end
  end.

Definition findall (r : regex) (s : str) : list str :=
  findall_go r (length s) s.

(** [re.sub(r, repl, s)] for a pattern that matches no empty string; the
    replacement is computed from the groups. *)
Fixpoint sub_go (r : regex) (repl : captures -> str) (fuel : nat) (s : str)
  : str :=
  match fuel with
  | O => s
  | S f =>
      match s with
      | [] => []
      | c :: s' =>
          match match_prefix r s with
          | Some (rest, caps) =>
              if length rest <? length s
              then repl caps ++ sub_go r repl f rest
              else c :: sub_go r repl f s'
          | None => c :: sub_go r repl f s'
          end
      end
  end.

Definition sub (r : regex) (repl : captures -> str) (s : str) : str :=
  sub_go r repl (length s) s.

End Re.

(* ================================================================== *)
(** ** More string operations *)
(* ================================================================== *)

Module PyStrOps.

Fixpoint starts_with (p s : str) : bool :=
  match p, s with
  | [], _ => true
  | x :: p', y :: s' => (x =? y)%N && starts_with p' s'
  | _ :: _, [] => false
  end.

(** [s.replace(old, new)] for a non-empty [old]. *)
Fixpoint replace_go (old new : str) (skip : nat) (s : str) : str :=
  match s with
  | [] => []
  | c :: r =>
      match skip with
      | S k => replace_go old new k r
      | O =>
          if starts_with old s
          then new ++ replace_go old new (length old - 1) r
          else c :: replace_go old new 0 r
      end
  end.

Definition replace (old new s : str) : str := replace_go old new 0 s.

(** [s.rfind(c)] for a one-character needle: the index of the last
    occurrence. *)
Fixpoint rfind_go (c : char) (i : nat) (found : option nat) (s : str)
  : option nat :=
  match s with
  | [] => found
  | x :: r => rfind_go c (S i) (if (x =? c)%N then Some i else found) r
  end.

Definition rfind (c : char) (s : str) : option nat := rfind_go c 0 None s.

(** [str(n)] for an integer. *)
Definition str_of_Z (z : Z) : str :=
  py (DecimalString.NilZero.string_of_int (Z.to_int z)).

(** Python slicing [l[start:stop]] with integer bounds: a negative bound
    counts from the end, every bound is clamped to the list. *)
Definition norm_index (len : Z) (i : Z) : Z :=
  if (i <? 0)%Z then Z.max 0 (i + len) else Z.min i len.

Definition slice {A} (l : list A) (start stop : Z) : list A :=
  let len := Z.of_nat (length l) in
  let a := norm_index len start in
  let b := norm_index len stop in
  firstn (Z.to_nat (b - a)) (skipn (Z.to_nat a) l).

(** [l[start:]] *)
Definition slice_from {A} (l : list A) (start : Z) : list A :=
  skipn (Z.to_nat (norm_index (Z.of_nat (length l)) start)) l.

(** [l[:stop]] *)
Definition slice_to {A} (l : list A) (stop : Z) : list A :=
  firstn (Z.to_nat (norm_index (Z.of_nat (length l)) stop)) l.

End PyStrOps.
Import PyStrOps.

(* ================================================================== *)
(** ** Python values, exceptions *)
(* ================================================================== *)

Module Py.

(** The values [json.loads] produces, which are also the values the memory
    store holds.  A dict keeps its insertion order; its keys are strings. *)
Inductive pyval :=
| PNone
| PBool (b : bool)
| PInt (z : Z)
| PFloat (num : Z) (den : positive)
| PStr (s : str)
| PList (l : list pyval)
| PDict (d : list (str * pyval)).

(** [bool(v)] *)
Definition truth (v : pyval) : bool :=
  match v with
  | PNone => false
  | PBool b => b
  | PInt z => negb (z =? 0)%Z
  | PFloat n _ => negb (n =? 0)%Z
  | PStr s => truthy s
  | PList l => match l with [] => false | _ => true end
  | PDict d => match d with [] => false | _ => true end
  end.

Definition is_dict (v : pyval) : bool :=
  match v with PDict _ => true | _ => false end.
Definition is_list (v : pyval) : bool :=
  match v with PList _ => true | _ => false end.
Definition is_str (v : pyval) : bool :=
  match v with PStr _ => true | _ => false end.

(** [d.get(key, default)] on the entries of a dict. *)
Fixpoint dict_get (d : list (str * pyval)) (key : str) (default : pyval)
  : pyval :=
  match d with
  | [] => default
  | (k, v) :: r => if str_eqb k key then v else dict_get r key default
  end.

Fixpoint dict_mem (d : list (str * pyval)) (key : str) : bool :=
  match d with
  | [] => false
  | (k, _) :: r => str_eqb k key || dict_mem r key
  end.

(** [d[key] = v]: an existing key keeps its place. *)
Fixpoint dict_set (d : list (str * pyval)) (key : str) (v : pyval)
  : list (str * pyval) :=
  match d with
  | [] => [(key, v)]
  | (k, x) :: r =>
      if str_eqb k key then (k, v) :: r else (k, x) :: dict_set r key v
  end.

(** The exceptions the modelled code tells apart: [retry_on_error] treats
    an HTTP error with status 429 specially. *)
Inductive exn :=
| HTTPError (status : Z)
| JSONDecodeError
| RuntimeError
| OtherError.

Inductive outcome (A : Type) :=
| Ok (a : A)
| Raise (e : exn).
Arguments Ok {A} a.
Arguments Raise {A} e.

Definition bind {A B} (x : outcome A) (f : A -> outcome B) : outcome B :=
  match x with
  | Ok a => f a
  | Raise e => Raise e
  end.

(** [len(v)] *)
Definition py_len (v : pyval) : outcome Z :=
  match v with
  | PStr s => Ok (Z.of_nat (length s))
  | PList l => Ok (Z.of_nat (length l))
  | PDict d => Ok (Z.of_nat (length d))
  | _ => Raise OtherError
  end.

(** [sum(len(x) for x in xs)] *)
Fixpoint sum_len (xs : list pyval) : outcome Z :=
  match xs with
  | [] => Ok 0%Z
  | x :: r =>
      bind (py_len x) (fun n => bind (sum_len r) (fun m => Ok (n + m)%Z))
  end.

(** [sum(len(events) for events in v.values())] *)
Definition sum_len_values (v : pyval) : outcome Z :=
  match v with
  | PDict d => sum_len (map snd d)
  | _ => Raise OtherError
  end.

End Py.
Import Py.

Declare Scope py_scope.
Notation "x <- c1 ;; c2" := (Py.bind c1 (fun x => c2))
  (at level 61, c1 at next level, right associativity) : py_scope.
Open Scope py_scope.

(* ================================================================== *)
(** ** Binary64 evaluation of the word-count thresholds

    The source compares an integer word count with [min_words * 0.3],
    [min_words * 0.8] and [max_words * 1.2], products Python computes in
    binary64.  This module evaluates them that way, on the executable
    IEEE 754 model of the Standard Library; [Utils.below_30_percent] and
    [Writer.needs_full_rewrite] take the products exactly, and
    [Binary64Facts] shows that both decide every comparison alike for word
    targets up to 5000. *)
(* ================================================================== *)

Module Binary64.

Definition b64_of_Z (z : Z) : spec_float := binary_normalize 53 1024 z 0 false.
Definition b64_mul : spec_float -> spec_float -> spec_float := SFmul 53 1024.
Definition b64_div : spec_float -> spec_float -> spec_float := SFdiv 53 1024.

(** The literals [0.3], [0.8], [1.2]: the doubles nearest to the decimal
    fractions, that is the correctly rounded quotients. *)
Definition b64_0_3 : spec_float := b64_div (b64_of_Z 3) (b64_of_Z 10).
Definition b64_0_8 : spec_float := b64_div (b64_of_Z 8) (b64_of_Z 10).
Definition b64_1_2 : spec_float := b64_div (b64_of_Z 12) (b64_of_Z 10).

(** Python compares an [int] with a [float] exactly. *)
Definition Z_compare_b64 (z : Z) (f : spec_float) : option comparison :=
  match f with
  | S754_zero _ => Some (z ?= 0)%Z
  | S754_infinity false => Some Lt
  | S754_infinity true => Some Gt
  | S754_nan => None
  | S754_finite s m e =>
      let v := if s then Zneg m else Zpos m in
      if (0 <=? e)%Z then Some (z ?= v * 2 ^ e)%Z
      else Some (z * 2 ^ (- e) ?= v)%Z
  end.

Definition Z_lt_b64 (z : Z) (f : spec_float) : bool :=
  match Z_compare_b64 z f with Some Lt => true | _ => false end.

Definition Z_gt_b64 (z : Z) (f : spec_float) : bool :=
  match Z_compare_b64 z f with Some Gt => true | _ => false end.

(** [word_count < min_words * 0.3] *)
Definition below_30_percent_b64 (word_count min_words : Z) : bool :=
  Z_lt_b64 word_count (b64_mul (b64_of_Z min_words) b64_0_3).

(** [word_count < min_words * 0.8 or word_count > max_words * 1.2] *)
Definition needs_full_rewrite_b64 (word_count min_words max_words : Z) : bool :=
  Z_lt_b64 word_count (b64_mul (b64_of_Z min_words) b64_0_8)
  || Z_gt_b64 word_count (b64_mul (b64_of_Z max_words) b64_1_2).

(** The binary64 comparison [z < x * c] switches from true to false between
    [a] and [a + 1]. *)
Definition lt_switches_at (c : spec_float) (x a : Z) : bool :=
  Z_lt_b64 a (b64_mul (b64_of_Z x) c)
  && negb (Z_lt_b64 (a + 1) (b64_mul (b64_of_Z x) c)).

(** The binary64 comparison [z > x * c] switches from false to true between
    [a] and [a + 1]. *)
Definition gt_switches_at (c : spec_float) (x a : Z) : bool :=
  negb (Z_gt_b64 a (b64_mul (b64_of_Z x) c))
  && Z_gt_b64 (a + 1) (b64_mul (b64_of_Z x) c).

(** The switch is where the exact product puts it: for the factors 3/10
    and 8/10 below the product, for 12/10 above it. *)
Definition thresholds_agree (x : Z) : bool :=
  lt_switches_at b64_0_3 x ((3 * x - 1) / 10)
  && lt_switches_at b64_0_8 x ((8 * x - 1) / 10)
  && gt_switches_at b64_1_2 x ((12 * x) / 10).

Fixpoint thresholds_agree_upto (n : nat) : bool :=
  match n with
  | O => thresholds_agree 0
  | S k => thresholds_agree (Z.of_nat n) && thresholds_agree_upto k
  end.

End Binary64.

(* ================================================================== *)
(** ** utils: count_words, validate_content, safe_json_parse,
       retry_on_error *)
(* ================================================================== *)

Module Utils.

(** [[가-힣]]: the Hangul syllables U+AC00 .. U+D7A3. *)
Definition is_hangul (c : char) : bool := ((44032 <=? c) && (c <=? 55203))%N.

(** [[a-zA-Z]] *)
Definition is_latin (c : char) : bool :=
  ((97 <=? c) && (c <=? 122) || (65 <=? c) && (c <=? 90))%N.

Definition count_words (text : str) : Z :=
  let korean := Re.findall (Re.Plus true (Re.Cls is_hangul)) text in
  let english := Re.findall (Re.Plus true (Re.Cls is_latin)) text in
  (Z.of_nat (length (concat korean)) + Z.of_nat (length english))%Z.

(** No Hangul syllable and no Latin letter. *)
Definition wordless (text : str) : bool :=
  forallb (fun c => negb (is_hangul c) && negb (is_latin c)) text.

(** [word_count < min_words * 0.3].  The source multiplies in binary64;
    the product is taken exactly here (three tenths).  Both decide the
    comparison alike for every word target from 0 to 5000
    ([Binary64Facts.below_30_percent_binary64]). *)
Definition below_30_percent (word_count min_words : Z) : bool :=
  (10 * word_count <? 3 * min_words)%Z.

Definition validate_content (content : str) (min_words : Z) : bool :=
  if negb (truthy content) || negb (truthy (strip content)) then false
  else if below_30_percent (count_words content) min_words then false
  else true.

Section SafeJson.
(** [json.loads]: the parsed value, or [None] for [JSONDecodeError]. *)
Variable json_loads : str -> option pyval.

Definition loads (text : str) : outcome pyval :=
  match json_loads text with
  | Some v => Ok v
  | None => Raise JSONDecodeError
  end.

Definition LBRACE : char := 123%N.
Definition RBRACE : char := 125%N.
Definition RBRACKET : char := 93%N.
Definition QUOTE : char := 34%N.
Definition APOSTROPHE : char := 39%N.
Definition COMMA : char := 44%N.
Definition BACKSLASH : char := 92%N.
Definition COLON : char := 58%N.

(** [\{.*\}] with [re.DOTALL] *)
Definition re_braces : Re.regex :=
  Re.Seq (Re.Chr LBRACE) (Re.Seq (Re.Star true Re.AnyChar) (Re.Chr RBRACE)).

(** [,(\s*[}\]])] *)
Definition re_trailing_comma : Re.regex :=
  Re.Seq (Re.Chr COMMA)
    (Re.Group 1
       (Re.Seq (Re.Star true Re.Space)
          (Re.Cls (fun c => (c =? RBRACE) || (c =? RBRACKET))%N))).

Definition group_or_empty (n : nat) (caps : Re.captures) : str :=
  match Re.group n caps with Some v => v | None => [] end.

Definition safe_json_parse (text : str) : outcome pyval :=
  let text :=
    match Re.search re_braces text with
    | Some (_, m, _, _) => m
    | None => text
    end in
  match json_loads text with
  | Some v => Ok v
  | None =>
      let text := replace [APOSTROPHE] [QUOTE] text in
      let text := Re.sub re_trailing_comma (group_or_empty 1) text in
      loads text
  end.
End SafeJson.

(** [retry_on_error(config)(func)()].  [func i] is the outcome of the
    [i]-th invocation of the wrapped function; the result comes with the
    number of invocations made so far.  Sleeping is not modelled. *)
Section Retry.
Variable A : Type.
Variable max_retries : nat.
Variable rate_limit_max_retries : nat.
Variable func : nat -> outcome A.

(** The inner loop entered after a 429: [Some] is what leaves the wrapper
    (a value or a raised exception), [None] means the loop ran out and
    control falls back to the outer loop. *)
Fixpoint rate_limit_loop (remaining : nat) (calls : nat)
  : option (outcome A) * nat :=
  match remaining with
  | O => (None, calls)
  | S r =>
      match func calls with
      | Ok a => (Some (Ok a), S calls)
      | Raise (HTTPError status) =>
          if negb (status =? 429)%Z then
            (Some (Raise (HTTPError status)), S calls)
          else
            match r with
            | O => (Some (Raise RuntimeError), S calls)
            | S _ => rate_limit_loop r (S calls)
            end
      | Raise e => (Some (Raise e), S calls)
      end
  end.

Fixpoint attempts (remaining : nat) (last_exception : option exn)
         (calls : nat) : outcome A * nat :=
  match remaining with
  | O =>
      match last_exception with
      | Some e => (Raise e, calls)
      | None => (Raise OtherError, calls)
      end
  | S r =>
      match func calls with
      | Ok a => (Ok a, S calls)
      | Raise (HTTPError status) =>
          if (status =? 429)%Z then
            match rate_limit_loop rate_limit_max_retries (S calls) with
            | (Some res, calls') => (res, calls')
            | (None, calls') => attempts r (Some (HTTPError status)) calls'
            end
          else attempts r (Some (HTTPError status)) (S calls)
      | Raise e => attempts r (Some e) (S calls)
      end
  end.

Definition retry_on_error (calls : nat) : outcome A * nat :=
  attempts max_retries None calls.
End Retry.

End Utils.
Import Utils.

(* ================================================================== *)
(** ** writer_config.Chapter and chapter_manager.ChapterManager *)
(* ================================================================== *)

Module Ledger.

Record Chapter := mkChapter {
  number : Z;
  title : str;
  outline : str;
  content : str;
  summary : str;
  key_events : list str;
  word_count : Z
}.

Definition set_word_count (ch : Chapter) (wc : Z) : Chapter :=
  mkChapter (number ch) (title ch) (outline ch) (content ch) (summary ch)
            (key_events ch) wc.

(** The manager's only attribute is the list [self.chapters]. *)
Definition ChapterManager := list Chapter.

Fixpoint get_chapter (chapters : ChapterManager) (n : Z) : option Chapter :=
  match chapters with
  | [] => None
  | ch :: r => if (number ch =? n)%Z then Some ch else get_chapter r n
  end.

Definition get_recent_chapters (chapters : ChapterManager)
           (current_number count : Z) : list Chapter :=
  let start_idx := Z.max 0 (current_number - 1 - count) in
  slice chapters start_idx (current_number - 1).

(** [recent[-1]] of a non-empty list. *)
Definition last_chapter (recent : list Chapter) : option Chapter :=
  match rev recent with
  | [] => None
  | ch :: _ => Some ch
  end.

(** [re.sub(r'\n+', '\n', content.strip())[-500:]] *)
Definition last_passage (ch : Chapter) : str :=
  slice_from
    (Re.sub (Re.Plus true (Re.Chr NL)) (fun _ => [NL]) (strip (content ch)))
    (-500).

Definition STYLE_HEADER : str := py "--- 이전 챕터 마지막 단락 (문체 참고) ---".
Definition LTM_HEADER : str := NL :: py "--- 장기 기억 (핵심 플롯/설정) ---".
Definition FIRST_PREAMBLE : str :=
  py "이 소설의 첫 번째 챕터입니다." ++ [NL; NL] ++ py "장기 기억:" ++ [NL].

(** Step 1 of [build_context]: the lines added for style priming. *)
Definition style_reference (recent : list Chapter) : list str :=
  match last_chapter recent with
  | Some last =>
      if truthy (content last)
      then [STYLE_HEADER; py "[..." ++ last_passage last ++ py "]"]
      else []
  | None => []
  end.

Definition build_context (chapters : ChapterManager)
           (current_number recent_count : Z)
           (memory_summary global_outline_context : str) : str :=
  if (current_number =? 1)%Z then
    FIRST_PREAMBLE ++ memory_summary ++ [NL; NL] ++ global_outline_context
  else
    let recent := get_recent_chapters chapters current_number recent_count in
    let context_parts :=
      style_reference recent
      ++ [LTM_HEADER; memory_summary]
      ++ [global_outline_context] in
    join [NL] context_parts.

Definition STM_HEADER : str :=
  py "=== 단기기억 (최근 챕터 내용 - 중복 방지용) ===".

(** [recent_chapters] of [build_short_term_memory]: the slice of the ledger
    the text is built from. *)
Definition stm_window (chapters : ChapterManager)
           (current_number stm_chapter_count : Z) : list Chapter :=
  let start_idx := Z.max 0 (current_number - 1 - stm_chapter_count) in
  let end_idx := (current_number - 1)%Z in
  slice chapters start_idx end_idx.

(** [not ch.content or not ch.content.strip()] *)
Definition no_content (ch : Chapter) : bool :=
  negb (truthy (content ch)) || negb (truthy (strip (content ch))).

(** The two entries a chapter with content adds to [stm_parts]. *)
Definition stm_entry (ch : Chapter) : list str :=
  [ NL :: py "[챕터 " ++ str_of_Z (number ch) ++ py ": " ++ title ch ++ py "]";
    content ch ].

(** The loop over [recent_chapters]: the parts appended and [content_found]. *)
Fixpoint stm_loop (recent : list Chapter) : list str * bool :=
  match recent with
  | [] => ([], false)
  | ch :: r =>
      let '(parts, found) := stm_loop r in
      if no_content ch then (parts, found)
      else (stm_entry ch ++ parts, true)
  end.

Definition stm_truncate (full_stm : str) (max_chars : Z) : str :=
  if (Z.of_nat (length full_stm) >? max_chars)%Z then
    let truncated := slice_from full_stm (- max_chars) in
    py "=== 단기기억 (최근 " ++ str_of_Z max_chars ++ py "자) ===" ++ [NL]
    ++ py "[...앞부분 생략...]" ++ [NL] ++ truncated
  else full_stm.

(** What [build_short_term_memory] makes of its slice of the ledger. *)
Definition stm_of_window (recent_chapters : list Chapter) (max_chars : Z)
  : str :=
  match recent_chapters with
  | [] => []
  | _ :: _ =>
      let '(parts, content_found) := stm_loop recent_chapters in
      if negb content_found then []
      else stm_truncate (join [NL] (STM_HEADER :: parts)) max_chars
  end.

Definition build_short_term_memory (chapters : ChapterManager)
           (current_number stm_chapter_count max_chars : Z) : str :=
  if (current_number <=? 1)%Z then []
  else stm_of_window (stm_window chapters current_number stm_chapter_count)
                     max_chars.

(** The ledger as structure generation is asked to produce it and as the
    pipeline walks it: the chapter at position [i] (from 0) is chapter
    number [i + 1]. *)
Definition numbered_from_one (chapters : ChapterManager) : Prop :=
  forall i ch, nth_error chapters i = Some ch -> (number ch = Z.of_nat i + 1)%Z.

End Ledger.
Import Ledger.

(* ================================================================== *)
(** ** memory_manager.NovelMemoryManager *)
(* ================================================================== *)

Module Memory.

(** An attribute that [hasattr] may find missing is an [option]. *)
Record NovelMemoryManager := mkMemory {
  characters : pyval;
  memory : option pyval;
  character_development : option pyval;
  plot_threads : option pyval;
  world_events : option pyval
}.

Definition K_MEMORY : str := py "memory".
Definition K_CHARACTER_DEVELOPMENT : str := py "character_development".
Definition K_PLOT_THREADS : str := py "plot_threads".
Definition K_WORLD_EVENTS : str := py "world_events".

Definition attr_or (a : option pyval) (default : pyval) : pyval :=
  match a with Some v => v | None => default end.

(** [to_dict] (the second definition in the class body, which is the one
    in effect). *)
Definition to_dict (mm : NovelMemoryManager) : list (str * pyval) :=
  [ (K_MEMORY, attr_or (memory mm) (PList []));
    (K_CHARACTER_DEVELOPMENT, attr_or (character_development mm) (PDict []));
    (K_PLOT_THREADS, attr_or (plot_threads mm) (PDict []));
    (K_WORLD_EVENTS, attr_or (world_events mm) (PList [])) ].

(** [from_dict] (likewise the second definition).  [data.get] raises
    [AttributeError] when [data] is no dict, before anything is assigned. *)
Definition from_dict (mm : NovelMemoryManager) (data : pyval)
  : outcome NovelMemoryManager :=
  match data with
  | PDict d =>
      let m := dict_get d K_MEMORY (PList []) in
      let m := if is_list m then m else PList [] in
      let cd := dict_get d K_CHARACTER_DEVELOPMENT (PDict []) in
      let cd := if is_dict cd then cd else PDict [] in
      let pt := dict_get d K_PLOT_THREADS (PDict []) in
      let pt := if is_dict pt || is_list pt then pt else PDict [] in
      let we := dict_get d K_WORLD_EVENTS (PList []) in
      let we := if is_list we then we else PList [] in
      Ok (mkMemory (characters mm) (Some m) (Some cd) (Some pt) (Some we))
  | _ => Raise OtherError
  end.

(** The declared container types of the three fields of the round trip. *)
Definition declared_types (mm : NovelMemoryManager) : Prop :=
  (exists l, memory mm = Some (PList l))
  /\ (exists d, character_development mm = Some (PDict d))
  /\ (exists d, plot_threads mm = Some (PDict d)).

End Memory.
Import Memory.

(* ================================================================== *)
(** ** memory_manager.LongTermMemoryOptimizer *)
(* ================================================================== *)

Module Optimizer.

Definition K_REMOVED_ITEMS : str := py "removed_items".
Definition K_REMOVED_CHARACTER_EVENTS : str := py "removed_character_events".
Definition K_REMOVED_PLOT_THREADS : str := py "removed_plot_threads".
Definition K_REASON : str := py "reason".
Definition K_SUCCESS : str := py "success".

(** [', '.join(events)] succeeds on an iterable of strings. *)
Definition joinable (events : pyval) : bool :=
  match events with
  | PList l => forallb is_str l
  | PStr _ => true
  | PDict _ => true
  | _ => false
  end.

(** Building [char_dev_text] for the prompt: only whether it raises. *)
Definition format_char_dev (char_dev : pyval) : outcome unit :=
  match char_dev with
  | PDict d =>
      if forallb joinable (map snd d) then Ok tt else Raise OtherError
  | v => if truth v then Raise OtherError else Ok tt
  end.

(** [len(v)] and [v[:3]] both succeed on strings and lists only. *)
Definition printable_head (v : pyval) : bool := is_str v || is_list v.

(** The logging of [removed_items]: only whether it raises. *)
Definition log_removed (data : list (str * pyval)) : outcome unit :=
  let removed := dict_get data K_REMOVED_ITEMS (PDict []) in
  if truth removed then
    match removed with
    | PDict r =>
        let removed_char := dict_get r K_REMOVED_CHARACTER_EVENTS (PList []) in
        let removed_plot := dict_get r K_REMOVED_PLOT_THREADS (PList []) in
        let reason := dict_get r K_REASON (PStr []) in
        if truth removed_char || truth removed_plot then
          if truth removed_char && negb (printable_head removed_char)
          then Raise OtherError
          else if truth removed_plot && negb (printable_head removed_plot)
          then Raise OtherError
          else if truth reason && negb (printable_head reason)
          then Raise OtherError
          else Ok tt
        else Ok tt
    | _ => Raise OtherError
    end
  else Ok tt.

Definition SUCCESS_FALSE : pyval := PDict [(K_SUCCESS, PBool false)].

Section WithGateway.
Variable json_loads : str -> option pyval.
(** [config.max_retries], [config.rate_limit_max_retries] *)
Variable max_retries : nat.
Variable rate_limit_max_retries : nat.
(** [generate i]: what the [i]-th call of [client.generate] returns. *)
Variable generate : nat -> outcome str.

(** One invocation of the inner [_optimize]: [Ok None] is the
    [return None] after a result that is empty or no dict. *)
Definition _optimize (char_dev : pyval) (i : nat) : outcome (option pyval) :=
  _ <- format_char_dev char_dev ;;
  response <- generate i ;;
  data <- safe_json_parse json_loads response ;;
  if negb (truth data) || negb (is_dict data) then Ok None
  else
    match data with
    | PDict d => _ <- log_removed d ;; Ok (Some data)
    | _ => Ok None
    end.

Definition _optimize_with_llm (char_dev : pyval) (calls : nat)
  : outcome (option pyval) * nat :=
  retry_on_error max_retries rate_limit_max_retries (_optimize char_dev)
                 calls.

Definition stats (original_char_count new_char_count
                  original_plot_count new_plot_count : Z) : pyval :=
  PDict [ (K_SUCCESS, PBool true);
          (py "character_events_removed",
            PInt (original_char_count - new_char_count));
          (py "plot_threads_removed",
            PInt (original_plot_count - new_plot_count));
          (py "original_char_count", PInt original_char_count);
          (py "new_char_count", PInt new_char_count);
          (py "original_plot_count", PInt original_plot_count);
          (py "new_plot_count", PInt new_plot_count) ].

(** [optimize_memory]: the memory manager after the call, what the call
    returns or raises, and the number of gateway calls made so far. *)
Definition optimize_memory (mm : NovelMemoryManager) (calls : nat)
  : NovelMemoryManager * outcome pyval * nat :=
  let memory_dict := to_dict mm in
  let original_char_dev :=
    dict_get memory_dict K_CHARACTER_DEVELOPMENT (PDict []) in
  let original_plot_threads :=
    dict_get memory_dict K_PLOT_THREADS (PDict []) in
  match sum_len_values original_char_dev with
  | Raise e => (mm, Raise e, calls)
  | Ok original_char_count =>
  match py_len original_plot_threads with
  | Raise e => (mm, Raise e, calls)
  | Ok original_plot_count =>
  match _optimize_with_llm original_char_dev calls with
  | (Raise e, calls') => (mm, Raise e, calls')
  | (Ok None, calls') => (mm, Ok SUCCESS_FALSE, calls')
  | (Ok (Some optimized_data), calls') =>
      match optimized_data with
      | PDict od =>
          if truth optimized_data then
            let memory_dict :=
              dict_set memory_dict K_CHARACTER_DEVELOPMENT
                (dict_get od K_CHARACTER_DEVELOPMENT original_char_dev) in
            let memory_dict :=
              dict_set memory_dict K_PLOT_THREADS
                (dict_get od K_PLOT_THREADS original_plot_threads) in
            match from_dict mm (PDict memory_dict) with
            | Raise e => (mm, Raise e, calls')
            | Ok mm' =>
                let result :=
                  new_char_count <-
                    sum_len_values
                      (dict_get od K_CHARACTER_DEVELOPMENT (PDict [])) ;;
                  new_plot_count <-
                    py_len (dict_get od K_PLOT_THREADS (PDict [])) ;;
                  Ok (stats original_char_count new_char_count
                            original_plot_count new_plot_count) in
                (mm', result, calls')
            end
          else (mm, Ok SUCCESS_FALSE, calls')
      | _ =>
          (* a value that is true and no dict: [.get] raises *)
          if truth optimized_data then (mm, Raise OtherError, calls')
          else (mm, Ok SUCCESS_FALSE, calls')
      end
  end end end.
End WithGateway.


End Optimizer.
Import Optimizer.

(* ================================================================== *)
(** ** utils.strip_reasoning *)
(* ================================================================== *)

Module Strip.

Definition NotNL : Re.regex := Re.Cls (fun c => negb (c =? NL)%N).

(** Matching a pattern letter under [re.IGNORECASE]: the lower-case image
    of a code point, for the code points that match an ASCII letter. *)
Definition fold_case (x : char) : char :=
  if ((65 <=? x) && (x <=? 90))%N then (x + 32)%N
  else if ((x =? 304) || (x =? 305))%N then 105%N
  else if (x =? 8490)%N then 107%N
  else if (x =? 383)%N then 115%N
  else x.

Definition ChrI (c : char) : Re.regex :=
  Re.Cls (fun x => (fold_case x =? fold_case c)%N).

Fixpoint LitI (s : str) : Re.regex :=
  match s with
  | [] => Re.Eps
  | c :: r => Re.Seq (ChrI c) (LitI r)
  end.

(** [^[^\n]*?:\s*\n] *)
Definition p_colon_line : Re.regex :=
  Re.Seq (Re.Star false NotNL)
    (Re.Seq (Re.Chr COLON) (Re.Seq (Re.Star true Re.Space) (Re.Chr NL))).

(** [^<opening words>[^\n]*?\n] *)
Definition p_opening (words : str) : Re.regex :=
  Re.Seq (LitI words) (Re.Seq (Re.Star false NotNL) (Re.Chr NL)).

(** [<think>.*?</think>] *)
Definition p_think : Re.regex :=
  Re.Seq (LitI (py "<think>"))
    (Re.Seq (Re.Star false NotNL) (LitI (py "</think>"))).

(** [^```[a-z]*\n(.*?)\n```$] with [re.DOTALL] *)
Definition p_fence : Re.regex :=
  Re.Seq (Re.Lit (py "```"))
    (Re.Seq (Re.Star true (Re.Cls (fun c => (97 <=? c) && (c <=? 122))%N))
       (Re.Seq (Re.Chr NL)
          (Re.Seq (Re.Group 1 (Re.Star false Re.AnyChar))
             (Re.Seq (Re.Chr NL) (Re.Seq (Re.Lit (py "```")) Re.Eos))))).

(** [re.sub] of an anchored pattern by the empty string, [count=1]: only a
    match at the start is removed. *)
Definition drop_prefix_match (p : Re.regex) (text : str) : str :=
  match Re.match_prefix p text with
  | Some (rest, _) => rest
  | None => text
  end.

(** [re.sub] of [p] by the empty string, [count=1]. *)
Definition drop_first_match (p : Re.regex) (text : str) : str :=
  match Re.search p text with
  | Some (before, _, rest, _) => before ++ rest
  | None => text
  end.

Definition strip_reasoning (text : str) : str :=
  let cleaned_text := strip text in
  let cleaned_text := drop_prefix_match p_colon_line cleaned_text in
  let cleaned_text := drop_prefix_match (p_opening (py "물론이죠")) cleaned_text in
  let cleaned_text := drop_prefix_match (p_opening (py "요청하신")) cleaned_text in
  let cleaned_text := drop_prefix_match (p_opening (py "다음은")) cleaned_text in
  let cleaned_text := drop_first_match p_think cleaned_text in
  let cleaned_text :=
    match Re.match_prefix p_fence cleaned_text with
    | Some (rest, caps) => group_or_empty 1 caps ++ rest
    | None => cleaned_text
    end in
  strip cleaned_text.

End Strip.
Import Strip.

(* ================================================================== *)
(** ** writer.Writer *)
(* ================================================================== *)

Module Writer.

Definition K_CONTENT : str := py "content".
Definition K_FEEDBACK_TEXT : str := py "feedback_text".
Definition QUOTED_CONTENT : str := [QUOTE] ++ K_CONTENT ++ [QUOTE].

(** The envelope pattern; writing Q for the double quote it reads
    [\{[\s\S]*Qcontent Q[\s\S]*:\s*Q([\s\S]*?)Q\s*\}]. *)
Definition re_envelope : Re.regex :=
  Re.Seq (Re.Chr LBRACE)
    (Re.Seq (Re.Star true Re.AnyChar)
       (Re.Seq (Re.Lit QUOTED_CONTENT)
          (Re.Seq (Re.Star true Re.AnyChar)
             (Re.Seq (Re.Chr COLON)
                (Re.Seq (Re.Star true Re.Space)
                   (Re.Seq (Re.Chr QUOTE)
                      (Re.Seq (Re.Group 1 (Re.Star false Re.AnyChar))
                         (Re.Seq (Re.Chr QUOTE)
                            (Re.Seq (Re.Star true Re.Space)
                               (Re.Chr RBRACE)))))))))).

Definition NotQuote : Re.regex := Re.Cls (fun c => negb (c =? QUOTE)%N).

(** The fallback pattern: the quoted key, a colon between optional white
    space, a quote, then as group 1 a run of non-quote characters followed
    by any number of (quote, run of non-quote characters), then a quote. *)
Definition re_content_field : Re.regex :=
  Re.Seq (Re.Lit QUOTED_CONTENT)
    (Re.Seq (Re.Star true Re.Space)
       (Re.Seq (Re.Chr COLON)
          (Re.Seq (Re.Star true Re.Space)
             (Re.Seq (Re.Chr QUOTE)
                (Re.Seq
                   (Re.Group 1
                      (Re.Seq (Re.Star true NotQuote)
                         (Re.Star true
                            (Re.Seq (Re.Chr QUOTE) (Re.Star true NotQuote)))))
                   (Re.Chr QUOTE)))))).

(** The two [replace] calls: backslash-quote becomes a quote, then
    backslash-n becomes a newline. *)
Definition unescape (s : str) : str :=
  replace [BACKSLASH; 110%N] [NL] (replace [BACKSLASH; QUOTE] [QUOTE] s).

Section ParseJson.
Variable json_loads : str -> option pyval.

Definition _parse_json_response (content : str) : pyval :=
  let content_trimmed := strip content in
  if starts_with [LBRACE] content_trimmed then
    match Re.search re_envelope content_trimmed with
    | Some (_, _, _, caps) => PStr (unescape (group_or_empty 1 caps))
    | None =>
        match rfind RBRACE content_trimmed with
        | Some last_brace =>
            let json_str := firstn (S last_brace) content_trimmed in
            match json_loads json_str with
            | Some parsed =>
                match parsed with
                | PDict d =>
                    if dict_mem d K_CONTENT
                    then dict_get d K_CONTENT PNone
                    else PStr content_trimmed
                | _ => PStr content_trimmed
                end
            | None =>
                (* except json.JSONDecodeError *)
                match Re.search re_content_field content_trimmed with
                | Some (_, _, _, caps) =>
                    PStr (unescape (group_or_empty 1 caps))
                | None => PStr content_trimmed
                end
            end
        | None => PStr content_trimmed
        end
    end
  else PStr content_trimmed.

(** The shared tail of drafting and refining: strip, unwrap, collapse.
    [text.split] raises on a value that is no string. *)
Definition postprocess (raw : str) : outcome str :=
  match _parse_json_response (strip_reasoning raw) with
  | PStr parsed => Ok (Dedup.remove_duplicate_sentences parsed)
  | _ => Raise OtherError
  end.

Variable max_retries : nat.
Variable rate_limit_max_retries : nat.

Section Draft.
(** [generate i]: the text of the [i]-th answer of the gateway to the
    drafting prompt. *)
Variable generate : nat -> outcome str.

Definition _api_call (i : nat) : outcome str :=
  content_raw <- generate i ;; postprocess content_raw.

Definition _write (calls : nat) : outcome str * nat :=
  retry_on_error max_retries rate_limit_max_retries _api_call calls.

(** [write_chapter]: the returned content with the chapter as the call
    leaves it, or the exception; and the gateway calls made so far.
    [fuel] bounds the recursion on [retry_count]. *)
Fixpoint write_chapter_fuel (fuel : nat) (chapter : Chapter)
         (min_words max_words : Z) (retry_count : nat) (calls : nat)
  : option (outcome (str * Chapter) * nat) :=
  match fuel with
  | O => None
  | S f =>
      match _write calls with
      | (Raise e, calls') => Some (Raise e, calls')
      | (Ok content, calls') =>
          if negb (validate_content content min_words)
             && (retry_count <? 2)
          then write_chapter_fuel f chapter min_words max_words
                                  (S retry_count) calls'
          else
            let word_count := count_words content in
            Some (Ok (content, set_word_count chapter word_count), calls')
      end
  end.

(** The call redrafts only while [retry_count < 2], so one draft more
    than [2 - retry_count] is all it can make: one draft when the count it
    is entered with is 2 or more. *)
Definition write_chapter (chapter : Chapter) (min_words max_words : Z)
           (retry_count : nat) (calls : nat) :=
  write_chapter_fuel (S (2 - retry_count)) chapter min_words max_words
                     retry_count calls.

(** What the specification says of a drafting run, spelled out: a
    draft, up to two more while validation fails, and the third draft
    accepted whatever it is; an exception of the gateway ends the run. *)
Definition three_drafts (chapter : Chapter) (min_words : Z) (calls : nat)
  : outcome (str * Chapter) * nat :=
  let accept c k := (Ok (c, set_word_count chapter (count_words c)), k) in
  match _write calls with
  | (Raise e, k1) => (Raise e, k1)
  | (Ok c1, k1) =>
      if validate_content c1 min_words then accept c1 k1
      else
        match _write k1 with
        | (Raise e, k2) => (Raise e, k2)
        | (Ok c2, k2) =>
            if validate_content c2 min_words then accept c2 k2
            else
              match _write k2 with
              | (Raise e, k3) => (Raise e, k3)
              | (Ok c3, k3) => accept c3 k3
              end
        end
  end.
End Draft.

(** *** refine_chapter *)

Inductive prompt_kind := FullRewrite | TargetedEdit.

(** What [_refine] hands to the gateway: which of the two prompts, the
    excerpt of the chapter and the feedback put into it, and the token
    budget. *)
Record refine_request := mkRequest {
  kind : prompt_kind;
  review_content : str;
  feedback_text : pyval;
  max_tokens : Z
}.

(** [word_count < min_words * 0.8 or word_count > max_words * 1.2], the
    products taken exactly; for word targets from 0 to 5000 binary64
    decides alike ([Binary64Facts.needs_full_rewrite_binary64]). *)
Definition needs_full_rewrite (word_count min_words max_words : Z) : bool :=
  (10 * word_count <? 8 * min_words)%Z
  || (10 * word_count >? 12 * max_words)%Z.

(** The head and the tail of a long chapter around an omission mark. *)
Definition excerpt (max_chars : nat) (text : str) : str :=
  if max_chars <? length text then
    let half := Nat.div max_chars 2 in
    firstn half text ++ (NL :: py "[생략]" ++ [NL])
    ++ slice_from text (- Z.of_nat half)
  else text.

(** [int(x * 1.5)] *)
Definition one_and_a_half (x : Z) : Z := Z.quot (3 * x) 2.

Variable py_str : pyval -> str.
Variable max_generation_tokens : Z.

Definition feedback_text_of (feedback : pyval) : pyval :=
  match feedback with
  | PDict d => dict_get d K_FEEDBACK_TEXT (PStr (py_str feedback))
  | _ => PStr (py_str feedback)
  end.

Definition build_refine_request (chapter : Chapter) (feedback : pyval)
           (min_words max_words : Z) : refine_request :=
  if needs_full_rewrite (word_count chapter) min_words max_words then
    mkRequest FullRewrite (excerpt 2000 (content chapter))
              (feedback_text_of feedback)
              (Z.min (one_and_a_half max_words) max_generation_tokens)
  else
    mkRequest TargetedEdit (excerpt 3000 (content chapter))
              (feedback_text_of feedback)
              (Z.min (one_and_a_half (word_count chapter))
                     max_generation_tokens).

Section Refine.
Variable generate : refine_request -> nat -> outcome str.

Definition _refine (chapter : Chapter) (feedback : pyval)
           (min_words max_words : Z) (i : nat) : outcome str :=
  refined_raw <-
    generate (build_refine_request chapter feedback min_words max_words) i ;;
  postprocess refined_raw.

Definition refine_chapter (chapter : Chapter) (feedback : pyval)
           (min_words max_words : Z) (calls : nat)
  : outcome (str * Chapter) * nat :=
  match retry_on_error max_retries rate_limit_max_retries
          (_refine chapter feedback min_words max_words) calls with
  | (Raise e, calls') => (Raise e, calls')
  | (Ok refined, calls') =>
      (Ok (refined, set_word_count chapter (count_words refined)), calls')
  end.
End Refine.
End ParseJson.

End Writer.
Import Writer.

(* ================================================================== *)
(** ** More of chapter_manager.ChapterManager *)
(* ================================================================== *)

Module LedgerOps.

(** [add_chapter] *)
Definition add_chapter (chapters : ChapterManager) (chapter : Chapter)
  : ChapterManager := chapters ++ [chapter].

(** [sorted(chapters, key=lambda c: c.number)].  Python's sort is stable, so
    its result is the one permutation that is ordered by number and keeps
    chapters of equal number in their order; insertion before the first
    chapter that is not smaller computes it. *)
Fixpoint insert_by_number (ch : Chapter) (sorted : list Chapter)
  : list Chapter :=
  match sorted with
  | [] => [ch]
  | x :: r =>
      if (number ch <=? number x)%Z then ch :: x :: r
      else x :: insert_by_number ch r
  end.

Fixpoint sort_by_number (chapters : list Chapter) : list Chapter :=
  match chapters with
  | [] => []
  | ch :: r => insert_by_number ch (sort_by_number r)
  end.

(** The order [sort_by_number] establishes. *)
Definition by_number (a b : Chapter) : Prop := (number a <= number b)%Z.

(** [set_chapters] *)
Definition set_chapters (chapters : list Chapter) : ChapterManager :=
  sort_by_number chapters.

(** The integers [first, first + 1, ...], [n] of them. *)
Fixpoint numbers_from (first : Z) (n : nat) : list Z :=
  match n with
  | O => []
  | S k => first :: numbers_from (first + 1) k
  end.

(** The marker line and the tail kept by the truncation of
    [build_short_term_memory]. *)
Definition stm_truncation_header (max_chars : Z) : str :=
  py "=== 단기기억 (최근 " ++ str_of_Z max_chars ++ py "자) ===" ++ [NL]
  ++ py "[...앞부분 생략...]" ++ [NL].

End LedgerOps.
Import LedgerOps.

(* ================================================================== *)
(** ** More of memory_manager.NovelMemoryManager *)
(* ================================================================== *)

Module MemoryOps.

Definition K_SUMMARY : str := py "summary".
Definition K_CHARACTER_CHANGES : str := py "character_changes".
Definition K_NEW_INFO : str := py "new_info".
Definition K_KEY_EVENTS : str := py "key_events".
Definition STATUS_ONGOING : str := py "진행 중".
Definition STATUS_OCCURRED : str := py "발생함".

Section Summary.
(** [str(v)] *)
Variable py_str : pyval -> str.

(** The text one log entry contributes: [None] when it is no string, which
    makes [join] raise. *)
Definition summary_part (mem : pyval) : option str :=
  match mem with
  | PStr s => Some s
  | PDict d =>
      match dict_get d K_SUMMARY (PStr (py_str mem)) with
      | PStr s => Some s
      | _ => None
      end
  | _ => Some (py_str mem)
  end.

Fixpoint summary_parts (mems : list pyval) : option (list str) :=
  match mems with
  | [] => Some []
  | mem :: r =>
      match summary_part mem, summary_parts r with
      | Some s, Some parts => Some (s :: parts)
      | _, _ => None
      end
  end.

(** [memory_list[-5:] if len(memory_list) > 5 else memory_list] *)
Definition recent_memories (memory_list : list pyval) : list pyval :=
  if 5 <? length memory_list then slice_from memory_list (-5)
  else memory_list.

(** [get_summary]; every exception ends in the empty string. *)
Definition get_summary (mm : NovelMemoryManager) (max_length : Z) : str :=
  match memory mm with
  | None => []
  | Some m =>
      let memory_list :=
        match m with
        | PList l => Some l
        | PDict d => Some (map snd d)
        | _ => None
        end in
      match memory_list with
      | None => []
      | Some [] => []
      | Some l =>
          match summary_parts (recent_memories l) with
          | None => []
          | Some parts =>
              let summary := join [NL] parts in
              if (Z.of_nat (length summary) >? max_length)%Z
              then slice_from summary (- max_length)
              else summary
          end
      end
  end.
End Summary.

(** Where a run of [update_from_summary] stands: going on, or stopped by
    an exception, which the method catches and reports. *)
Inductive flow (A : Type) :=
| Go (a : A)
| Caught (a : A).
Arguments Go {A} a.
Arguments Caught {A} a.

(** The loop over [char_changes.items()] on a dict
    [character_development]. *)
Fixpoint apply_changes (cd : list (str * pyval))
         (changes : list (str * pyval)) : list (str * pyval) :=
  match changes with
  | [] => cd
  | (char_name, change) :: r =>
      let cd1 :=
        if dict_mem cd char_name then cd
        else dict_set cd char_name (PList []) in
      let cd2 :=
        match dict_get cd1 char_name PNone with
        | PList l => dict_set cd1 char_name (PList (l ++ [change]))
        | _ => dict_set cd1 char_name (PList [change])
        end in
      apply_changes cd2 r
  end.

(** What [for x in v] iterates over; [None] where [v] is not iterable. *)
Definition iterate (v : pyval) : option (list pyval) :=
  match v with
  | PList l => Some l
  | PStr s => Some (map (fun c => PStr [c]) s)
  | PDict d => Some (map (fun kv => PStr (fst kv)) d)
  | _ => None
  end.

(** *** The plot threads, a dict whose keys need not be strings

    [new_info] and [key_events] come from the model's answer unchecked, and
    whatever is true and hashable in them becomes a key of
    [plot_threads]: a string, but also a number or a boolean.  The entries
    of that dict are kept in insertion order with their keys as values. *)

(** The number a numeric key stands for, as a fraction. *)
Definition key_number (k : pyval) : option (Z * positive) :=
  match k with
  | PBool b => Some (if b then 1%Z else 0%Z, 1%positive)
  | PInt z => Some (z, 1%positive)
  | PFloat n d => Some (n, d)
  | _ => None
  end.

(** [a == b] on keys: strings by their characters, numbers and booleans by
    their value ([True], [1] and [1.0] are one key). *)
Definition key_eqb (a b : pyval) : bool :=
  match a, b with
  | PStr s, PStr t => str_eqb s t
  | PNone, PNone => true
  | _, _ =>
      match key_number a, key_number b with
      | Some (n, d), Some (m, e) => (n * Z.pos e =? m * Z.pos d)%Z
      | _, _ => false
      end
  end.

(** Lists and dicts cannot be keys: [x in d] raises [TypeError] on them. *)
Definition hashable (v : pyval) : bool :=
  match v with
  | PList _ | PDict _ => false
  | _ => true
  end.

(** [key in t] *)
Fixpoint keys_mem (t : list (pyval * pyval)) (key : pyval) : bool :=
  match t with
  | [] => false
  | (k, _) :: r => key_eqb k key || keys_mem r key
  end.


(** The entries of a dict with string keys. *)
Definition threads_of (d : list (str * pyval)) : list (pyval * pyval) :=
  map (fun kv => (PStr (fst kv), snd kv)) d.

(** Back to string keys, when every key is a string. *)
Fixpoint string_keyed (t : list (pyval * pyval))
  : option (list (str * pyval)) :=
  match t with
  | [] => Some []
  | (PStr s, v) :: r =>
      match string_keyed r with
      | Some d => Some ((s, v) :: d)
      | None => None
      end
  | _ :: _ => None
  end.

(** The loop [for info in items: if info and info not in plot_threads:
    plot_threads[info] = status].  A new key goes to the end of the
    dict. *)
Fixpoint add_threads (status : str) (pt : list (pyval * pyval))
         (items : list pyval) : flow (list (pyval * pyval)) :=
  match items with
  | [] => Go pt
  | info :: r =>
      if truth info then
        if hashable info then
          add_threads status
            (if keys_mem pt info then pt else pt ++ [(info, PStr status)]) r
        else Caught pt
      else add_threads status pt r
  end.

Definition with_memory (mm : NovelMemoryManager) (m : pyval) :=
  mkMemory (characters mm) (Some m) (character_development mm)
           (plot_threads mm) (world_events mm).
Definition with_character_development (mm : NovelMemoryManager) (cd : pyval) :=
  mkMemory (characters mm) (memory mm) (Some cd)
           (plot_threads mm) (world_events mm).
Definition with_plot_threads (mm : NovelMemoryManager) (pt : pyval) :=
  mkMemory (characters mm) (memory mm) (character_development mm)
           (Some pt) (world_events mm).

(** The attributes after [update_from_summary]: those of [base], except
    that [plot_threads] is the dict with the entries [t] when [keyed] is
    [Some t] (the call got as far as the plot threads). *)
Record updated := mkUpdated {
  base : NovelMemoryManager;
  keyed : option (list (pyval * pyval))
}.

(** The last part of [update_from_summary]: the plot threads. *)
Definition update_threads (mm : NovelMemoryManager) (new_info key_events : pyval)
  : flow updated :=
  match plot_threads mm with
  | None => Caught (mkUpdated mm None)
  | Some pt0 =>
      let pt := match pt0 with PDict d => threads_of d | _ => [] end in
      match iterate new_info with
      | None => Caught (mkUpdated mm (Some pt))
      | Some infos =>
          match add_threads STATUS_ONGOING pt infos with
          | Caught pt1 => Caught (mkUpdated mm (Some pt1))
          | Go pt1 =>
              match iterate key_events with
              | None => Caught (mkUpdated mm (Some pt1))
              | Some events =>
                  match add_threads STATUS_OCCURRED pt1 events with
                  | Caught pt2 => Caught (mkUpdated mm (Some pt2))
                  | Go pt2 => Go (mkUpdated mm (Some pt2))
                  end
              end
          end
      end
  end.

(** The middle part: the character changes. *)
Definition update_characters (mm : NovelMemoryManager) (char_changes : pyval)
  : flow NovelMemoryManager :=
  match char_changes with
  | PDict [] => Go mm
  | PDict changes =>
      match character_development mm with
      | Some (PDict cd) =>
          Go (with_character_development mm (PDict (apply_changes cd changes)))
      | _ => Caught mm
      end
  | _ => Caught mm
  end.

(** The first part: the log. *)
Definition update_log (mm : NovelMemoryManager) (summary_text : pyval)
  : flow NovelMemoryManager :=
  if truth summary_text then
    match memory mm with
    | Some (PList l) => Go (with_memory mm (PList (l ++ [summary_text])))
    | _ => Caught mm
    end
  else Go mm.

(** [update_from_summary]: the attributes after the call.  The method
    never raises: whatever is raised inside is caught, and what was
    written before stays written. *)
Definition update_from_summary (mm : NovelMemoryManager) (summary_data : pyval)
  : updated :=
  match summary_data with
  | PDict sd =>
      match update_log mm (dict_get sd K_SUMMARY (PStr [])) with
      | Caught mm1 => mkUpdated mm1 None
      | Go mm1 =>
          match update_characters mm1
                  (dict_get sd K_CHARACTER_CHANGES (PDict [])) with
          | Caught mm2 => mkUpdated mm2 None
          | Go mm2 =>
              match update_threads mm2 (dict_get sd K_NEW_INFO (PList []))
                                   (dict_get sd K_KEY_EVENTS (PList [])) with
              | Caught u => u
              | Go u => u
              end
          end
      end
  | _ => mkUpdated mm None
  end.


(** The manager after the call, when all its plot threads have string
    keys. *)
Definition as_manager (u : updated) : option NovelMemoryManager :=
  match keyed u with
  | None => Some (base u)
  | Some t =>
      match string_keyed t with
      | Some d => Some (with_plot_threads (base u) (PDict d))
      | None => None
      end
  end.

(** A summary record of the shape the summarizer asks for: a string, a
    dict, and two lists of strings. *)
Definition well_shaped_summary (summary_data : pyval) : Prop :=
  exists sd,
    summary_data = PDict sd
    /\ is_str (dict_get sd K_SUMMARY (PStr [])) = true
    /\ is_dict (dict_get sd K_CHARACTER_CHANGES (PDict [])) = true
    /\ (exists infos, dict_get sd K_NEW_INFO (PList []) = PList infos
                      /\ forallb is_str infos = true)
    /\ (exists events, dict_get sd K_KEY_EVENTS (PList []) = PList events
                       /\ forallb is_str events = true).

(** [t] is [pt] with entries added at its end: each under a key that [pt]
    does not have, with one of the two statuses [update_from_summary]
    writes. *)
Definition threads_kept (pt t : list (pyval * pyval)) : Prop :=
  exists added,
    t = pt ++ added
    /\ Forall (fun kv =>
                 keys_mem pt (fst kv) = false
                 /\ (snd kv = PStr STATUS_ONGOING
                     \/ snd kv = PStr STATUS_OCCURRED)) added.

End MemoryOps.
Import MemoryOps.

(* ================================================================== *)
(** ** LongTermMemoryOptimizer: the remaining outline, the trigger *)
(* ================================================================== *)

Module OptimizerOps.

(** One line of [_get_remaining_chapters]. *)
Definition remaining_line (ch : Chapter) : str :=
  py "챕터 " ++ str_of_Z (number ch) ++ py ": " ++ title ch
  ++ py " - " ++ outline ch.

Definition NO_REMAINING : str := py "남은 챕터 없음 (마지막 챕터 완료)".

Definition _get_remaining_chapters (chapters : ChapterManager)
           (current_number : Z) : str :=
  let remaining :=
    map remaining_line
        (filter (fun ch => (number ch >? current_number)%Z) chapters) in
  match remaining with
  | [] => NO_REMAINING
  | _ :: _ => join [NL] remaining
  end.

End OptimizerOps.
Import OptimizerOps.

(* ================================================================== *)
(** ** Lines that occur three times in a row *)
(* ================================================================== *)

Module Runs.
Import Dedup.

(** Two lines that are not blank and equal after trimming. *)
Definition same_text (a b : str) : bool :=
  nonblank a && nonblank b && str_eqb (strip a) (strip b).

(** No three consecutive lines are non-blank and equal after trimming. *)
Fixpoint triple_free (lines : list str) : bool :=
  match lines with
  | a :: rest =>
      match rest with
      | b :: c :: _ => negb (same_text a b && same_text b c) && triple_free rest
      | _ => true
      end
  | [] => true
  end.

(** The lines kept so far, as far as the state of the loop remembers
    them. *)
Definition remembered (prev : option str) (cnt : nat) : list str :=
  match prev with
  | None => []
  | Some p => match cnt with O => [p] | S _ => [p; p] end
  end.

(** The text after the last occurrence of [c]. *)
Fixpoint after_last (c : char) (s : str) : option str :=
  match s with
  | [] => None
  | x :: r =>
      match after_last c r with
      | Some t => Some t
      | None => if (x =? c)%N then Some r else None
      end
  end.

End Runs.

(* ================================================================== *)
(** ** Sample data for the worked instances *)
(* ================================================================== *)

Module Examples.

(** Three chapters numbered 1, 2, 3, the first two written. *)
Definition ledger : ChapterManager :=
  [ mkChapter 1 (py "A") (py "o1") (py "first") [] [] 1;
    mkChapter 2 (py "B") (py "o2") (py "second") [] [] 1;
    mkChapter 3 (py "C") (py "o3") [] [] [] 0 ].

(** A store with two log entries, one character with one note and one
    plot thread. *)
Definition store : NovelMemoryManager :=
  mkMemory (PList [])
    (Some (PList [PStr (py "ch1"); PStr (py "ch2")]))
    (Some (PDict [(py "Mina", PList [PStr (py "grows")])]))
    (Some (PDict [(py "the letter", PStr (py "ongoing"))]))
    (Some (PList [])).

(** A summary record as the summarizer returns it. *)
Definition summary_record : pyval :=
  PDict [ (K_SUMMARY, PStr (py "ch3"));
          (K_CHARACTER_CHANGES, PDict [(py "Mina", PStr (py "doubts"))]);
          (K_NEW_INFO, PList [PStr (py "the key")]);
          (K_KEY_EVENTS, PList [PStr (py "the fire")]) ].

(** A summary record whose [new_info] holds a number beside a string. *)
Definition numbered_record : pyval :=
  PDict [ (K_SUMMARY, PStr (py "ch3"));
          (K_CHARACTER_CHANGES, PDict [(py "Mina", PStr (py "doubts"))]);
          (K_NEW_INFO, PList [PInt 7; PStr (py "the key")]);
          (K_KEY_EVENTS, PList [PBool true]) ].

(** A store whose log has six entries. *)
Definition long_log : NovelMemoryManager :=
  mkMemory (PList [])
    (Some (PList [PStr (py "one"); PStr (py "two"); PStr (py "three");
                  PStr (py "four"); PStr (py "five"); PStr (py "six")]))
    (Some (PDict [])) (Some (PDict [])) (Some (PList [])).

End Examples.
(* ================================================================== *)
(** * Properties *)
(* ================================================================== *)

(** ** Strings: equality test, split and join *)

Module PyStrFacts.

Lemma str_eqb_eq (a b : str) : str_eqb a b = true <-> a = b.
Proof.
  revert b; induction a as [|x a IH]; intros [|y b]; simpl;
    try (split; [discriminate | discriminate || congruence]); try tauto.
  rewrite andb_true_iff, N.eqb_eq, IH. split.
  - intros [-> ->]; reflexivity.
  - intros H; injection H; auto.
Qed.

Lemma str_eqb_refl (a : str) : str_eqb a a = true.
Proof. apply str_eqb_eq; reflexivity. Qed.

Lemma str_eqb_sym (a b : str) : str_eqb a b = str_eqb b a.
Proof.
  destruct (str_eqb a b) eqn:E.
  - apply str_eqb_eq in E; subst; symmetry; apply str_eqb_refl.
  - destruct (str_eqb b a) eqn:E'; [|reflexivity].
    apply str_eqb_eq in E'; subst; rewrite str_eqb_refl in E; discriminate.
Qed.

Lemma split_lines_nonempty (s : str) : split_lines s <> [].
Proof.
  induction s as [|c r IH]; simpl; [discriminate|].
  destruct (c =? NL)%N; [discriminate|].
  destruct (split_lines r); [contradiction | discriminate].
Qed.

(** No line of a split text holds a newline. *)
Lemma split_lines_no_newline (s : str) :
  Forall (fun l => ~ In NL l) (split_lines s).
Proof.
  induction s as [|c r IH]; simpl.
  - constructor; [intros [] | constructor].
  - destruct (c =? NL)%N eqn:E.
    + constructor; [intros [] | exact IH].
    + destruct (split_lines r) as [|l ls].
      * constructor; [|constructor]. intros [H|[]]. subst; rewrite N.eqb_refl in E; discriminate.
      * inversion IH; subst. constructor; [|assumption].
        intros [H|H]; [subst; rewrite N.eqb_refl in E; discriminate | auto].
Qed.

Lemma split_lines_app_line (l : str) (rest : str) :
  ~ In NL l ->
  split_lines (l ++ NL :: rest) = l :: split_lines rest.
Proof.
  induction l as [|c l IH]; intros Hl; simpl.
  - reflexivity.
  - destruct (c =? NL)%N eqn:E.
    + apply N.eqb_eq in E; subst; exfalso; apply Hl; left; reflexivity.
    + rewrite IH; [reflexivity | intros H; apply Hl; right; exact H].
Qed.

Lemma split_lines_single (l : str) : ~ In NL l -> split_lines l = [l].
Proof.
  induction l as [|c l IH]; intros Hl; simpl; [reflexivity|].
  destruct (c =? NL)%N eqn:E.
  - apply N.eqb_eq in E; subst; exfalso; apply Hl; left; reflexivity.
  - rewrite IH; [reflexivity | intros H; apply Hl; right; exact H].
Qed.

(** Splitting what was joined gives the lines back. *)
Lemma split_join (ls : list str) :
  ls <> [] -> Forall (fun l => ~ In NL l) ls ->
  split_lines (join [NL] ls) = ls.
Proof.
  induction ls as [|l ls IH]; intros Hne Hall; [contradiction|].
  inversion Hall as [|? ? Hl Hls]; subst.
  destruct ls as [|l' ls'].
  - simpl. apply split_lines_single; assumption.
  - assert (E : join [NL] (l :: l' :: ls') = l ++ NL :: join [NL] (l' :: ls'))
      by reflexivity.
    rewrite E, split_lines_app_line by assumption.
    rewrite IH; [reflexivity | discriminate | assumption].
Qed.

End PyStrFacts.
Import PyStrFacts.

(** ** remove_duplicate_sentences *)

Module DedupFacts.
Import Dedup.

#[local] Arguments same_as_prev : simpl never.
#[local] Arguments strip : simpl never.
#[local] Arguments nonblank : simpl never.

(** The loop of the source and its recursive form agree. *)
Lemma fold_step_go (lines : list str) (st : loop_state) :
  cleaned_lines (fold_left step lines st)
  = cleaned_lines st ++ go (prev_line st) (consecutive_count st) lines.
Proof.
  revert st; induction lines as [|line rest IH]; intros st; simpl.
  - rewrite app_nil_r; reflexivity.
  - rewrite IH. unfold step.
    destruct (negb (truthy (strip line))); simpl.
    + rewrite <- app_assoc; reflexivity.
    + destruct (same_as_prev (prev_line st) (strip line)); simpl.
      * destruct (consecutive_count st); simpl;
          [rewrite <- app_assoc; reflexivity | reflexivity].
      * rewrite <- app_assoc; reflexivity.
Qed.

Lemma remove_duplicate_lines_go (lines : list str) :
  remove_duplicate_lines lines = go None 0 lines.
Proof. unfold remove_duplicate_lines, run; rewrite fold_step_go; reflexivity. Qed.

Lemma same_as_prev_true (prev : option str) (s : str) :
  same_as_prev prev s = true -> prev = Some s /\ truthy s = true.
Proof.
  destruct prev as [p|]; unfold same_as_prev; [|discriminate].
  rewrite andb_true_iff, str_eqb_eq. intros [Hp ->]; auto.
Qed.

Lemma same_as_prev_self (s : str) :
  truthy s = true -> same_as_prev (Some s) s = true.
Proof. intros H; unfold same_as_prev; rewrite H, str_eqb_refl; reflexivity. Qed.

(** Once a line has been repeated, the counter's exact value is of no
    consequence. *)
Lemma go_count_irrelevant (lines : list str) (prev : option str) (c : nat) :
  1 <= c -> go prev c lines = go prev 1 lines.
Proof.
  revert prev c; induction lines as [|line rest IH]; intros prev c Hc; simpl;
    [reflexivity|].
  destruct (negb (truthy (strip line))); [reflexivity|].
  destruct (same_as_prev prev (strip line)); [|reflexivity].
  destruct c as [|c]; [lia|]. simpl.
  rewrite (IH prev (S (S c))) by lia. rewrite (IH prev 2) by lia. reflexivity.
Qed.

Lemma go_idempotent (lines : list str) (prev : option str) (c : nat) :
  c <= 1 -> go prev c (go prev c lines) = go prev c lines.
Proof.
  revert prev c; induction lines as [|line rest IH]; intros prev c Hc; simpl;
    [reflexivity|].
  destruct (negb (truthy (strip line))) eqn:Hblank.
  - simpl. rewrite Hblank. rewrite IH by lia. reflexivity.
  - destruct (same_as_prev prev (strip line)) eqn:Hsame.
    + destruct (same_as_prev_true _ _ Hsame) as [-> Htruthy].
      destruct c as [|[|c]]; [| |lia]; simpl.
      * rewrite Hblank, Hsame. simpl. rewrite IH by lia. reflexivity.
      * rewrite (go_count_irrelevant rest (Some (strip line)) (c:=2)) by lia.
        apply IH; lia.
    + simpl. rewrite Hblank, Hsame. rewrite IH by lia. reflexivity.
Qed.

(** The lines kept are lines of the input, and the first line is kept. *)
Lemma go_incl (lines : list str) (prev : option str) (c : nat) :
  incl (go prev c lines) lines.
Proof.
  revert prev c; induction lines as [|line rest IH]; intros prev c; simpl.
  - apply incl_refl.
  - destruct (negb (truthy (strip line))).
    + apply incl_cons; [left; reflexivity | apply incl_tl, IH].
    + destruct (same_as_prev prev (strip line)).
      * destruct c;
          [apply incl_cons; [left; reflexivity | apply incl_tl, IH]
          | apply incl_tl, IH].
      * apply incl_cons; [left; reflexivity | apply incl_tl, IH].
Qed.

Lemma go_first_kept (lines : list str) :
  lines <> [] -> go None 0 lines <> [].
Proof.
  destruct lines as [|line rest]; [contradiction|]. intros _. simpl.
  destruct (negb (truthy (strip line))); discriminate.
Qed.

Lemma go_collapse_runs (lines : list str) :
  forall prev c rev_seen,
    tracks prev c rev_seen ->
    go prev c lines = collapse_runs 2 rev_seen lines.
Proof.
  induction lines as [|line rest IH]; intros prev c seen Htr; simpl;
    [reflexivity|].
  change (truthy (strip line)) with (nonblank line).
  destruct (nonblank line) eqn:Hnb; simpl.
  2:{ f_equal. apply IH. simpl. rewrite Hnb. reflexivity. }
  destruct (same_as_prev prev (strip line)) eqn:Hsame.
  - apply same_as_prev_true in Hsame. destruct Hsame as [-> _].
    destruct seen as [|h t]; simpl in Htr; [discriminate|].
    destruct (nonblank h) eqn:Hh; [|discriminate].
    destruct Htr as [Heq Hc]. injection Heq as Heq.
    simpl run_before. rewrite Hh, <- Heq, str_eqb_refl. simpl.
    destruct c as [|c].
    + assert (Hr : run_before (strip line) t = 0) by (rewrite Heq; apply Hc; reflexivity).
      rewrite Hr. simpl. f_equal. apply IH.
      simpl. rewrite Hnb. split; [reflexivity|].
      simpl. rewrite Hh, <- Heq, str_eqb_refl. simpl. split; discriminate.
    + destruct (run_before (strip line) t) as [|r] eqn:Er.
      * rewrite Heq in Er. apply Hc in Er. discriminate.
      * simpl. apply IH.
        simpl. rewrite Hnb. split; [reflexivity|].
        simpl. rewrite Hh, <- Heq, str_eqb_refl. simpl. split; discriminate.
  - assert (Hrun : run_before (strip line) seen = 0).
    { destruct seen as [|h t]; simpl; [reflexivity|].
      simpl in Htr. destruct (nonblank h) eqn:Hh; [|reflexivity].
      destruct Htr as [-> _]. simpl.
      unfold same_as_prev in Hsame. unfold nonblank in Hh. rewrite Hh in Hsame.
      simpl in Hsame. rewrite str_eqb_sym, Hsame. reflexivity. }
    rewrite Hrun. simpl. f_equal. apply IH.
    simpl. rewrite Hnb. split; [reflexivity|]. rewrite Hrun. tauto.
Qed.

(** A run of a non-blank line keeps its first two lines. *)
Lemma collapse_runs_repeat (l : str) (k : nat) :
  nonblank l = true ->
  collapse_runs 2 [] (repeat l k) = repeat l (Nat.min k 2).
Proof.
  intros Hl.
  assert (Hrun : forall n, run_before (strip l) (repeat l n) = n).
  { induction n as [|n IHn]; simpl; [reflexivity|].
    rewrite Hl, str_eqb_refl; simpl; congruence. }
  assert (Hdrop : forall m n, 2 <= n ->
            collapse_runs 2 (repeat l n) (repeat l m) = []).
  { induction m as [|m IHm]; intros n Hn; [reflexivity|].
    cbn [repeat collapse_runs].
    rewrite Hl, Hrun. 
    destruct (n <? 2) eqn:E; [apply Nat.ltb_lt in E; lia|].
    simpl. apply (IHm (S n)); lia. }
  destruct k as [|[|k]]; [reflexivity| |].
  - cbn [repeat collapse_runs]. rewrite Hl; reflexivity.
  - cbn [repeat collapse_runs run_before]. rewrite Hl, str_eqb_refl.
    cbn. f_equal. f_equal. rewrite Nat.min_0_r. apply (Hdrop k 2); lia.
Qed.

End DedupFacts.

Module DedupClaims.
Import Dedup DedupFacts.

Lemma kept_lines_well_formed (text : str) :
  go None 0 (split_lines text) <> []
  /\ Forall (fun l => ~ In NL l) (go None 0 (split_lines text)).
Proof.
  split.
  - apply go_first_kept, split_lines_nonempty.
  - pose proof (split_lines_no_newline text) as Hall.
    rewrite Forall_forall in *. intros l Hl.
    apply Hall. eapply go_incl; exact Hl.
Qed.

(** C3 (as amended): for every text, [remove_duplicate_sentences] keeps a
    blank line always and a non-blank line exactly when fewer than two
    lines directly before it are non-blank and equal to it after trimming:
    a run of identical lines is cut down to its first two, not to one. *)
Theorem remove_duplicate_sentences_keeps_two (text : str) :
  remove_duplicate_sentences text
  = join [NL] (collapse_runs 2 [] (split_lines text)).
Proof.
  unfold remove_duplicate_sentences.
  rewrite remove_duplicate_lines_go.
  rewrite (go_collapse_runs (split_lines text) None 0 []); reflexivity.
Qed.

(** C3, the claim as stated fails: the two-line text [A\nA] is returned
    unchanged, whereas collapsing the run to a single occurrence would give
    the one line [A]. *)
Lemma remove_duplicate_sentences_pair_survives :
  let text := [65; 10; 65]%N in
  remove_duplicate_sentences text = text
  /\ join [NL] (collapse_runs 1 [] (split_lines text)) = [65%N]
  /\ remove_duplicate_sentences text
     <> join [NL] (collapse_runs 1 [] (split_lines text)).
Proof.
  cbv zeta. split; [reflexivity|]. split; [reflexivity|].
  vm_compute. discriminate.
Qed.

(** C7: the duplicate-line collapse is idempotent, for every text. *)
Theorem remove_duplicate_sentences_idempotent (text : str) :
  remove_duplicate_sentences (remove_duplicate_sentences text)
  = remove_duplicate_sentences text.
Proof.
  unfold remove_duplicate_sentences.
  rewrite !remove_duplicate_lines_go.
  destruct (kept_lines_well_formed text) as [Hne Hall].
  rewrite split_join by assumption.
  rewrite go_idempotent by lia. reflexivity.
Qed.

End DedupClaims.

(** ** NovelMemoryManager: serialization round trip *)

Module MemoryClaims.

Lemma to_dict_lookup (mm : NovelMemoryManager) :
  dict_get (to_dict mm) K_MEMORY (PList []) = attr_or (memory mm) (PList [])
  /\ dict_get (to_dict mm) K_CHARACTER_DEVELOPMENT (PDict [])
     = attr_or (character_development mm) (PDict [])
  /\ dict_get (to_dict mm) K_PLOT_THREADS (PDict [])
     = attr_or (plot_threads mm) (PDict [])
  /\ dict_get (to_dict mm) K_WORLD_EVENTS (PList [])
     = attr_or (world_events mm) (PList []).
Proof. repeat split; reflexivity. Qed.

(** C4: for every memory store whose [memory] is a list and whose
    [character_development] and [plot_threads] are dicts, restoring the
    result of [to_dict] with [from_dict] (into any manager object) succeeds
    and yields the same [memory], [character_development] and
    [plot_threads]. *)
Theorem from_dict_to_dict_roundtrip (mm target : NovelMemoryManager) :
  declared_types mm ->
  exists restored,
    from_dict target (PDict (to_dict mm)) = Ok restored
    /\ memory restored = memory mm
    /\ character_development restored = character_development mm
    /\ plot_threads restored = plot_threads mm.
Proof.
  intros [[l Hm] [[cd Hcd] [pt Hpt]]].
  destruct (to_dict_lookup mm) as [Em [Ecd [Ept Ewe]]].
  unfold from_dict. rewrite Em, Ecd, Ept, Ewe, Hm, Hcd, Hpt. simpl.
  eexists; split; [reflexivity|]. simpl. auto.
Qed.

(** C4, witness: a store with two log entries, one character with one
    note and one plot thread. *)
Lemma from_dict_to_dict_roundtrip_witness :
  let mm :=
    mkMemory (PList [])
      (Some (PList [PStr (py "ch1"); PStr (py "ch2")]))
      (Some (PDict [(py "Mina", PList [PStr (py "grows")])]))
      (Some (PDict [(py "the letter", PStr (py "ongoing"))]))
      (Some (PList [])) in
  declared_types mm
  /\ exists restored,
       from_dict (mkMemory PNone None None None None) (PDict (to_dict mm))
       = Ok restored
       /\ memory restored = memory mm
       /\ character_development restored = character_development mm
       /\ plot_threads restored = plot_threads mm.
Proof.
  cbv zeta.
  assert (H : declared_types
                (mkMemory (PList [])
                   (Some (PList [PStr (py "ch1"); PStr (py "ch2")]))
                   (Some (PDict [(py "Mina", PList [PStr (py "grows")])]))
                   (Some (PDict [(py "the letter", PStr (py "ongoing"))]))
                   (Some (PList [])))).
  { repeat split; eexists; reflexivity. }
  split; [exact H|].
  exact (from_dict_to_dict_roundtrip (mkMemory PNone None None None None) H).
Defined.

End MemoryClaims.

(** ** Writer: envelope unwrapping and the choice of the refine prompt *)

Module WriterClaims.

(** C8: on the input [{Qcontent Q: QHello\nWorldQ}] (Q the double quote,
    backslash and n two characters), whatever [json.loads] does,
    [_parse_json_response] returns the two lines Hello and World separated
    by a real newline. *)
Theorem parse_json_response_hello_world (json_loads : str -> option pyval) :
  _parse_json_response json_loads
    ([LBRACE; QUOTE] ++ py "content" ++ [QUOTE; COLON; 32%N; QUOTE]
     ++ py "Hello\nWorld" ++ [QUOTE; RBRACE])
  = PStr (py "Hello" ++ [NL] ++ py "World").
Proof. vm_compute. reflexivity. Qed.

(** The same unwrapping when the content holds escaped quotes: from
    [{Qcontent Q: QSay \QhiQ\QQ}] (Q the double quote) the text
    Say QhiQ comes out. *)
Lemma parse_json_response_escaped_quotes (json_loads : str -> option pyval) :
  _parse_json_response json_loads
    ([LBRACE; QUOTE] ++ py "content" ++ [QUOTE; COLON; 32%N; QUOTE]
     ++ py "Say \" ++ [QUOTE] ++ py "hi\" ++ [QUOTE; QUOTE; RBRACE])
  = PStr (py "Say " ++ [QUOTE] ++ py "hi" ++ [QUOTE]).
Proof. vm_compute. reflexivity. Qed.



End WriterClaims.

(** ** Writer: drafting with bounded redrafts *)

Module DraftClaims.

Lemma truthy_false (s : str) : truthy s = false <-> s = [].
Proof. destruct s; simpl; split; congruence. Qed.

Lemma validate_content_false_iff (content : str) (min_words : Z) :
  validate_content content min_words = false
  <-> strip content = [] \/ (10 * count_words content < 3 * min_words)%Z.
Proof.
  unfold validate_content, below_30_percent.
  destruct (truthy content) eqn:Hc; cbn [negb orb].
  - destruct (truthy (strip content)) eqn:Hs; cbn [negb orb].
    + destruct (10 * count_words content <? 3 * min_words)%Z eqn:Hw.
      * split; [intros _; right; apply Z.ltb_lt; exact Hw | reflexivity].
      * split; [discriminate|].
        intros [H|H].
        -- apply truthy_false in H. congruence.
        -- apply Z.ltb_lt in H. congruence.
    + split; [intros _; left; apply truthy_false; exact Hs | reflexivity].
  - split; [|reflexivity]. intros _. left.
    apply truthy_false in Hc. subst. reflexivity.
Qed.

Section Draft.
Variable json_loads : str -> option pyval.
Variables max_retries rate_limit_max_retries : nat.
Variable generate : nat -> outcome str.

Let draft := _write json_loads max_retries rate_limit_max_retries generate.
Let write_chapter :=
  write_chapter json_loads max_retries rate_limit_max_retries generate.
Let three_drafts :=
  three_drafts json_loads max_retries rate_limit_max_retries generate.

(** The recursion on [retry_count] ends within its fuel and makes at most
    three drafts. *)
Lemma write_chapter_three_drafts chapter min_words max_words calls :
  write_chapter chapter min_words max_words 0 calls
  = Some (three_drafts chapter min_words calls).
Proof.
  unfold write_chapter, Writer.write_chapter, three_drafts,
    Writer.three_drafts.
  cbn [Nat.sub write_chapter_fuel].
  destruct (_write _ _ _ _ calls) as [[c1|e1] k1]; [|reflexivity].
  destruct (validate_content c1 min_words); cbn [negb andb Nat.ltb Nat.leb];
    [reflexivity|].
  destruct (_write _ _ _ _ k1) as [[c2|e2] k2]; [|reflexivity].
  destruct (validate_content c2 min_words); cbn [negb andb Nat.ltb Nat.leb];
    [reflexivity|].
  destruct (_write _ _ _ _ k2) as [[c3|e3] k3]; [|reflexivity].
  rewrite andb_false_r. reflexivity.
Qed.

(** C5: (1) a draft fails validation exactly when it is empty after
    trimming or its word count is below 30% of [min_words]; (2) a call of
    [write_chapter] makes one draft and at most two further ones, and
    returns the third whatever it is; (3) with min_words = 200 and
    max_words = 400, when the draft left after both redrafts has 50 words,
    [write_chapter] returns that draft, which is not empty, raises nothing
    and sets [word_count] to 50. *)
Theorem write_chapter_accepts_short_draft (chapter : Chapter) (calls : nat) :
  (forall content min_words,
      validate_content content min_words = false
      <-> strip content = []
          \/ (10 * count_words content < 3 * min_words)%Z)
  /\ (forall min_words max_words,
        write_chapter chapter min_words max_words 0 calls
        = Some (three_drafts chapter min_words calls))
  /\ (forall c1 c2 c3 k1 k2 k3,
        draft calls = (Ok c1, k1) -> validate_content c1 200 = false ->
        draft k1 = (Ok c2, k2) -> validate_content c2 200 = false ->
        draft k2 = (Ok c3, k3) -> count_words c3 = 50%Z ->
        write_chapter chapter 200 400 0 calls
        = Some (Ok (c3, set_word_count chapter 50), k3)
        /\ c3 <> []
        /\ word_count (set_word_count chapter 50) = 50%Z).
Proof.
  split; [exact validate_content_false_iff|].
  split; [intros; apply write_chapter_three_drafts|].
  intros c1 c2 c3 k1 k2 k3 H1 V1 H2 V2 H3 W3.
  split; [|split; [|reflexivity]].
  - rewrite write_chapter_three_drafts.
    unfold three_drafts, Writer.three_drafts.
    fold draft. rewrite H1, V1, H2, V2, H3, W3. reflexivity.
  - intros ->. vm_compute in W3. discriminate.
Qed.
End Draft.

(** C5, witness: a gateway that answers every drafting prompt with 50
    Hangul syllables. *)
Lemma write_chapter_accepts_short_draft_witness :
  let generate := fun _ : nat => Ok (repeat 44032%N 50) in
  let chapter := mkChapter 2 (py "T") (py "O") [] [] [] 0 in
  write_chapter (fun _ => None) 5 10 generate chapter 200 400 0 0
  = Some (Ok (repeat 44032%N 50, set_word_count chapter 50), 3)
  /\ repeat 44032%N 50 <> []
  /\ word_count (set_word_count chapter 50) = 50%Z.
Proof.
  cbv zeta.
  apply (proj2 (proj2 (@write_chapter_accepts_short_draft
                         (fun _ => None) 5 10
                         (fun _ : nat => Ok (repeat 44032%N 50))
                         (mkChapter 2 (py "T") (py "O") [] [] [] 0) 0))
           (repeat 44032%N 50) (repeat 44032%N 50) (repeat 44032%N 50)
           1 2 3);
    vm_compute; reflexivity.
Defined.

End DraftClaims.

(** ** LongTermMemoryOptimizer: a failed compaction changes nothing *)

Module OptimizerClaims.

Section Retry.
Variable A : Type.
Variables max_retries rate_limit_max_retries : nat.
Variable func : nat -> outcome A.


End Retry.


Section WithGateway.
Variable json_loads : str -> option pyval.
Variables max_retries rate_limit_max_retries : nat.
Variable generate : nat -> outcome str.

Let optimize_memory :=
  optimize_memory json_loads max_retries rate_limit_max_retries generate.
Let optimize_with_llm :=
  _optimize_with_llm json_loads max_retries rate_limit_max_retries generate.



(** Whatever the gateway answers, the memory manager changes only when the
    optimizer obtained a non-empty mapping. *)
Lemma optimize_memory_changes_only_on_mapping
      (mm : NovelMemoryManager) (calls : nat) :
  fst (fst (optimize_memory mm calls)) = mm
  \/ exists od,
       od <> []
       /\ fst (optimize_with_llm
                 (dict_get (to_dict mm) K_CHARACTER_DEVELOPMENT (PDict []))
                 calls)
          = Ok (Some (PDict od)).
Proof.
  unfold optimize_memory, Optimizer.optimize_memory, optimize_with_llm.
  destruct (sum_len_values _) as [n|e]; [|left; reflexivity].
  destruct (py_len _) as [m|e]; [|left; reflexivity].
  destruct (_optimize_with_llm _ _ _ _ _ calls) as [[[v|]|e] k];
    [|left; reflexivity|left; reflexivity].
  destruct v as [| | | | | |od];
    try (left; destruct (truth _); reflexivity).
  destruct od as [|entry od]; [left; reflexivity|].
  right. eexists. split; [|reflexivity]. discriminate.
Qed.

End WithGateway.

End OptimizerClaims.

(** ** count_words and validate_content *)

Module CountWordsFacts.

Section OneClass.
Variable p : char -> bool.

Lemma drop_while_length (s : str) : length (drop_while p s) <= length s.
Proof.
  induction s as [|c r IH]; simpl; [lia|].
  destruct (p c); simpl; lia.
Qed.

(** A greedy repetition of one class takes the whole run. *)
Lemma star_class (fuel : nat) :
  forall (s : str) (caps : Re.captures),
    length s <= fuel ->
    Re.star_loop (Re.run (Re.Cls p)) true
                 (fun s1 c => Some (s1, c)) fuel s caps
    = Some (drop_while p s, caps).
Proof.
  induction fuel as [|f IH]; intros s caps Hlen.
  - destruct s; [reflexivity | simpl in Hlen; lia].
  - destruct s as [|c r]; [reflexivity|].
    cbn [Re.star_loop Re.run drop_while].
    destruct (p c) eqn:Hc.
    + assert (Hlt : (length r <? length (c :: r)) = true)
        by (apply Nat.ltb_lt; simpl; lia).
      rewrite Hlt. rewrite IH by (simpl in Hlen; lia). reflexivity.
    + reflexivity.
Qed.

Lemma match_prefix_plus (s : str) :
  Re.match_prefix (Re.Plus true (Re.Cls p)) s
  = match s with
    | [] => None
    | c :: r => if p c then Some (drop_while p r, []) else None
    end.
Proof.
  unfold Re.match_prefix, Re.Plus. cbn [Re.run].
  destruct s as [|c r]; [reflexivity|].
  destruct (p c); [|reflexivity].
  apply star_class. lia.
Qed.

Lemma filter_drop_while (s : str) :
  length (filter p s)
  = (length s - length (drop_while p s))
    + length (filter p (drop_while p s)).
Proof.
  induction s as [|c r IH]; [reflexivity|].
  cbn [drop_while]. destruct (p c) eqn:Hc.
  - cbn [filter]. rewrite Hc. cbn [length].
    pose proof (drop_while_length r). lia.
  - cbn [length]. lia.
Qed.

Lemma count_runs_inside (s : str) :
  count_runs p true s = count_runs p false (drop_while p s).
Proof.
  induction s as [|c r IH]; [reflexivity|].
  cbn [drop_while count_runs]. destruct (p c) eqn:Hc.
  - simpl. exact IH.
  - cbn [count_runs]. rewrite Hc. reflexivity.
Qed.

(** [findall] of [[class]+]: the matches hold the characters of the class
    and are as many as the maximal runs. *)
Lemma findall_plus_counts (fuel : nat) :
  forall s : str,
    length s <= fuel ->
    length (concat (Re.findall_go (Re.Plus true (Re.Cls p)) fuel s))
    = length (filter p s)
    /\ length (Re.findall_go (Re.Plus true (Re.Cls p)) fuel s)
       = count_runs p false s.
Proof.
  induction fuel as [|f IH]; intros s Hlen.
  - destruct s; [split; reflexivity | simpl in Hlen; lia].
  - destruct s as [|c r]; [split; reflexivity|].
    cbn [Re.findall_go]. rewrite match_prefix_plus.
    destruct (p c) eqn:Hc.
    + pose proof (drop_while_length r) as Hd.
      assert (Hlt : (length (drop_while p r) <? length (c :: r)) = true)
        by (apply Nat.ltb_lt; simpl; lia).
      rewrite Hlt.
      destruct (IH (drop_while p r)) as [IH1 IH2];
        [simpl in Hlen; lia|].
      split.
      * cbn [concat]. rewrite length_app, IH1.
        unfold Re.matched_text. rewrite length_firstn.
        cbn [filter]. rewrite Hc. cbn [length].
        rewrite (filter_drop_while r). lia.
      * cbn [length count_runs]. rewrite Hc, IH2, count_runs_inside.
        reflexivity.
    + destruct (IH r) as [IH1 IH2]; [simpl in Hlen; lia|].
      cbn [filter count_runs]. rewrite Hc. split; assumption.
Qed.
End OneClass.

Lemma count_words_spec (text : str) :
  count_words text
  = (Z.of_nat (length (filter is_hangul text))
     + Z.of_nat (count_runs is_latin false text))%Z.
Proof.
  unfold count_words, Re.findall.
  destruct (@findall_plus_counts is_hangul (length text) text (le_n _)) as [H _].
  destruct (@findall_plus_counts is_latin (length text) text (le_n _)) as [_ L].
  rewrite H, L. reflexivity.
Qed.

End CountWordsFacts.

Module CountWordsClaims.
Import CountWordsFacts.

Lemma wordless_counts (text : str) :
  wordless text = true ->
  length (filter is_hangul text) = 0
  /\ forall inside, count_runs is_latin inside text = 0.
Proof.
  unfold wordless. induction text as [|c r IH]; intros H.
  - split; [reflexivity | intros; reflexivity].
  - cbn [forallb] in H. apply andb_true_iff in H. destruct H as [Hc Hr].
    apply andb_true_iff in Hc. destruct Hc as [Hh Hl].
    apply negb_true_iff in Hh. apply negb_true_iff in Hl.
    destruct (IH Hr) as [IH1 IH2].
    cbn [filter count_runs]. rewrite Hh, Hl. split; [exact IH1|].
    intros _. apply IH2.
Qed.

(** C10 (as amended): [count_words] is the number of Hangul syllables plus
    the number of maximal runs of Latin letters; so a text without either
    counts 0 words, and [validate_content] rejects it for every
    [min_words] of at least 1. *)
Theorem count_words_mixed_script :
  (forall text,
      count_words text
      = (Z.of_nat (length (filter is_hangul text))
         + Z.of_nat (count_runs is_latin false text))%Z)
  /\ (forall text,
        wordless text = true ->
        count_words text = 0%Z
        /\ forall min_words,
             (1 <= min_words)%Z -> validate_content text min_words = false).
Proof.
  split; [exact count_words_spec|].
  intros text Hw.
  assert (H0 : count_words text = 0%Z).
  { rewrite count_words_spec. destruct (wordless_counts text Hw) as [H1 H2].
    rewrite H1, H2. reflexivity. }
  split; [exact H0|].
  intros min_words Hmin. unfold validate_content.
  destruct (negb (truthy text) || negb (truthy (strip text))); [reflexivity|].
  unfold below_30_percent. rewrite H0.
  assert (Hlt : (10 * 0 <? 3 * min_words)%Z = true) by (apply Z.ltb_lt; lia).
  rewrite Hlt. reflexivity.
Qed.

(** C10, witness: the digits-only text 123. *)
Lemma count_words_mixed_script_witness :
  count_words (py "123") = 0%Z
  /\ forall min_words,
       (1 <= min_words)%Z -> validate_content (py "123") min_words = false.
Proof.
  apply (proj2 count_words_mixed_script (py "123")).
  reflexivity.
Defined.

(** C10, the claim as stated fails: with [min_words = 0] the digits-only
    text 123, which is not empty and counts 0 words, passes validation. *)
Lemma validate_content_accepts_wordless_at_zero :
  py "123" <> []
  /\ wordless (py "123") = true
  /\ count_words (py "123") = 0%Z
  /\ validate_content (py "123") 0 = true.
Proof. repeat split; try reflexivity. discriminate. Qed.

End CountWordsClaims.


(** ** ChapterManager: slices of the ledger, short-term memory *)

Module SliceFacts.

Section Slice.
Variable A : Type.

(** With bounds that are not negative, a slice is a [firstn] of a
    [skipn]. *)
Lemma slice_nonneg (l : list A) (a b : Z) :
  (0 <= a)%Z -> (0 <= b)%Z ->
  slice l a b = firstn (Z.to_nat b - Z.to_nat a) (skipn (Z.to_nat a) l).
Proof.
  intros Ha Hb. unfold slice, norm_index.
  destruct (a <? 0)%Z eqn:Ea; [apply Z.ltb_lt in Ea; lia|].
  destruct (b <? 0)%Z eqn:Eb; [apply Z.ltb_lt in Eb; lia|].
  destruct (Z_le_gt_dec a (Z.of_nat (length l))) as [Hal|Hal].
  - rewrite (Z.min_l a) by lia.
    destruct (Z_le_gt_dec b (Z.of_nat (length l))) as [Hbl|Hbl].
    + rewrite (Z.min_l b) by lia. f_equal. lia.
    + rewrite (Z.min_r b) by lia.
      rewrite !firstn_all2; [reflexivity | |]; rewrite length_skipn; lia.
  - rewrite (Z.min_r a) by lia. rewrite Nat2Z.id.
    rewrite skipn_all. rewrite (skipn_all2 (n := Z.to_nat a)) by lia.
    rewrite !firstn_nil. reflexivity.
Qed.

Lemma in_firstn_skipn (l : list A) (j k : nat) (x : A) :
  In x (firstn k (skipn j l)) ->
  exists i, j <= i < j + k /\ nth_error l i = Some x.
Proof.
  intros Hin. apply In_nth_error in Hin. destruct Hin as [n Hn].
  assert (Hlt : n < k).
  { destruct (Nat.lt_ge_cases n k) as [H|H]; [exact H|].
    rewrite nth_error_firstn in Hn.
    destruct (n <? k) eqn:E; [apply Nat.ltb_lt in E; lia | discriminate]. }
  rewrite nth_error_firstn in Hn.
  destruct (n <? k) eqn:E; [|discriminate].
  rewrite nth_error_skipn in Hn.
  exists (j + n). split; [lia | exact Hn].
Qed.

(** The elements of a slice sit at positions below its upper bound. *)
Lemma in_slice_position (l : list A) (a b : Z) (x : A) :
  (0 <= a)%Z -> (0 <= b)%Z -> In x (slice l a b) ->
  exists i, (Z.of_nat i < b)%Z /\ nth_error l i = Some x.
Proof.
  intros Ha Hb Hin. rewrite slice_nonneg in Hin by assumption.
  apply in_firstn_skipn in Hin. destruct Hin as [i [Hi Hx]].
  exists i. split; [lia | exact Hx].
Qed.

(** A slice sees the list only below its upper bound. *)
Lemma slice_firstn (l : list A) (a b : Z) :
  (0 <= a)%Z -> (0 <= b)%Z ->
  slice (firstn (Z.to_nat b) l) a b = slice l a b.
Proof.
  intros Ha Hb. rewrite !slice_nonneg by assumption.
  rewrite skipn_firstn_comm, firstn_firstn, Nat.min_id. reflexivity.
Qed.
End Slice.

End SliceFacts.

Module LedgerFacts.
Import SliceFacts.

(** In a ledger numbered from [k] on, the chapters numbered below [n] are
    the first [n - k]. *)
Lemma filter_below_numbered (n : Z) (chapters : list Chapter) :
  forall k : Z,
    (forall i ch, nth_error chapters i = Some ch ->
                  number ch = (Z.of_nat i + k)%Z) ->
    filter (fun ch => (number ch <? n)%Z) chapters
    = firstn (Z.to_nat (n - k)) chapters.
Proof.
  induction chapters as [|ch r IH]; intros k Hnum.
  - rewrite firstn_nil. reflexivity.
  - assert (Hch : number ch = k) by (rewrite (Hnum 0%nat ch eq_refl); lia).
    assert (Hr : forall i c, nth_error r i = Some c ->
                             number c = (Z.of_nat i + (k + 1))%Z).
    { intros i c Hi. rewrite (Hnum (S i) c Hi). lia. }
    cbn [filter]. rewrite (IH (k + 1)%Z Hr), Hch.
    destruct (k <? n)%Z eqn:E.
    + apply Z.ltb_lt in E.
      replace (Z.to_nat (n - k)) with (S (Z.to_nat (n - (k + 1)))) by lia.
      reflexivity.
    + apply Z.ltb_ge in E.
      replace (Z.to_nat (n - k)) with 0%nat by lia.
      replace (Z.to_nat (n - (k + 1))) with 0%nat by lia.
      reflexivity.
Qed.

Lemma filter_below_numbered_from_one (n : Z) (chapters : ChapterManager) :
  numbered_from_one chapters ->
  filter (fun ch => (number ch <? n)%Z) chapters
  = firstn (Z.to_nat (n - 1)) chapters.
Proof. intros H. apply filter_below_numbered. exact H. Qed.

Lemma stm_window_members (chapters : ChapterManager) (n w : Z) (ch : Chapter) :
  numbered_from_one chapters -> (1 < n)%Z ->
  In ch (stm_window chapters n w) ->
  In ch chapters /\ (number ch < n)%Z.
Proof.
  intros Hnum Hn Hin. unfold stm_window in Hin.
  apply in_slice_position in Hin; [|lia|lia].
  destruct Hin as [i [Hi Hx]]. split.
  - eapply nth_error_In; exact Hx.
  - rewrite (Hnum i ch Hx). lia.
Qed.

Lemma stm_window_firstn (chapters : ChapterManager) (n w : Z) :
  (1 < n)%Z ->
  stm_window (firstn (Z.to_nat (n - 1)) chapters) n w
  = stm_window chapters n w.
Proof. intros Hn. unfold stm_window. apply slice_firstn; lia. Qed.

Lemma stm_loop_no_content (recent : list Chapter) :
  (forall ch, In ch recent -> no_content ch = true) ->
  stm_loop recent = ([], false).
Proof.
  induction recent as [|ch r IH]; intros H; [reflexivity|].
  cbn [stm_loop]. rewrite IH by (intros c Hc; apply H; right; exact Hc).
  rewrite (H ch) by (left; reflexivity). reflexivity.
Qed.

Lemma stm_of_window_no_content (recent : list Chapter) (max_chars : Z) :
  (forall ch, In ch recent -> no_content ch = true) ->
  stm_of_window recent max_chars = [].
Proof.
  intros H. unfold stm_of_window. destruct recent as [|ch r]; [reflexivity|].
  rewrite (@stm_loop_no_content (ch :: r) H). reflexivity.
Qed.

End LedgerFacts.

Module LedgerClaims.
Import SliceFacts LedgerFacts.

(** C1 (as amended): in a ledger whose chapter at position i is chapter
    number i, [build_short_term_memory] for chapter [n] draws on chapters
    numbered below [n] only: its window holds no other chapter, two such
    ledgers that agree on the chapters numbered below [n] give the same
    text, and the text is empty when [n] is the first chapter or every
    chapter numbered below [n] has empty content. *)
Theorem short_term_memory_from_earlier_chapters
        (chapters : ChapterManager) (n w max_chars : Z) :
  numbered_from_one chapters ->
  ((1 < n)%Z ->
     forall ch, In ch (stm_window chapters n w) ->
                In ch chapters /\ (number ch < n)%Z)
  /\ (forall chapters',
        numbered_from_one chapters' ->
        filter (fun ch => (number ch <? n)%Z) chapters'
        = filter (fun ch => (number ch <? n)%Z) chapters ->
        build_short_term_memory chapters' n w max_chars
        = build_short_term_memory chapters n w max_chars)
  /\ ((n <= 1)%Z -> build_short_term_memory chapters n w max_chars = [])
  /\ ((forall ch, In ch chapters -> (number ch < n)%Z -> content ch = []) ->
      build_short_term_memory chapters n w max_chars = []).
Proof.
  intros Hnum. repeat split.
  - eapply stm_window_members; eassumption.
  - eapply stm_window_members; eassumption.
  - intros chapters' Hnum' Hsame. unfold build_short_term_memory.
    destruct (n <=? 1)%Z eqn:E; [reflexivity|].
    apply Z.leb_gt in E.
    rewrite !filter_below_numbered_from_one in Hsame by assumption.
    rewrite <- (@stm_window_firstn chapters' n w E).
    rewrite <- (@stm_window_firstn chapters n w E).
    rewrite Hsame. reflexivity.
  - intros Hn. unfold build_short_term_memory.
    apply Z.leb_le in Hn. rewrite Hn. reflexivity.
  - intros Hempty. unfold build_short_term_memory.
    destruct (n <=? 1)%Z eqn:E; [reflexivity|].
    apply Z.leb_gt in E.
    apply stm_of_window_no_content. intros ch Hin.
    destruct (@stm_window_members chapters n w ch Hnum E Hin) as [Hc Hlt].
    unfold no_content. rewrite (Hempty ch Hc Hlt). reflexivity.
Qed.

(** C1, witness: three chapters numbered 1, 2, 3, the first two written,
    and the short-term memory of chapter 3. *)
Lemma short_term_memory_from_earlier_chapters_witness :
  let chapters :=
    [ mkChapter 1 (py "A") (py "o1") (py "first") [] [] 1;
      mkChapter 2 (py "B") (py "o2") (py "second") [] [] 1;
      mkChapter 3 (py "C") (py "o3") [] [] [] 0 ] in
  numbered_from_one chapters
  /\ forall ch, In ch (stm_window chapters 3 3) ->
                In ch chapters /\ (number ch < 3)%Z.
Proof.
  cbv zeta.
  assert (Hnum : numbered_from_one
                   [ mkChapter 1 (py "A") (py "o1") (py "first") [] [] 1;
                     mkChapter 2 (py "B") (py "o2") (py "second") [] [] 1;
                     mkChapter 3 (py "C") (py "o3") [] [] [] 0 ]).
  { intros [|[|[|i]]] ch H; simpl in H;
      try (injection H as <-; reflexivity).
    destruct i; discriminate. }
  split; [exact Hnum|].
  apply (proj1 (@short_term_memory_from_earlier_chapters _ 3 3 8000 Hnum)).
  reflexivity.
Defined.

(** C1, the claim as stated fails: in a ledger whose only chapter is
    numbered 2, the short-term memory built for chapter 2 is not empty and
    is made of the content of chapter 2 itself, although no chapter is
    numbered below 2. *)
Lemma short_term_memory_takes_current_chapter :
  let chapters := [ mkChapter 2 (py "T") (py "o") (py "x") [] [] 1 ] in
  (forall ch, In ch chapters -> ~ (number ch < 2)%Z)
  /\ stm_window chapters 2 3 = chapters
  /\ build_short_term_memory chapters 2 3 8000
     = STM_HEADER ++ [NL; NL] ++ py "[챕터 2: T]" ++ [NL] ++ py "x"
  /\ build_short_term_memory chapters 2 3 8000 <> [].
Proof.
  cbv zeta. split; [|split; [|split]].
  - intros ch [<-|[]]. simpl. lia.
  - reflexivity.
  - vm_compute. reflexivity.
  - vm_compute. discriminate.
Qed.

End LedgerClaims.

(** ** ChapterManager: the context of a chapter *)

Module ContextClaims.
Import SliceFacts.

Lemma last_chapter_snoc (l : list Chapter) (ch : Chapter) :
  last_chapter (l ++ [ch]) = Some ch.
Proof. unfold last_chapter. rewrite rev_app_distr. reflexivity. Qed.

(** With a recent window of at least one chapter, its last chapter is the
    one at the position just before the current chapter. *)
Lemma recent_ends_with_previous
      (chapters : ChapterManager) (n recent_count : Z) (ch : Chapter) :
  (1 < n)%Z -> (1 <= recent_count)%Z ->
  nth_error chapters (Z.to_nat (n - 2)) = Some ch ->
  last_chapter (get_recent_chapters chapters n recent_count) = Some ch.
Proof.
  intros Hn Hrc Hnth. unfold get_recent_chapters.
  rewrite slice_nonneg by lia.
  apply nth_error_split in Hnth. destruct Hnth as [l1 [l2 [-> Hlen]]].
  set (a := Z.to_nat (Z.max 0 (n - 1 - recent_count))).
  assert (Ha : a <= length l1) by (unfold a; lia).
  assert (Hb : Z.to_nat (n - 1) = S (length l1)) by lia.
  rewrite Hb, skipn_app.
  replace (a - length l1) with 0 by lia. cbn [skipn].
  rewrite firstn_app, length_skipn.
  replace (S (length l1) - a - (length l1 - a)) with 1 by lia.
  rewrite firstn_all2 by (rewrite length_skipn; lia).
  cbn [firstn]. apply last_chapter_snoc.
Qed.

Lemma last_passage_length (ch : Chapter) : length (last_passage ch) <= 500.
Proof.
  unfold last_passage, slice_from, norm_index.
  cbn [Z.ltb Z.compare]. rewrite length_skipn. lia.
Qed.

(** C2 (as amended): for the first chapter [build_context] returns the
    fixed preamble, the memory summary and then the outline context it was
    given; for any other chapter number it returns, in this order, (1)
    when the recent window (the slice of the ledger by position) is not
    empty and its last chapter has content, the style-reference header and
    the last 500 characters of that content (trimmed, newline runs
    collapsed), (2) the memory summary under its header, (3) the outline
    context; and for a chapter number above 1 at whose preceding position
    [n - 1] the ledger has a chapter, with a recent count of at least one,
    the last chapter of the window is that chapter, the one just before
    the current one. *)
Theorem build_context_layout
        (chapters : ChapterManager) (n recent_count : Z)
        (memory_summary outline_context : str) :
  (n = 1%Z ->
     build_context chapters n recent_count memory_summary outline_context
     = FIRST_PREAMBLE ++ memory_summary ++ [NL; NL] ++ outline_context)
  /\ (n <> 1%Z ->
      forall last,
        last_chapter (get_recent_chapters chapters n recent_count) = Some last ->
        truthy (content last) = true ->
        build_context chapters n recent_count memory_summary outline_context
        = STYLE_HEADER ++ [NL]
          ++ (py "[..." ++ last_passage last ++ py "]") ++ [NL]
          ++ LTM_HEADER ++ [NL] ++ memory_summary ++ [NL] ++ outline_context
        /\ length (last_passage last) <= 500)
  /\ (n <> 1%Z ->
      (last_chapter (get_recent_chapters chapters n recent_count) = None
       \/ exists last,
            last_chapter (get_recent_chapters chapters n recent_count)
            = Some last /\ content last = []) ->
      build_context chapters n recent_count memory_summary outline_context
      = LTM_HEADER ++ [NL] ++ memory_summary ++ [NL] ++ outline_context)
  /\ ((1 < n)%Z -> (1 <= recent_count)%Z ->
      forall ch,
        nth_error chapters (Z.to_nat (n - 2)) = Some ch ->
        last_chapter (get_recent_chapters chapters n recent_count) = Some ch).
Proof.
  split; [|split; [|split]].
  - intros ->. reflexivity.
  - intros Hn last Hlast Hcontent. split; [|apply last_passage_length].
    unfold build_context. apply Z.eqb_neq in Hn. rewrite Hn.
    unfold style_reference. rewrite Hlast.
    rewrite Hcontent.
    cbn [app join]. rewrite <- !app_assoc. reflexivity.
  - intros Hn Hnone. unfold build_context. apply Z.eqb_neq in Hn. rewrite Hn.
    unfold style_reference.
    destruct Hnone as [->|[last [-> Hempty]]]; [reflexivity|].
    rewrite Hempty. reflexivity.
  - intros Hn Hrc ch Hnth. eapply recent_ends_with_previous; eassumption.
Qed.


(** C2, witness: the context of chapter 2 after a first chapter of two
    paragraphs. *)
Lemma build_context_layout_witness :
  let ch1 :=
    mkChapter 1 (py "A") (py "o1")
              (py "One." ++ [NL; NL; NL] ++ py "Two.") [] [] 2 in
  build_context [ch1] 2 2 (py "M") (py "O")
  = STYLE_HEADER ++ [NL]
    ++ (py "[..." ++ last_passage ch1 ++ py "]") ++ [NL]
    ++ LTM_HEADER ++ [NL] ++ py "M" ++ [NL] ++ py "O"
  /\ length (last_passage ch1) <= 500.
Proof.
  cbv zeta.
  apply (proj1 (proj2 (@build_context_layout
                         [mkChapter 1 (py "A") (py "o1")
                            (py "One." ++ [NL; NL; NL] ++ py "Two.") [] [] 2]
                         2 2 (py "M") (py "O")))).
  - lia.
  - reflexivity.
  - reflexivity.
Defined.

(** C2, the claim as stated fails: the context of the first chapter changes
    with the outline context (it is appended after the memory summary), and
    the context of a later chapter has no style reference when the chapter
    before it has no content. *)
Lemma build_context_first_has_outline :
  build_context [] 1 2 (py "M") (py "A")
  <> build_context [] 1 2 (py "M") (py "B")
  /\ build_context [] 1 2 (py "M") (py "A")
     = FIRST_PREAMBLE ++ py "M" ++ [NL; NL] ++ py "A"
  /\ build_context [mkChapter 1 (py "A") (py "o1") [] [] [] 0]
                   2 2 (py "M") (py "O")
     = LTM_HEADER ++ [NL] ++ py "M" ++ [NL] ++ py "O".
Proof.
  split; [|split].
  - vm_compute. discriminate.
  - reflexivity.
  - reflexivity.
Qed.

End ContextClaims.


(** ** The exact thresholds against their binary64 evaluation *)

Module Binary64Facts.
Import Binary64.

Lemma Z_lt_b64_down (f : spec_float) (z z' : Z) :
  Z_lt_b64 z f = true -> (z' <= z)%Z -> Z_lt_b64 z' f = true.
Proof.
  unfold Z_lt_b64, Z_compare_b64. intros H Hle.
  destruct f as [s|[|]| |s m e]; try discriminate; try reflexivity.
  - destruct (z ?= 0)%Z eqn:E; try discriminate.
    assert (Hz : (z < 0)%Z) by exact E.
    assert (E' : (z' < 0)%Z) by lia.
    unfold Z.lt in E'. rewrite E'. reflexivity.
  - destruct (0 <=? e)%Z.
    + destruct (z ?= _)%Z eqn:E; try discriminate.
      match type of E with (z ?= ?v)%Z = Lt =>
        assert (Hz : (z < v)%Z) by exact E;
        assert (E' : (z' < v)%Z) by lia
      end.
      unfold Z.lt in E'. rewrite E'. reflexivity.
    + destruct (z * _ ?= _)%Z eqn:E; try discriminate.
      assert (Hp : (0 <= 2 ^ (- e))%Z) by (apply Z.pow_nonneg; lia).
      match type of E with (z * ?k ?= ?v)%Z = Lt =>
        assert (Hz : (z * k < v)%Z) by exact E;
        assert (E' : (z' * k < v)%Z) by nia
      end.
      unfold Z.lt in E'. rewrite E'. reflexivity.
Qed.

Lemma Z_lt_b64_up (f : spec_float) (z z' : Z) :
  Z_lt_b64 z f = false -> (z <= z')%Z -> Z_lt_b64 z' f = false.
Proof.
  intros H Hle. destruct (Z_lt_b64 z' f) eqn:E; [|reflexivity].
  rewrite (Z_lt_b64_down f E Hle) in H. discriminate.
Qed.

Lemma Z_gt_b64_up (f : spec_float) (z z' : Z) :
  Z_gt_b64 z f = true -> (z <= z')%Z -> Z_gt_b64 z' f = true.
Proof.
  unfold Z_gt_b64, Z_compare_b64. intros H Hle.
  destruct f as [s|[|]| |s m e]; try discriminate; try reflexivity.
  - destruct (z ?= 0)%Z eqn:E; try discriminate.
    assert (Hz : (z > 0)%Z) by exact E.
    assert (E' : (z' > 0)%Z) by lia.
    unfold Z.gt in E'. rewrite E'. reflexivity.
  - destruct (0 <=? e)%Z.
    + destruct (z ?= _)%Z eqn:E; try discriminate.
      match type of E with (z ?= ?v)%Z = Gt =>
        assert (Hz : (z > v)%Z) by exact E;
        assert (E' : (z' > v)%Z) by lia
      end.
      unfold Z.gt in E'. rewrite E'. reflexivity.
    + destruct (z * _ ?= _)%Z eqn:E; try discriminate.
      assert (Hp : (0 <= 2 ^ (- e))%Z) by (apply Z.pow_nonneg; lia).
      match type of E with (z * ?k ?= ?v)%Z = Gt =>
        assert (Hz : (z * k > v)%Z) by exact E;
        assert (E' : (z' * k > v)%Z) by nia
      end.
      unfold Z.gt in E'. rewrite E'. reflexivity.
Qed.

Lemma Z_gt_b64_down (f : spec_float) (z z' : Z) :
  Z_gt_b64 z f = false -> (z' <= z)%Z -> Z_gt_b64 z' f = false.
Proof.
  intros H Hle. destruct (Z_gt_b64 z' f) eqn:E; [|reflexivity].
  rewrite (Z_gt_b64_up f E Hle) in H. discriminate.
Qed.

Lemma thresholds_agree_upto_spec (n : nat) :
  thresholds_agree_upto n = true ->
  forall x, (0 <= x <= Z.of_nat n)%Z -> thresholds_agree x = true.
Proof.
  induction n as [|k IH]; intros H x Hx.
  - replace x with 0%Z by lia. exact H.
  - cbn [thresholds_agree_upto] in H. apply andb_true_iff in H.
    destruct H as [Hn Hk].
    destruct (Z.eq_dec x (Z.of_nat (S k))) as [->|Hne]; [exact Hn|].
    apply IH; [exact Hk | lia].
Qed.

Lemma thresholds_agree_5000 :
  forall x, (0 <= x <= 5000)%Z -> thresholds_agree x = true.
Proof.
  intros x Hx.
  apply (@thresholds_agree_upto_spec (Z.to_nat 5000));
    [vm_compute; reflexivity | rewrite Z2Nat.id; lia].
Qed.

Lemma lt_switch_decides (c : spec_float) (x a z : Z) :
  lt_switches_at c x a = true ->
  Z_lt_b64 z (b64_mul (b64_of_Z x) c) = (z <=? a)%Z.
Proof.
  unfold lt_switches_at. intros H. apply andb_true_iff in H.
  destruct H as [Ha Hb]. apply negb_true_iff in Hb.
  destruct (z <=? a)%Z eqn:E.
  - apply Z.leb_le in E. eapply Z_lt_b64_down; eassumption.
  - apply Z.leb_gt in E. eapply Z_lt_b64_up; [eassumption | lia].
Qed.

Lemma gt_switch_decides (c : spec_float) (x a z : Z) :
  gt_switches_at c x a = true ->
  Z_gt_b64 z (b64_mul (b64_of_Z x) c) = (a <? z)%Z.
Proof.
  unfold gt_switches_at. intros H. apply andb_true_iff in H.
  destruct H as [Ha Hb]. apply negb_true_iff in Ha.
  destruct (a <? z)%Z eqn:E.
  - apply Z.ltb_lt in E. eapply Z_gt_b64_up; [eassumption | lia].
  - apply Z.ltb_ge in E. eapply Z_gt_b64_down; eassumption.
Qed.

(** For a word target up to 5000, the exact product decides
    [word_count < min_words * 0.3] as binary64 does. *)
Lemma below_30_percent_binary64 (word_count min_words : Z) :
  (0 <= min_words <= 5000)%Z ->
  below_30_percent word_count min_words
  = below_30_percent_b64 word_count min_words.
Proof.
  intros Hm. pose proof (@thresholds_agree_5000 _ Hm) as H.
  unfold thresholds_agree in H. apply andb_true_iff in H.
  destruct H as [H _]. apply andb_true_iff in H. destruct H as [H3 _].
  unfold below_30_percent_b64. rewrite (@lt_switch_decides _ _ _ word_count H3).
  unfold below_30_percent.
  destruct (10 * word_count <? 3 * min_words)%Z eqn:E1;
    destruct (word_count <=? (3 * min_words - 1) / 10)%Z eqn:E2;
    try reflexivity; exfalso.
  - apply Z.ltb_lt in E1. apply Z.leb_gt in E2.
    Z.to_euclidean_division_equations. lia.
  - apply Z.ltb_ge in E1. apply Z.leb_le in E2.
    Z.to_euclidean_division_equations. lia.
Qed.

(** Likewise for the test that selects the full rewrite. *)
Lemma needs_full_rewrite_binary64 (word_count min_words max_words : Z) :
  (0 <= min_words <= 5000)%Z -> (0 <= max_words <= 5000)%Z ->
  needs_full_rewrite word_count min_words max_words
  = needs_full_rewrite_b64 word_count min_words max_words.
Proof.
  intros Hmin Hmax.
  pose proof (@thresholds_agree_5000 _ Hmin) as H.
  unfold thresholds_agree in H. apply andb_true_iff in H.
  destruct H as [H _]. apply andb_true_iff in H. destruct H as [_ H8].
  pose proof (@thresholds_agree_5000 _ Hmax) as H'.
  unfold thresholds_agree in H'. apply andb_true_iff in H'.
  destruct H' as [_ H12].
  unfold needs_full_rewrite_b64.
  rewrite (@lt_switch_decides _ _ _ word_count H8).
  rewrite (@gt_switch_decides _ _ _ word_count H12).
  unfold needs_full_rewrite. f_equal.
  - destruct (10 * word_count <? 8 * min_words)%Z eqn:E1;
      destruct (word_count <=? (8 * min_words - 1) / 10)%Z eqn:E2;
      try reflexivity; exfalso.
    + apply Z.ltb_lt in E1. apply Z.leb_gt in E2.
      Z.to_euclidean_division_equations. lia.
    + apply Z.ltb_ge in E1. apply Z.leb_le in E2.
      Z.to_euclidean_division_equations. lia.
  - unfold Z.gtb.
    destruct (10 * word_count ?= 12 * max_words)%Z eqn:E1;
      destruct (12 * max_words / 10 <? word_count)%Z eqn:E2;
      try reflexivity; exfalso.
    + apply Z.compare_eq_iff in E1. apply Z.ltb_lt in E2.
      Z.to_euclidean_division_equations. lia.
    + change (10 * word_count < 12 * max_words)%Z in E1. apply Z.ltb_lt in E2.
      Z.to_euclidean_division_equations. lia.
    + apply Z.compare_gt_iff in E1. apply Z.ltb_ge in E2.
      Z.to_euclidean_division_equations. lia.
Qed.

End Binary64Facts.

(* ================================================================== *)
(** * Further properties of the code *)
(* ================================================================== *)

From Stdlib Require Import Permutation Sorted.


(** ** retry_on_error *)

Module RetryFacts.

Section Retry.
Variable A : Type.
Variables max_retries rate_limit_max_retries : nat.
Variable func : nat -> outcome A.

Lemma rate_limit_loop_calls (remaining calls : nat) :
  let r := rate_limit_loop func remaining calls in
  calls <= snd r <= calls + remaining
  /\ (forall res, fst r = Some res -> calls < snd r)
  /\ (forall a, fst r = Some (Ok a) -> func (snd r - 1) = Ok a).
Proof.
  revert calls. induction remaining as [|k IH]; intros calls; cbn zeta.
  - simpl. split; [lia|]. split; discriminate.
  - cbn [rate_limit_loop].
    destruct (func calls) as [a|e] eqn:Hf.
    + simpl. split; [lia|]. split; [intros; lia|].
      intros a' H. injection H as <-.
      rewrite Nat.sub_0_r. exact Hf.
    + destruct e as [status| | |];
        try (simpl; split; [lia|]; split; [intros; lia | discriminate]).
      destruct (negb (status =? 429)%Z).
      * simpl. split; [lia|]. split; [intros; lia | discriminate].
      * destruct k as [|k'].
        -- simpl. split; [lia|]. split; [intros; lia | discriminate].
        -- specialize (IH (S calls)). cbn zeta in IH.
           destruct IH as [Hb [Hlt Hok]].
           split; [lia|]. split.
           ++ intros res H. specialize (Hlt res H). lia.
           ++ exact Hok.
Qed.

Lemma attempts_calls (remaining : nat) :
  forall last calls,
    let r := attempts rate_limit_max_retries func remaining last calls in
    calls <= snd r <= calls + remaining * (1 + rate_limit_max_retries)
    /\ (forall a, fst r = Ok a -> calls < snd r /\ func (snd r - 1) = Ok a).
Proof.
  induction remaining as [|k IH]; intros last calls; cbn zeta.
  - destruct last; simpl; (split; [lia | discriminate]).
  - cbn [attempts].
    destruct (func calls) as [a|e] eqn:Hf.
    + simpl. split; [lia|]. intros a' H. injection H as <-.
      split; [lia|]. rewrite Nat.sub_0_r. exact Hf.
    + assert (Hnext :
        forall l,
          let r := attempts rate_limit_max_retries func k l (S calls) in
          calls <= snd r
                <= calls + S k * (1 + rate_limit_max_retries)
          /\ (forall a, fst r = Ok a ->
                        calls < snd r /\ func (snd r - 1) = Ok a)).
      { intros l. specialize (IH l (S calls)). cbn zeta in *.
        destruct IH as [Hb Hok]. split; [lia|].
        intros a H. destruct (Hok a H). split; [lia | assumption]. }
      destruct e as [status| | |]; try apply Hnext.
      destruct (status =? 429)%Z; [|apply Hnext].
      pose proof (rate_limit_loop_calls rate_limit_max_retries (S calls)) as Hrl.
      cbn zeta in Hrl.
      destruct (rate_limit_loop func rate_limit_max_retries (S calls))
        as [[res|] c'] eqn:Erl; simpl in Hrl.
      * destruct Hrl as [Hb [Hlt Hok]]. simpl. split; [lia|].
        intros a H. subst res. split; [lia|]. apply Hok. reflexivity.
      * destruct Hrl as [Hb _].
        specialize (IH (Some (HTTPError status)) c'). cbn zeta in IH.
        destruct IH as [Hb' Hok']. split; [lia|].
        intros a H. destruct (Hok' a H). split; [lia | assumption].
Qed.

(** X1: [retry_on_error] invokes the wrapped function at most
    [max_retries * (1 + rate_limit_max_retries)] times, and a value it
    returns is the value of the last invocation it made. *)
Theorem retry_on_error_bounded (calls : nat) :
  let r := retry_on_error max_retries rate_limit_max_retries func calls in
  calls <= snd r <= calls + max_retries * (1 + rate_limit_max_retries)
  /\ (forall a, fst r = Ok a -> calls < snd r /\ func (snd r - 1) = Ok a).
Proof. unfold retry_on_error. apply attempts_calls. Qed.

Lemma attempts_persistent_failure (e : exn) :
  (forall i, func i = Raise e) ->
  (forall status, e <> HTTPError status) ->
  forall remaining last calls,
    attempts rate_limit_max_retries func remaining last calls
    = (Raise (match remaining with
              | O => match last with Some l => l | None => OtherError end
              | S _ => e
              end),
       calls + remaining).
Proof.
  intros Hall Hnot. induction remaining as [|k IH]; intros last calls.
  - simpl. rewrite Nat.add_0_r. destruct last; reflexivity.
  - cbn [attempts]. rewrite Hall.
    assert (Hstep : attempts rate_limit_max_retries func k (Some e) (S calls)
                    = (Raise e, calls + S k)).
    { rewrite IH. replace (S calls + k) with (calls + S k) by lia.
      destruct k; reflexivity. }
    destruct e as [status| | |]; try exact Hstep.
    exfalso. apply (Hnot status). reflexivity.
Qed.

(** X2: when every invocation raises the same error, and that is no HTTP
    error, [retry_on_error] makes exactly [max_retries] invocations and
    raises that error; with [max_retries = 0] it makes none and raises all
    the same. *)
Theorem retry_on_error_persistent_failure (e : exn) (calls : nat) :
  (forall i, func i = Raise e) ->
  (forall status, e <> HTTPError status) ->
  retry_on_error max_retries rate_limit_max_retries func calls
  = (Raise (match max_retries with O => OtherError | S _ => e end),
     calls + max_retries).
Proof.
  intros Hall Hnot. unfold retry_on_error.
  rewrite (attempts_persistent_failure Hall Hnot). reflexivity.
Qed.

Lemma rate_limit_loop_all_429 (remaining calls : nat) :
  (forall i, calls <= i -> func i = Raise (HTTPError 429)) ->
  rate_limit_loop func (S remaining) calls
  = (Some (Raise RuntimeError), calls + S remaining).
Proof.
  revert calls. induction remaining as [|k IH]; intros calls Hall.
  - cbn [rate_limit_loop]. rewrite Hall by lia. simpl.
    replace (calls + 1) with (S calls) by lia. reflexivity.
  - cbn [rate_limit_loop]. rewrite Hall by lia.
    change (negb (429 =? 429)%Z) with false. cbv iota.
    change (rate_limit_loop func (S k) (S calls)
            = (Some (Raise RuntimeError), calls + S (S k))).
    rewrite IH by (intros i Hi; apply Hall; lia).
    f_equal. lia.
Qed.

(** X3: when the gateway keeps answering 429, [retry_on_error] gives up
    with a [RuntimeError] after the first invocation and
    [rate_limit_max_retries] more, whatever [max_retries] is left. *)
Theorem retry_on_error_rate_limited (calls : nat) :
  0 < max_retries -> 0 < rate_limit_max_retries ->
  (forall i, calls <= i -> func i = Raise (HTTPError 429)) ->
  retry_on_error max_retries rate_limit_max_retries func calls
  = (Raise RuntimeError, calls + 1 + rate_limit_max_retries).
Proof.
  intros Hn Hrl Hall. unfold retry_on_error.
  destruct max_retries as [|n]; [lia|].
  destruct rate_limit_max_retries as [|k]; [lia|].
  cbn [attempts]. rewrite Hall by lia.
  change (429 =? 429)%Z with true. cbv iota.
  rewrite rate_limit_loop_all_429 by (intros i Hi; apply Hall; lia).
  f_equal. lia.
Qed.
End Retry.

(** X1, witness: a wrapped function that fails twice and then answers 7. *)
Lemma retry_on_error_bounded_witness :
  let func := fun i : nat => if i <? 2 then Raise OtherError else Ok 7 in
  let r := retry_on_error 5 10 func 0 in
  0 <= snd r <= 0 + 5 * (1 + 10)
  /\ (forall a, fst r = Ok a -> 0 < snd r /\ func (snd r - 1) = Ok a).
Proof.
  exact (@retry_on_error_bounded nat 5 10
           (fun i : nat => if i <? 2 then Raise OtherError else Ok 7) 0).
Defined.

(** X2, witness: five attempts allowed, a wrapped function that always fails
    with a JSON error. *)
Lemma retry_on_error_persistent_failure_witness :
  retry_on_error 5 10 (fun _ : nat => @Raise nat JSONDecodeError) 0
  = (Raise JSONDecodeError, 5).
Proof.
  apply (@retry_on_error_persistent_failure nat 5 10
           (fun _ : nat => @Raise nat JSONDecodeError) JSONDecodeError 0).
  - reflexivity.
  - discriminate.
Defined.

(** X3, witness: five attempts and ten rate-limit retries, a gateway that is
    always rate limited. *)
Lemma retry_on_error_rate_limited_witness :
  retry_on_error 5 10 (fun _ : nat => @Raise nat (HTTPError 429)) 0
  = (Raise RuntimeError, 11).
Proof.
  apply (@retry_on_error_rate_limited nat 5 10
           (fun _ : nat => @Raise nat (HTTPError 429)) 0).
  - lia.
  - lia.
  - reflexivity.
Defined.

End RetryFacts.


(** ** safe_json_parse *)

Module SafeJsonFacts.
Import Runs.

(** The greedy [.*] before a closing brace stops at the last one. *)
Lemma star_any_last (fuel : nat) :
  forall (s : str) (caps : Re.captures),
    length s <= fuel ->
    Re.star_loop (Re.run Re.AnyChar) true
      (fun s1 c1 => Re.run (Re.Chr RBRACE) s1 c1 (fun s2 c2 => Some (s2, c2)))
      fuel s caps
    = match after_last RBRACE s with
      | Some rest => Some (rest, caps)
      | None => None
      end.
Proof.
  induction fuel as [|f IH]; intros s caps Hlen.
  - destruct s; [reflexivity | simpl in Hlen; lia].
  - destruct s as [|x r]; [reflexivity|].
    cbn [Re.star_loop Re.run Re.AnyChar after_last].
    assert (Hlt : (length r <? length (x :: r)) = true)
      by (apply Nat.ltb_lt; simpl; lia).
    rewrite Hlt, IH by (simpl in Hlen; lia).
    destruct (after_last RBRACE r); [reflexivity|].
    unfold Re.Chr. cbn [Re.run]. destruct (x =? RBRACE)%N; reflexivity.
Qed.

Lemma match_prefix_braces (s : str) :
  Re.match_prefix re_braces s
  = match s with
    | x :: r =>
        if (x =? LBRACE)%N then
          match after_last RBRACE r with
          | Some rest => Some (rest, [])
          | None => None
          end
        else None
    | [] => None
    end.
Proof.
  unfold Re.match_prefix, re_braces. destruct s as [|x r]; [reflexivity|].
  unfold Re.Chr at 1. cbn [Re.run].
  destruct (x =? LBRACE)%N; [|reflexivity].
  apply star_any_last. lia.
Qed.

Lemma after_last_app (c : char) (body post : str) :
  ~ In c post -> after_last c (body ++ c :: post) = Some post.
Proof.
  intros Hpost.
  assert (Hnone : after_last c post = None).
  { induction post as [|x r IH]; [reflexivity|]. cbn [after_last].
    rewrite IH by (intros H; apply Hpost; right; exact H).
    destruct (x =? c)%N eqn:E; [|reflexivity].
    apply N.eqb_eq in E. exfalso. apply Hpost. left. exact E. }
  induction body as [|x r IH]; cbn [app after_last].
  - rewrite Hnone, N.eqb_refl. reflexivity.
  - rewrite IH. reflexivity.
Qed.

Lemma after_last_none (c : char) (s : str) :
  ~ In c s -> after_last c s = None.
Proof.
  induction s as [|x r IH]; intros H; [reflexivity|]. cbn [after_last].
  rewrite IH by (intros Hin; apply H; right; exact Hin).
  destruct (x =? c)%N eqn:E; [|reflexivity].
  apply N.eqb_eq in E. exfalso. apply H. left. exact E.
Qed.

Lemma search_from_here (r : Re.regex) (before_rev s rest : str)
      (caps : Re.captures) :
  Re.match_prefix r s = Some (rest, caps) ->
  Re.search_from r before_rev s
  = Some (rev before_rev, Re.matched_text s rest, rest, caps).
Proof. intros H. destruct s; cbn [Re.search_from]; rewrite H; reflexivity. Qed.

Lemma search_from_skip (r : Re.regex) (before_rev : str) (c : char) (s : str) :
  Re.match_prefix r (c :: s) = None ->
  Re.search_from r before_rev (c :: s) = Re.search_from r (c :: before_rev) s.
Proof. intros H. cbn [Re.search_from]. rewrite H. reflexivity. Qed.

Lemma matched_text_app (m rest : str) : Re.matched_text (m ++ rest) rest = m.
Proof.
  unfold Re.matched_text. rewrite length_app, Nat.add_sub.
  rewrite firstn_app, Nat.sub_diag, firstn_all. cbn [firstn].
  apply app_nil_r.
Qed.

(** The search for the braces skips a prefix without an opening brace. *)
Lemma search_braces (pre body post : str) :
  ~ In LBRACE pre -> ~ In RBRACE post ->
  forall before_rev,
    Re.search_from re_braces before_rev
                   (pre ++ LBRACE :: body ++ RBRACE :: post)
    = Some (rev before_rev ++ pre, LBRACE :: body ++ [RBRACE], post, []).
Proof.
  intros Hpre Hpost. induction pre as [|x r IH]; intros before_rev.
  - cbn [app].
    rewrite (@search_from_here re_braces before_rev _ post []).
    + rewrite app_nil_r.
      replace (LBRACE :: body ++ RBRACE :: post)
        with ((LBRACE :: body ++ [RBRACE]) ++ post)
        by (cbn [app]; rewrite <- app_assoc; reflexivity).
      rewrite matched_text_app. reflexivity.
    + rewrite match_prefix_braces, N.eqb_refl.
      rewrite (@after_last_app RBRACE body post Hpost). reflexivity.
  - cbn [app]. rewrite search_from_skip.
    + rewrite IH by (intros H; apply Hpre; right; exact H).
      cbn [rev]. rewrite <- app_assoc. reflexivity.
    + rewrite match_prefix_braces.
      assert (Hx : (x =? LBRACE)%N = false).
      { apply N.eqb_neq. intros ->. apply Hpre. left. reflexivity. }
      rewrite Hx. reflexivity.
Qed.

(** X4: [safe_json_parse] ignores what stands before the first opening
    brace and after the last closing brace: a JSON object wrapped in prose
    parses as the object alone. *)
Theorem safe_json_parse_ignores_surrounding_text
        (json_loads : str -> option pyval) (pre body post : str) :
  ~ In LBRACE pre -> ~ In RBRACE post ->
  safe_json_parse json_loads (pre ++ LBRACE :: body ++ RBRACE :: post)
  = safe_json_parse json_loads (LBRACE :: body ++ [RBRACE]).
Proof.
  intros Hpre Hpost. unfold safe_json_parse, Re.search.
  rewrite (@search_braces pre body post Hpre Hpost []).
  assert (H0 : ~ In LBRACE []) by (intros []).
  assert (H1 : ~ In RBRACE []) by (intros []).
  pose proof (@search_braces [] body [] H0 H1 []) as Hs. cbn [app] in Hs.
  rewrite Hs. reflexivity.
Qed.

(** X4, witness: an empty object between a greeting and a closing remark. *)
Lemma safe_json_parse_ignores_surrounding_text_witness :
  let json_loads :=
    fun t : str => if str_eqb t [LBRACE; RBRACE] then Some (PDict []) else None in
  safe_json_parse json_loads
    (py "Sure: " ++ LBRACE :: [] ++ RBRACE :: py " ok")
  = safe_json_parse json_loads (LBRACE :: [] ++ [RBRACE]).
Proof.
  cbv zeta.
  apply (@safe_json_parse_ignores_surrounding_text
           (fun t : str =>
              if str_eqb t [LBRACE; RBRACE] then Some (PDict []) else None)
           (py "Sure: ") [] (py " ok")).
  - vm_compute. intuition discriminate.
  - vm_compute. intuition discriminate.
Defined.

End SafeJsonFacts.


(** ** Trimming *)

Module StripFacts.

Lemma lstrip_idem (s : str) : lstrip (lstrip s) = lstrip s.
Proof.
  induction s as [|c r IH]; [reflexivity|]. cbn [lstrip].
  destruct (isspace c) eqn:E; [exact IH|]. cbn [lstrip]. rewrite E. reflexivity.
Qed.

Lemma lstrip_snoc (a : str) (c : char) :
  isspace c = false -> lstrip (a ++ [c]) = lstrip a ++ [c].
Proof.
  intros Hc. induction a as [|x a IH]; cbn [app lstrip].
  - rewrite Hc. reflexivity.
  - destruct (isspace x); [exact IH | reflexivity].
Qed.

Lemma lstrip_head (s : str) :
  lstrip s = [] \/ exists c r, lstrip s = c :: r /\ isspace c = false.
Proof.
  induction s as [|c r IH]; [left; reflexivity|]. cbn [lstrip].
  destruct (isspace c) eqn:E; [exact IH|]. right. eauto.
Qed.

Lemma lstrip_fixed (s : str) :
  (s = [] \/ exists c r, s = c :: r /\ isspace c = false) -> lstrip s = s.
Proof.
  intros [->|[c [r [-> Hc]]]]; [reflexivity|]. cbn [lstrip]. rewrite Hc.
  reflexivity.
Qed.

(** Trimming the right end keeps a left end that is no white space. *)
Lemma rstrip_head (u : str) :
  (u = [] \/ exists c r, u = c :: r /\ isspace c = false) ->
  rstrip u = [] \/ exists c r, rstrip u = c :: r /\ isspace c = false.
Proof.
  intros [->|[c [r [-> Hc]]]]; [left; reflexivity|]. right.
  unfold rstrip. cbn [rev]. rewrite (@lstrip_snoc (rev r) c Hc).
  rewrite rev_app_distr. cbn [rev app]. eauto.
Qed.

Lemma rstrip_idem (s : str) : rstrip (rstrip s) = rstrip s.
Proof.
  unfold rstrip. rewrite rev_involutive, lstrip_idem. reflexivity.
Qed.

(** [strip] returns a text that [strip] leaves alone. *)
Lemma strip_idem (s : str) : strip (strip s) = strip s.
Proof.
  unfold strip. rewrite (@lstrip_fixed (rstrip (lstrip s)) (@rstrip_head (lstrip s) (lstrip_head s))).
  apply rstrip_idem.
Qed.

Lemma strip_nil : strip [] = [].
Proof. reflexivity. Qed.

(** X5: the text [strip_reasoning] returns has no white space at either
    end: trimming it again changes nothing. *)
Theorem strip_reasoning_trimmed (text : str) :
  strip (strip_reasoning text) = strip_reasoning text.
Proof. unfold strip_reasoning. apply strip_idem. Qed.

End StripFacts.


(** ** remove_duplicate_sentences: what it keeps *)

Module DedupMore.
Import Dedup DedupFacts PyStrFacts Runs StripFacts.

#[local] Arguments same_as_prev : simpl never.
#[local] Arguments strip : simpl never.
#[local] Arguments nonblank : simpl never.

(** Joining the lines of a text gives the text back. *)
Lemma join_split (s : str) : join [NL] (split_lines s) = s.
Proof.
  induction s as [|c r IH]; [reflexivity|]. cbn [split_lines].
  destruct (c =? NL)%N eqn:E.
  - apply N.eqb_eq in E. subst c.
    pose proof (split_lines_nonempty r) as Hne.
    destruct (split_lines r) as [|l ls] eqn:Es; [contradiction|].
    change (join [NL] ([] :: l :: ls)) with ([] ++ [NL] ++ join [NL] (l :: ls)).
    rewrite IH. reflexivity.
  - pose proof (split_lines_nonempty r) as Hne.
    destruct (split_lines r) as [|l ls] eqn:Es; [contradiction|].
    destruct ls as [|l' ls'].
    + simpl in IH. simpl. rewrite IH. reflexivity.
    + change (join [NL] ((c :: l) :: l' :: ls'))
        with (c :: (l ++ [NL] ++ join [NL] (l' :: ls'))).
      change (join [NL] (l :: l' :: ls'))
        with (l ++ [NL] ++ join [NL] (l' :: ls')) in IH.
      rewrite IH. reflexivity.
Qed.

Lemma triple_free_tail (a : str) (rest : list str) :
  triple_free (a :: rest) = true -> triple_free rest = true.
Proof.
  cbn [triple_free]. destruct rest as [|b [|c r]]; try reflexivity.
  intros H. apply andb_true_iff in H. apply H.
Qed.

Lemma run_before_two (s : str) (seen : list str) :
  2 <= run_before s seen ->
  exists x1 x2 t,
    seen = x1 :: x2 :: t
    /\ nonblank x1 = true /\ strip x1 = s
    /\ nonblank x2 = true /\ strip x2 = s.
Proof.
  intros H. destruct seen as [|x1 [|x2 t]]; cbn [run_before] in H.
  - lia.
  - destruct (nonblank x1 && str_eqb (strip x1) s); simpl in H; lia.
  - destruct (nonblank x1 && str_eqb (strip x1) s) eqn:E1; [|lia].
    destruct (nonblank x2 && str_eqb (strip x2) s) eqn:E2; [|simpl in H; lia].
    apply andb_true_iff in E1. destruct E1 as [N1 S1].
    apply andb_true_iff in E2. destruct E2 as [N2 S2].
    apply str_eqb_eq in S1. apply str_eqb_eq in S2.
    exists x1, x2, t. repeat split; assumption.
Qed.

(** The last two lines read, in reading order. *)
Lemma collapse_runs_triple_free (lines : list str) :
  forall seen,
    triple_free (rev (firstn 2 seen) ++ lines) = true ->
    collapse_runs 2 seen lines = lines.
Proof.
  induction lines as [|l rest IH]; intros seen Htf; [reflexivity|].
  cbn [collapse_runs].
  assert (Hkeep : negb (nonblank l) || (run_before (strip l) seen <? 2) = true).
  { destruct (nonblank l) eqn:Hl; [|reflexivity]. cbn [negb orb].
    apply Nat.ltb_lt.
    destruct (Nat.lt_ge_cases (run_before (strip l) seen) 2) as [H|H];
      [exact H|exfalso].
    destruct (run_before_two _ _ H) as [x1 [x2 [t [-> [N1 [S1 [N2 S2]]]]]]].
    cbn [firstn rev app] in Htf. cbn [triple_free] in Htf.
    apply andb_true_iff in Htf. destruct Htf as [Htf _].
    apply negb_true_iff in Htf.
    unfold same_text in Htf.
    rewrite N1, N2, Hl, S1, S2, str_eqb_refl in Htf. discriminate. }
  rewrite Hkeep. f_equal. apply IH.
  destruct seen as [|x1 [|x2 t]]; cbn [firstn rev app] in *.
  - exact Htf.
  - exact Htf.
  - apply triple_free_tail in Htf. exact Htf.
Qed.

(** Lines with the same trimmed text are interchangeable for
    [triple_free]. *)
Lemma same_text_key (a a' b b' : str) :
  nonblank a = nonblank a' -> strip a = strip a' ->
  nonblank b = nonblank b' -> strip b = strip b' ->
  same_text a b = same_text a' b'.
Proof. intros Na Sa Nb Sb. unfold same_text. rewrite Na, Sa, Nb, Sb. reflexivity. Qed.

Lemma nonblank_strip (l : str) : nonblank (strip l) = nonblank l.
Proof. unfold nonblank. rewrite strip_idem. reflexivity. Qed.

Lemma triple_free_key (l1 l2 : list str) :
  Forall2 (fun a b => nonblank a = nonblank b /\ strip a = strip b) l1 l2 ->
  triple_free l1 = triple_free l2.
Proof.
  intros H. induction H as [|a a' r r' [Na Sa] Hr IH]; [reflexivity|].
  cbn [triple_free].
  destruct Hr as [|b b' t t' [Nb Sb] Ht]; [reflexivity|].
  destruct Ht as [|c c' u u' [Nc Sc] Hu]; [reflexivity|].
  rewrite IH.
  rewrite (@same_text_key a a' b b' Na Sa Nb Sb).
  rewrite (@same_text_key b b' c c' Nb Sb Nc Sc). reflexivity.
Qed.

Lemma key_refl (l : list str) :
  Forall2 (fun a b => nonblank a = nonblank b /\ strip a = strip b) l l.
Proof. induction l; constructor; auto. Qed.

Lemma triple_free_cons_diff (a b : str) (rest : list str) :
  same_text a b = false ->
  triple_free (a :: b :: rest) = triple_free (b :: rest).
Proof.
  intros H. cbn [triple_free]. destruct rest as [|c r]; [reflexivity|].
  rewrite H. reflexivity.
Qed.

Lemma triple_free_cons2_diff (a b c : str) (rest : list str) :
  same_text b c = false ->
  triple_free (a :: b :: c :: rest) = triple_free (b :: c :: rest).
Proof.
  intros H. change (triple_free (a :: b :: c :: rest))
    with (negb (same_text a b && same_text b c) && triple_free (b :: c :: rest)).
  rewrite H, andb_false_r. reflexivity.
Qed.

Lemma triple_free_cons_blank (a : str) (rest : list str) :
  nonblank a = false -> triple_free (a :: rest) = triple_free rest.
Proof.
  intros H.
  assert (Ha : forall x, same_text a x = false)
    by (intros x; unfold same_text; rewrite H; reflexivity).
  destruct rest as [|b [|c r]]; try reflexivity.
  change (triple_free (a :: b :: c :: r))
    with (negb (same_text a b && same_text b c) && triple_free (b :: c :: r)).
  rewrite Ha. reflexivity.
Qed.

Lemma go_triple_free (lines : list str) :
  forall prev cnt,
    (forall p, prev = Some p -> strip p = p /\ truthy p = true) ->
    triple_free (remembered prev cnt ++ go prev cnt lines) = true.
Proof.
  induction lines as [|line rest IH]; intros prev cnt Hwf.
  - cbn [go]. rewrite app_nil_r.
    destruct prev as [p|]; [destruct cnt|]; reflexivity.
  - cbn [go].
    change (truthy (strip line)) with (nonblank line).
    destruct (nonblank line) eqn:Hnb; cbn [negb].
    + (* a line that is not blank *)
      assert (Hs : forall p, Some (strip line) = Some p ->
                             strip p = p /\ truthy p = true).
      { intros p H. injection H as <-. split; [apply strip_idem | exact Hnb]. }
      assert (Hkey : nonblank line = nonblank (strip line)
                     /\ strip line = strip (strip line)).
      { split; [symmetry; apply nonblank_strip | symmetry; apply strip_idem]. }
      destruct (same_as_prev prev (strip line)) eqn:Hsame.
      * destruct (same_as_prev_true _ _ Hsame) as [-> _].
        destruct cnt as [|cnt]; cbn [Nat.leb].
        -- specialize (IH (Some (strip line)) 1 Hs).
           cbn [remembered app] in *. rewrite <- IH.
           apply triple_free_key.
           constructor; [auto|]. constructor; [exact Hkey | apply key_refl].
        -- apply (IH (Some (strip line)) (S (S cnt)) Hs).
      * specialize (IH (Some (strip line)) 0 Hs).
        cbn [remembered app] in IH.
        assert (Hline : triple_free (line :: go (Some (strip line)) 0 rest)
                        = true).
        { rewrite <- IH. apply triple_free_key.
          constructor; [exact Hkey | apply key_refl]. }
        destruct prev as [p|]; [|exact Hline].
        destruct (Hwf p eq_refl) as [Hp Htp].
        assert (Hdiff : same_text p line = false).
        { unfold same_text. unfold same_as_prev in Hsame. rewrite Htp in Hsame.
          cbn [andb] in Hsame. rewrite Hp, str_eqb_sym, Hsame.
          apply andb_false_r. }
        destruct cnt as [|cnt]; cbn [remembered app].
        -- rewrite (@triple_free_cons_diff p line _ Hdiff). exact Hline.
        -- rewrite (@triple_free_cons2_diff p p line _ Hdiff).
           rewrite (@triple_free_cons_diff p line _ Hdiff). exact Hline.
    + (* a blank line *)
      specialize (IH None 0 (fun p H => ltac:(discriminate H))).
      cbn [remembered app] in IH.
      assert (Hline : triple_free (line :: go None 0 rest) = true)
        by (rewrite (@triple_free_cons_blank line _ Hnb); exact IH).
      assert (Hb' : forall x, same_text x line = false)
        by (intros x; unfold same_text; rewrite Hnb, andb_false_r; reflexivity).
      destruct prev as [p|]; [|exact Hline].
      destruct cnt as [|cnt]; cbn [remembered app].
      * rewrite (@triple_free_cons_diff p line _ (Hb' p)). exact Hline.
      * rewrite (@triple_free_cons2_diff p p line _ (Hb' p)).
        rewrite (@triple_free_cons_diff p line _ (Hb' p)). exact Hline.
Qed.

Lemma dedup_output_triple_free (text : str) :
  triple_free (split_lines (remove_duplicate_sentences text)) = true.
Proof.
  unfold remove_duplicate_sentences. rewrite remove_duplicate_lines_go.
  rewrite split_join.
  - apply (go_triple_free (split_lines text) (prev := None) 0). discriminate.
  - apply go_first_kept, split_lines_nonempty.
  - pose proof (split_lines_no_newline text) as Hall.
    rewrite Forall_forall in *. intros l Hl. apply Hall.
    eapply go_incl; exact Hl.
Qed.

Lemma dedup_fixes_triple_free (text : str) :
  triple_free (split_lines text) = true ->
  remove_duplicate_sentences text = text.
Proof.
  intros H. unfold remove_duplicate_sentences.
  rewrite remove_duplicate_lines_go.
  rewrite (go_collapse_runs (split_lines text) None 0 []) by reflexivity.
  rewrite collapse_runs_triple_free by exact H.
  apply join_split.
Qed.

(** X6: whatever the input, the text [remove_duplicate_sentences] returns
    has no three consecutive lines that are non-blank and equal after
    trimming. *)
Theorem remove_duplicate_sentences_triple_free (text : str) :
  triple_free (split_lines (remove_duplicate_sentences text)) = true.
Proof. exact (dedup_output_triple_free text). Qed.

(** X7: [remove_duplicate_sentences] returns its input unchanged exactly
    when no line occurs three times in a row in it. *)
Theorem remove_duplicate_sentences_fixed_points (text : str) :
  remove_duplicate_sentences text = text
  <-> triple_free (split_lines text) = true.
Proof.
  split.
  - intros H. rewrite <- H at 1. apply dedup_output_triple_free.
  - apply dedup_fixes_triple_free.
Qed.

End DedupMore.


(** ** count_words over lines *)

Module WordsFacts.
Import Dedup DedupFacts PyStrFacts CountWordsFacts DedupMore.

#[local] Arguments strip : simpl never.

Lemma count_runs_sep (p : char -> bool) (c : char) (r : str) :
  p c = false ->
  forall (l : str) (inside : bool),
    count_runs p inside (l ++ c :: r)
    = count_runs p inside l + count_runs p false r.
Proof.
  intros Hc. induction l as [|x l IH]; intros inside; cbn [app count_runs].
  - rewrite Hc. reflexivity.
  - destruct (p x); rewrite IH; lia.
Qed.

Lemma count_words_nonneg (text : str) : (0 <= count_words text)%Z.
Proof. rewrite count_words_spec. lia. Qed.

Lemma count_words_sep (l r : str) :
  count_words (l ++ NL :: r) = (count_words l + count_words r)%Z.
Proof.
  rewrite !count_words_spec.
  rewrite filter_app, length_app. cbn [filter].
  change (is_hangul NL) with false. cbv iota.
  rewrite (@count_runs_sep is_latin NL r eq_refl l false). lia.
Qed.

(** The sum of the word counts of some lines. *)
Lemma count_words_join (l : str) (ls : list str) :
  count_words (join [NL] (l :: ls))
  = fold_right (fun x acc => (count_words x + acc)%Z) 0%Z (l :: ls).
Proof.
  revert l. induction ls as [|l' ls IH]; intros l.
  - cbn [join fold_right]. lia.
  - change (join [NL] (l :: l' :: ls)) with (l ++ NL :: join [NL] (l' :: ls)).
    rewrite count_words_sep, IH. reflexivity.
Qed.

Lemma go_word_sum (lines : list str) :
  forall prev cnt,
    (fold_right (fun x acc => (count_words x + acc)%Z) 0%Z (go prev cnt lines)
     <= fold_right (fun x acc => (count_words x + acc)%Z) 0%Z lines)%Z.
Proof.
  induction lines as [|line rest IH]; intros prev cnt; cbn [go fold_right].
  - lia.
  - pose proof (count_words_nonneg line) as Hn.
    destruct (negb (truthy (strip line))).
    + cbn [fold_right]. specialize (IH None 0). lia.
    + destruct (same_as_prev prev (strip line)).
      * destruct (2 <=? S cnt).
        -- specialize (IH prev (S cnt)). lia.
        -- cbn [fold_right]. specialize (IH (Some (strip line)) (S cnt)). lia.
      * cbn [fold_right]. specialize (IH (Some (strip line)) 0). lia.
Qed.

Lemma count_words_lines_sum (text : str) :
  count_words text
  = fold_right (fun x acc => (count_words x + acc)%Z) 0%Z (split_lines text).
Proof.
  rewrite <- (join_split text) at 1.
  pose proof (split_lines_nonempty text) as Hne.
  destruct (split_lines text) as [|l ls]; [contradiction|].
  apply count_words_join.
Qed.

(** X8: the word count of a text is the sum of the word counts of its
    lines: no word is counted across a line break. *)
Theorem count_words_by_lines (text : str) :
  count_words text
  = fold_right (fun x acc => (count_words x + acc)%Z) 0%Z (split_lines text).
Proof. exact (count_words_lines_sum text). Qed.

(** X9: collapsing repeated lines never adds words. *)
Theorem remove_duplicate_sentences_word_count (text : str) :
  (count_words (remove_duplicate_sentences text) <= count_words text)%Z.
Proof.
  rewrite (count_words_lines_sum text).
  unfold remove_duplicate_sentences. rewrite remove_duplicate_lines_go.
  pose proof (@go_first_kept (split_lines text) (split_lines_nonempty text))
    as Hne.
  destruct (go None 0 (split_lines text)) as [|l ls] eqn:Eg; [contradiction|].
  rewrite count_words_join, <- Eg. apply go_word_sum.
Qed.

End WordsFacts.


(** ** ChapterManager: lookup, ordering, windows *)

Module LedgerMore.
Import SliceFacts LedgerFacts.

Lemma get_chapter_found (chapters : ChapterManager) (n : Z) (ch : Chapter) :
  get_chapter chapters n = Some ch -> In ch chapters /\ number ch = n.
Proof.
  induction chapters as [|x r IH]; [discriminate|]. cbn [get_chapter].
  destruct (number x =? n)%Z eqn:E.
  - intros H. injection H as <-. apply Z.eqb_eq in E. split; [left; reflexivity | exact E].
  - intros H. destruct (IH H) as [Hin Hn]. split; [right; exact Hin | exact Hn].
Qed.

Lemma get_chapter_none (chapters : ChapterManager) (n : Z) :
  get_chapter chapters n = None
  <-> forall ch, In ch chapters -> number ch <> n.
Proof.
  induction chapters as [|x r IH]; cbn [get_chapter].
  - split; [intros _ ch [] | reflexivity].
  - destruct (number x =? n)%Z eqn:E.
    + apply Z.eqb_eq in E. split; [discriminate|].
      intros H. exfalso. apply (H x); [left; reflexivity | exact E].
    + apply Z.eqb_neq in E. rewrite IH. split.
      * intros H ch [<-|Hin]; [exact E | apply H; exact Hin].
      * intros H ch Hin. apply H. right. exact Hin.
Qed.

Lemma get_chapter_numbered_from (chapters : list Chapter) :
  forall k n,
    (forall i ch, nth_error chapters i = Some ch ->
                  number ch = (Z.of_nat i + k)%Z) ->
    (k <= n)%Z ->
    get_chapter chapters n = nth_error chapters (Z.to_nat (n - k)).
Proof.
  induction chapters as [|x r IH]; intros k n Hnum Hn.
  - rewrite nth_error_nil. reflexivity.
  - cbn [get_chapter].
    assert (Hx : number x = k) by (rewrite (Hnum 0%nat x eq_refl); lia).
    rewrite Hx. destruct (k =? n)%Z eqn:E.
    + apply Z.eqb_eq in E. subst n. rewrite Z.sub_diag. reflexivity.
    + apply Z.eqb_neq in E.
      rewrite (IH (k + 1)%Z n).
      * replace (Z.to_nat (n - k)) with (S (Z.to_nat (n - (k + 1)))) by lia.
        reflexivity.
      * intros i ch Hi. rewrite (Hnum (S i) ch Hi). lia.
      * lia.
Qed.

Lemma get_chapter_first (chapters : ChapterManager) (n : Z) (ch : Chapter) :
  get_chapter chapters n = Some ch
  <-> exists before after,
        chapters = before ++ ch :: after
        /\ number ch = n
        /\ forall c, In c before -> number c <> n.
Proof.
  split.
  - induction chapters as [|x r IH]; [discriminate|]. cbn [get_chapter].
    destruct (number x =? n)%Z eqn:E.
    + intros H. injection H as <-. apply Z.eqb_eq in E.
      exists [], r. split; [reflexivity|]. split; [exact E|]. intros c [].
    + intros H. destruct (IH H) as [before [after [-> [Hn Hb]]]].
      exists (x :: before), after. split; [reflexivity|].
      split; [exact Hn|]. intros c [<-|Hc].
      * apply Z.eqb_neq. exact E.
      * apply Hb. exact Hc.
  - intros [before [after [-> [Hn Hb]]]].
    induction before as [|x before IH]; cbn [app get_chapter].
    + rewrite Hn, Z.eqb_refl. reflexivity.
    + assert (E : (number x =? n)%Z = false).
      { apply Z.eqb_neq. apply Hb. left. reflexivity. }
      rewrite E. apply IH. intros c Hc. apply Hb. right. exact Hc.
Qed.

(** X10: [get_chapter] returns the first chapter of the ledger that has the
    number asked for: it returns [ch] exactly when [ch] stands in the
    ledger with that number and no chapter before it has it; it returns
    nothing exactly when no chapter has the number; in a ledger numbered
    from one it is the chapter at position [n]. *)
Theorem get_chapter_lookup (chapters : ChapterManager) (n : Z) :
  (forall ch,
      get_chapter chapters n = Some ch
      <-> exists before after,
            chapters = before ++ ch :: after
            /\ number ch = n
            /\ forall c, In c before -> number c <> n)
  /\ (get_chapter chapters n = None
      <-> forall ch, In ch chapters -> number ch <> n)
  /\ (numbered_from_one chapters -> (1 <= n)%Z ->
      get_chapter chapters n = nth_error chapters (Z.to_nat (n - 1))).
Proof.
  split; [intros ch; apply get_chapter_first|].
  split; [apply get_chapter_none|].
  intros Hnum Hn. apply get_chapter_numbered_from; assumption.
Qed.

(** X11: a chapter added with [add_chapter] is found under its number
    unless an earlier chapter already has that number, and no other lookup
    changes. *)
Theorem get_chapter_add_chapter
        (chapters : ChapterManager) (chapter : Chapter) (n : Z) :
  get_chapter (add_chapter chapters chapter) n
  = match get_chapter chapters n with
    | Some ch => Some ch
    | None => if (number chapter =? n)%Z then Some chapter else None
    end.
Proof.
  unfold add_chapter. induction chapters as [|x r IH]; cbn [app get_chapter].
  - reflexivity.
  - destruct (number x =? n)%Z; [reflexivity | exact IH].
Qed.

(** *** set_chapters *)

Lemma insert_by_number_perm (ch : Chapter) (l : list Chapter) :
  Permutation (ch :: l) (insert_by_number ch l).
Proof.
  induction l as [|x r IH]; cbn [insert_by_number]; [reflexivity|].
  destruct (number ch <=? number x)%Z; [reflexivity|].
  rewrite perm_swap. constructor. exact IH.
Qed.

Lemma sort_by_number_perm (l : list Chapter) :
  Permutation l (sort_by_number l).
Proof.
  induction l as [|x r IH]; cbn [sort_by_number]; [constructor|].
  rewrite <- insert_by_number_perm. constructor. exact IH.
Qed.

Lemma insert_by_number_sorted (ch : Chapter) (l : list Chapter) :
  StronglySorted by_number l ->
  StronglySorted by_number (insert_by_number ch l).
Proof.
  intros Hs. induction Hs as [|x r Hr IH Hx]; cbn [insert_by_number].
  - constructor; constructor.
  - destruct (number ch <=? number x)%Z eqn:E.
    + apply Z.leb_le in E. constructor.
      * constructor; assumption.
      * constructor; [exact E|].
        rewrite Forall_forall in *. intros y Hy.
        unfold by_number in *. specialize (Hx y Hy). lia.
    + apply Z.leb_gt in E. constructor; [exact IH|].
      rewrite Forall_forall in *. intros y Hy.
      apply (Permutation_in _ (Permutation_sym (insert_by_number_perm ch r)))
        in Hy.
      destruct Hy as [<-|Hy]; [unfold by_number; lia | apply Hx; exact Hy].
Qed.

Lemma sort_by_number_sorted (l : list Chapter) :
  StronglySorted by_number (sort_by_number l).
Proof.
  induction l as [|x r IH]; cbn [sort_by_number]; [constructor|].
  apply insert_by_number_sorted. exact IH.
Qed.

Lemma insert_by_number_stable (k : Z) (ch : Chapter) (l : list Chapter) :
  StronglySorted by_number l ->
  filter (fun c => (number c =? k)%Z) (insert_by_number ch l)
  = filter (fun c => (number c =? k)%Z) (ch :: l).
Proof.
  intros Hs. induction Hs as [|x r Hr IH Hx]; cbn [insert_by_number];
    [reflexivity|].
  destruct (number ch <=? number x)%Z eqn:E; [reflexivity|].
  apply Z.leb_gt in E.
  cbn [filter] in *. rewrite IH.
  destruct (number x =? k)%Z eqn:Ex; destruct (number ch =? k)%Z eqn:Ec;
    try reflexivity.
  apply Z.eqb_eq in Ex. apply Z.eqb_eq in Ec. lia.
Qed.

Lemma sort_by_number_stable (k : Z) (l : list Chapter) :
  filter (fun c => (number c =? k)%Z) (sort_by_number l)
  = filter (fun c => (number c =? k)%Z) l.
Proof.
  induction l as [|x r IH]; cbn [sort_by_number]; [reflexivity|].
  rewrite insert_by_number_stable by apply sort_by_number_sorted.
  cbn [filter]. rewrite IH. reflexivity.
Qed.

(** X12: [set_chapters] keeps exactly the chapters it is given, orders them
    by number, and leaves chapters of equal number in the order they came
    in. *)
Theorem set_chapters_sorts (chapters : list Chapter) :
  Permutation chapters (set_chapters chapters)
  /\ StronglySorted (fun a b => (number a <= number b)%Z)
                    (set_chapters chapters)
  /\ forall k,
       filter (fun c => (number c =? k)%Z) (set_chapters chapters)
       = filter (fun c => (number c =? k)%Z) chapters.
Proof.
  split; [apply sort_by_number_perm|].
  split; [apply sort_by_number_sorted | intros k; apply sort_by_number_stable].
Qed.

Lemma sorted_perm_unique (l1 : list Z) :
  forall l2,
    StronglySorted Z.le l1 -> StronglySorted Z.le l2 ->
    Permutation l1 l2 -> l1 = l2.
Proof.
  induction l1 as [|a r1 IH]; intros l2 H1 H2 Hp.
  - apply Permutation_nil in Hp. subst. reflexivity.
  - destruct l2 as [|b r2].
    + apply Permutation_sym, Permutation_nil in Hp. discriminate.
    + inversion H1 as [|? ? Hr1 Ha]; subst.
      inversion H2 as [|? ? Hr2 Hb]; subst.
      rewrite Forall_forall in Ha, Hb.
      assert (Hab : a = b).
      { assert (Hin1 : In a (b :: r2))
          by (apply (Permutation_in _ Hp); left; reflexivity).
        assert (Hin2 : In b (a :: r1))
          by (apply (Permutation_in _ (Permutation_sym Hp)); left; reflexivity).
        destruct Hin1 as [->|Hin1]; [reflexivity|].
        destruct Hin2 as [->|Hin2]; [reflexivity|].
        specialize (Ha b Hin2). specialize (Hb a Hin1). lia. }
      subst b. f_equal. apply IH; try assumption.
      eapply Permutation_cons_inv. exact Hp.
Qed.

Lemma numbers_from_sorted (n : nat) :
  forall first, StronglySorted Z.le (numbers_from first n)
                /\ Forall (fun x => (first <= x)%Z) (numbers_from first n).
Proof.
  induction n as [|k IH]; intros first; cbn [numbers_from].
  - split; constructor.
  - destruct (IH (first + 1)%Z) as [Hs Hf]. split.
    + constructor; [exact Hs|].
      rewrite Forall_forall in *. intros x Hx. specialize (Hf x Hx). lia.
    + constructor; [lia|].
      rewrite Forall_forall in *. intros x Hx. specialize (Hf x Hx). lia.
Qed.

Lemma numbers_from_nth (n : nat) :
  forall first i x,
    nth_error (numbers_from first n) i = Some x -> x = (Z.of_nat i + first)%Z.
Proof.
  induction n as [|k IH]; intros first i x H; cbn [numbers_from] in H.
  - rewrite nth_error_nil in H. discriminate.
  - destruct i as [|i]; cbn [nth_error] in H.
    + injection H as <-. lia.
    + apply IH in H. lia.
Qed.

Lemma map_sorted (l : list Chapter) :
  StronglySorted by_number l -> StronglySorted Z.le (map number l).
Proof.
  intros H. induction H as [|x r Hr IH Hx]; cbn [map]; constructor.
  - exact IH.
  - rewrite Forall_forall in *. intros y Hy. apply in_map_iff in Hy.
    destruct Hy as [c [<- Hc]]. apply Hx. exact Hc.
Qed.

(** X13: when the chapters handed to [set_chapters] carry the numbers
    1, 2, ..., N, each once and in any order, the ledger it builds is
    numbered from one: the chapter at position i is chapter number i. *)
Theorem set_chapters_numbered (chapters : list Chapter) :
  Permutation (map number chapters) (numbers_from 1 (length chapters)) ->
  numbered_from_one (set_chapters chapters).
Proof.
  intros Hp.
  assert (Hmap : map number (set_chapters chapters)
                 = numbers_from 1 (length chapters)).
  { apply sorted_perm_unique.
    - apply map_sorted, sort_by_number_sorted.
    - apply numbers_from_sorted.
    - rewrite <- Hp. apply Permutation_map, Permutation_sym.
      apply sort_by_number_perm. }
  intros i ch Hi.
  assert (Hn : nth_error (map number (set_chapters chapters)) i
               = Some (number ch))
    by (rewrite nth_error_map, Hi; reflexivity).
  rewrite Hmap in Hn. apply numbers_from_nth in Hn. exact Hn.
Qed.

(** X13, witness: chapters 3, 1, 2 handed over in that order. *)
Lemma set_chapters_numbered_witness :
  numbered_from_one
    (set_chapters
       [ mkChapter 3 (py "C") (py "o3") [] [] [] 0;
         mkChapter 1 (py "A") (py "o1") (py "first") [] [] 1;
         mkChapter 2 (py "B") (py "o2") (py "second") [] [] 1 ]).
Proof.
  apply (@set_chapters_numbered
           [ mkChapter 3 (py "C") (py "o3") [] [] [] 0;
             mkChapter 1 (py "A") (py "o1") (py "first") [] [] 1;
             mkChapter 2 (py "B") (py "o2") (py "second") [] [] 1 ]).
  exact (@Permutation_cons_app Z [1; 2]%Z [1; 2]%Z [] 3%Z
           (Permutation_refl [1; 2]%Z)).
Defined.

End LedgerMore.


(** ** ChapterManager: the windows and their bounds *)

Module WindowFacts.
Import SliceFacts LedgerFacts.

(** X14: for a chapter number of at least 1 and a count that is not
    negative, [get_recent_chapters] returns at most [count] chapters, all
    from the positions just before the current chapter; for chapter 1 it
    returns none; and in a ledger numbered from one their numbers lie
    between [n - count] and [n - 1]. *)
Theorem get_recent_chapters_window
        (chapters : ChapterManager) (n count : Z) :
  (1 <= n)%Z -> (0 <= count)%Z ->
  (Z.of_nat (length (get_recent_chapters chapters n count)) <= count)%Z
  /\ (n = 1%Z -> get_recent_chapters chapters n count = [])
  /\ (forall ch,
        In ch (get_recent_chapters chapters n count) ->
        exists i,
          nth_error chapters i = Some ch
          /\ (n - 1 - count <= Z.of_nat i < n - 1)%Z)
  /\ (numbered_from_one chapters ->
      forall ch,
        In ch (get_recent_chapters chapters n count) ->
        (n - count <= number ch <= n - 1)%Z).
Proof.
  intros Hn Hc. unfold get_recent_chapters.
  rewrite slice_nonneg by lia.
  assert (Hmem : forall ch,
            In ch (firstn (Z.to_nat (n - 1)
                           - Z.to_nat (Z.max 0 (n - 1 - count)))
                     (skipn (Z.to_nat (Z.max 0 (n - 1 - count))) chapters)) ->
            exists i,
              nth_error chapters i = Some ch
              /\ (n - 1 - count <= Z.of_nat i < n - 1)%Z).
  { intros ch Hin. apply in_firstn_skipn in Hin.
    destruct Hin as [i [Hi Hx]]. exists i. split; [exact Hx | lia]. }
  split; [|split; [|split]].
  - rewrite length_firstn. lia.
  - intros ->. reflexivity.
  - exact Hmem.
  - intros Hnum ch Hin. destruct (Hmem ch Hin) as [i [Hx Hi]].
    rewrite (Hnum i ch Hx). lia.
Qed.

(** X15: for chapter number 0 the end of the slice is -1, which Python
    counts from the end: [get_recent_chapters] then returns the whole
    ledger without its last chapter, whatever the count. *)
Theorem get_recent_chapters_at_zero (chapters : ChapterManager) (count : Z) :
  (0 <= count)%Z ->
  get_recent_chapters chapters 0 count = removelast chapters.
Proof.
  intros Hc. unfold get_recent_chapters, slice, norm_index.
  replace (Z.max 0 (0 - 1 - count)) with 0%Z by lia.
  change (0 <? 0)%Z with false. change (0 - 1 <? 0)%Z with true. cbv iota.
  rewrite Z.min_l by lia. cbn [Z.to_nat skipn].
  rewrite Z.sub_0_r.
  destruct chapters as [|x r]; [reflexivity|].
  replace (Z.to_nat (Z.max 0 (0 - 1 + Z.of_nat (length (x :: r)))))
    with (length r) by (cbn [length]; lia).
  clear. revert x. induction r as [|y r IH]; intros x; [reflexivity|].
  change (removelast (x :: y :: r)) with (x :: removelast (y :: r)).
  cbn [length firstn]. f_equal. apply (IH y).
Qed.

Lemma slice_from_tail {A} (s : list A) (m : Z) :
  (0 < m <= Z.of_nat (length s))%Z ->
  slice_from s (- m) = skipn (length s - Z.to_nat m) s
  /\ length (slice_from s (- m)) = Z.to_nat m.
Proof.
  intros Hm. unfold slice_from, norm_index.
  assert (E : (- m <? 0)%Z = true) by (apply Z.ltb_lt; lia).
  rewrite E.
  replace (Z.to_nat (Z.max 0 (- m + Z.of_nat (length s))))
    with (length s - Z.to_nat m) by lia.
  split; [reflexivity|]. rewrite length_skipn. lia.
Qed.

(** X16: a short-term memory text that is longer than a positive
    [max_chars] is replaced by a marker followed by exactly its last
    [max_chars] characters; a text within the limit is returned as it is;
    with [max_chars = 0] the marker is followed by the whole text, because
    the slice from -0 is the slice from 0. *)
Theorem stm_truncate_keeps_tail (full_stm : str) (max_chars : Z) :
  ((0 < max_chars < Z.of_nat (length full_stm))%Z ->
     stm_truncate full_stm max_chars
     = stm_truncation_header max_chars
       ++ skipn (length full_stm - Z.to_nat max_chars) full_stm
     /\ length (stm_truncate full_stm max_chars)
        = length (stm_truncation_header max_chars) + Z.to_nat max_chars)
  /\ ((Z.of_nat (length full_stm) <= max_chars)%Z ->
      stm_truncate full_stm max_chars = full_stm)
  /\ (full_stm <> [] ->
      stm_truncate full_stm 0 = stm_truncation_header 0 ++ full_stm).
Proof.
  unfold stm_truncate, stm_truncation_header. split; [|split].
  - intros Hm.
    assert (E : (Z.of_nat (length full_stm) >? max_chars)%Z = true)
      by (apply Z.gtb_lt; lia).
    rewrite E.
    destruct (@slice_from_tail _ full_stm max_chars) as [Hs Hl]; [lia|].
    split.
    + rewrite Hs, <- !app_assoc. reflexivity.
    + cbv zeta. rewrite !length_app, Hl. lia.
  - intros Hm.
    assert (E : (Z.of_nat (length full_stm) >? max_chars)%Z = false).
    { destruct (Z.of_nat (length full_stm) >? max_chars)%Z eqn:E';
        [apply Z.gtb_lt in E'; lia | reflexivity]. }
    rewrite E. reflexivity.
  - intros Hne.
    assert (E : (Z.of_nat (length full_stm) >? 0)%Z = true).
    { apply Z.gtb_lt. destruct full_stm; [contradiction | cbn [length]; lia]. }
    rewrite E. cbv zeta. change (- 0)%Z with 0%Z.
    unfold slice_from, norm_index. change (0 <? 0)%Z with false. cbv iota.
    rewrite Z.min_l by lia. cbn [Z.to_nat skipn].
    rewrite <- !app_assoc. reflexivity.
Qed.

Lemma stm_loop_filter (recent : list Chapter) :
  stm_loop (filter (fun ch => negb (no_content ch)) recent) = stm_loop recent.
Proof.
  induction recent as [|ch r IH]; [reflexivity|]. cbn [filter stm_loop].
  destruct (no_content ch) eqn:E; cbn [negb].
  - rewrite IH. destruct (stm_loop r). reflexivity.
  - cbn [stm_loop]. rewrite IH, E. reflexivity.
Qed.

(** X17: chapters without content (empty or white space only) leave no
    trace in the short-term memory: the text built from a window is the
    text built from its chapters that have content. *)
Theorem stm_ignores_chapters_without_content
        (recent : list Chapter) (max_chars : Z) :
  stm_of_window (filter (fun ch => negb (no_content ch)) recent) max_chars
  = stm_of_window recent max_chars.
Proof.
  unfold stm_of_window.
  destruct (filter (fun ch => negb (no_content ch)) recent) as [|c f] eqn:Ef.
  - destruct recent as [|x r]; [reflexivity|].
    rewrite <- (stm_loop_filter (x :: r)), Ef. reflexivity.
  - rewrite <- Ef, stm_loop_filter.
    destruct recent as [|x r]; [discriminate | reflexivity].
Qed.

(** X14, witness: the chapter before chapter 3 of the sample ledger. *)
Lemma get_recent_chapters_window_witness :
  (1 <= 3)%Z /\ (0 <= 1)%Z
  /\ (Z.of_nat (length (get_recent_chapters Examples.ledger 3 1)) <= 1)%Z.
Proof.
  split; [lia|]. split; [lia|].
  apply (proj1 (@get_recent_chapters_window Examples.ledger 3 1
                  ltac:(lia) ltac:(lia))).
Defined.

(** X15, witness: chapter number 0 on the sample ledger. *)
Lemma get_recent_chapters_at_zero_witness :
  get_recent_chapters Examples.ledger 0 2 = removelast Examples.ledger.
Proof. apply (@get_recent_chapters_at_zero Examples.ledger 2). lia. Defined.

End WindowFacts.


(** ** NovelMemoryManager: restoring, summarising, updating *)

Module MemoryMore.
Import PyStrFacts WindowFacts.

Lemma dict_get_set_same (d : list (str * pyval)) (k : str) (v default : pyval) :
  dict_get (dict_set d k v) k default = v.
Proof.
  induction d as [|[k0 x] r IH]; cbn [dict_set dict_get].
  - rewrite str_eqb_refl. reflexivity.
  - destruct (str_eqb k0 k) eqn:E; cbn [dict_get]; rewrite E;
      [reflexivity | exact IH].
Qed.

Lemma dict_get_set_other (d : list (str * pyval)) (k k' : str)
      (v default : pyval) :
  k' <> k ->
  dict_get (dict_set d k v) k' default = dict_get d k' default.
Proof.
  intros Hne.
  assert (Hk : str_eqb k k' = false).
  { destruct (str_eqb k k') eqn:E; [|reflexivity].
    apply str_eqb_eq in E. congruence. }
  induction d as [|[k0 x] r IH]; cbn [dict_set dict_get].
  - rewrite Hk. reflexivity.
  - destruct (str_eqb k0 k) eqn:E; cbn [dict_get].
    + apply str_eqb_eq in E. subst k0. rewrite Hk. reflexivity.
    + rewrite IH. reflexivity.
Qed.

Lemma dict_mem_set (d : list (str * pyval)) (k k' : str) (v : pyval) :
  dict_mem (dict_set d k v) k' = dict_mem d k' || str_eqb k k'.
Proof.
  induction d as [|[k0 x] r IH]; cbn [dict_set dict_mem].
  - rewrite orb_false_r. reflexivity.
  - destruct (str_eqb k0 k) eqn:E; cbn [dict_mem].
    + apply str_eqb_eq in E. subst k0.
      destruct (str_eqb k k'), (dict_mem r k'); reflexivity.
    + rewrite IH, orb_assoc. reflexivity.
Qed.

Lemma dict_mem_get (d : list (str * pyval)) (k : str) (a b : pyval) :
  dict_mem d k = true -> dict_get d k a = dict_get d k b.
Proof.
  induction d as [|[k0 x] r IH]; cbn [dict_mem dict_get]; [discriminate|].
  destruct (str_eqb k0 k); cbn [orb]; [reflexivity | exact IH].
Qed.

Lemma is_list_guard (v : pyval) :
  exists l, (if is_list v then v else PList []) = PList l.
Proof. destruct v; cbn [is_list]; eexists; reflexivity. Qed.

Lemma is_dict_guard (v : pyval) :
  exists d, (if is_dict v then v else PDict []) = PDict d.
Proof. destruct v; cbn [is_dict]; eexists; reflexivity. Qed.

Lemma container_guard (v : pyval) :
  is_dict (if is_dict v || is_list v then v else PDict [])
  || is_list (if is_dict v || is_list v then v else PDict []) = true.
Proof. destruct v; reflexivity. Qed.

(** X18: [from_dict] accepts every dict, whatever its keys and values: the
    restored [memory] and [world_events] are lists,
    [character_development] is a dict, [plot_threads] is a dict or a list,
    and [characters] is left alone; and the restored state is a fixed point
    of saving and restoring: [from_dict] of its [to_dict] gives the same
    four fields back. *)
Theorem from_dict_restores_containers
        (target : NovelMemoryManager) (data : list (str * pyval)) :
  exists restored,
    from_dict target (PDict data) = Ok restored
    /\ characters restored = characters target
    /\ (exists l, memory restored = Some (PList l))
    /\ (exists d, character_development restored = Some (PDict d))
    /\ (exists v, plot_threads restored = Some v
                  /\ is_dict v || is_list v = true)
    /\ (exists l, world_events restored = Some (PList l))
    /\ forall other,
         exists again,
           from_dict other (PDict (to_dict restored)) = Ok again
           /\ memory again = memory restored
           /\ character_development again = character_development restored
           /\ plot_threads again = plot_threads restored
           /\ world_events again = world_events restored.
Proof.
  unfold from_dict. cbv zeta.
  destruct (is_list_guard (dict_get data K_MEMORY (PList []))) as [m Hm].
  destruct (is_dict_guard (dict_get data K_CHARACTER_DEVELOPMENT (PDict [])))
    as [cd Hcd].
  pose proof (container_guard (dict_get data K_PLOT_THREADS (PDict [])))
    as Hpt.
  destruct (is_list_guard (dict_get data K_WORLD_EVENTS (PList [])))
    as [we Hwe].
  rewrite Hm, Hcd, Hwe.
  set (pt := if is_dict (dict_get data K_PLOT_THREADS (PDict []))
                || is_list (dict_get data K_PLOT_THREADS (PDict []))
             then dict_get data K_PLOT_THREADS (PDict []) else PDict [])
    in *.
  eexists. split; [reflexivity|]. cbn [characters memory character_development
                                        plot_threads world_events].
  split; [reflexivity|].
  split; [exists m; reflexivity|].
  split; [exists cd; reflexivity|].
  split; [exists pt; split; [reflexivity | exact Hpt]|].
  split; [exists we; reflexivity|].
  intros other.
  destruct (MemoryClaims.to_dict_lookup
              (mkMemory (characters target) (Some (PList m)) (Some (PDict cd))
                        (Some pt) (Some (PList we))))
    as [Em [Ecd [Ept Ewe]]].
  rewrite Em, Ecd, Ept, Ewe.
  cbn [attr_or memory character_development plot_threads world_events
       is_list is_dict].
  rewrite Hpt.
  eexists. split; [reflexivity|].
  cbn [memory character_development plot_threads world_events].
  repeat split; reflexivity.
Qed.

Section SummaryFacts.
Variable py_str : pyval -> str.

Lemma recent_memories_last_five (old recent : list pyval) :
  length recent = 5 -> recent_memories (old ++ recent) = recent.
Proof.
  intros H5. unfold recent_memories. rewrite length_app, H5.
  destruct old as [|x old].
  - reflexivity.
  - assert (E : (5 <? length (x :: old) + 5) = true)
      by (apply Nat.ltb_lt; cbn [length]; lia).
    rewrite E.
    destruct (@slice_from_tail _ ((x :: old) ++ recent) 5) as [Hs _].
    { rewrite length_app, H5. lia. }
    change (slice_from ((x :: old) ++ recent) (Z.neg 5))
      with (slice_from ((x :: old) ++ recent) (Z.opp (Z.pos 5))).
    rewrite Hs, length_app, H5.
    replace (length (x :: old) + 5 - Z.to_nat 5) with (length (x :: old))
      by lia.
    rewrite skipn_app, skipn_all, Nat.sub_diag. reflexivity.
Qed.

Lemma get_summary_of_list (mm : NovelMemoryManager) (l : list pyval)
      (max_length : Z) :
  memory mm = Some (PList l) -> l <> [] ->
  get_summary py_str mm max_length
  = match summary_parts py_str (recent_memories l) with
    | None => []
    | Some parts =>
        if (Z.of_nat (length (join [NL] parts)) >? max_length)%Z
        then slice_from (join [NL] parts) (- max_length)
        else join [NL] parts
    end.
Proof.
  intros Hm Hne. unfold get_summary. rewrite Hm.
  destruct l; [contradiction | reflexivity].
Qed.

(** X19: [get_summary] reads the last five log entries only: a log of more
    than five entries gives the same summary as its last five entries
    alone. *)
Theorem get_summary_reads_last_five
        (mm : NovelMemoryManager) (old recent : list pyval) (max_length : Z) :
  memory mm = Some (PList (old ++ recent)) ->
  length recent = 5 ->
  get_summary py_str mm max_length
  = get_summary py_str (with_memory mm (PList recent)) max_length.
Proof.
  intros Hm H5.
  assert (Hne : recent <> []) by (destruct recent; [discriminate H5 | discriminate]).
  rewrite (@get_summary_of_list mm (old ++ recent) max_length Hm).
  2:{ destruct old; [exact Hne | discriminate]. }
  rewrite (@get_summary_of_list (with_memory mm (PList recent)) recent
             max_length eq_refl Hne).
  rewrite recent_memories_last_five by exact H5.
  unfold recent_memories. rewrite H5. reflexivity.
Qed.

(** X20: for a positive [max_length], [get_summary] never returns more than
    [max_length] characters, whatever the store holds. *)
Theorem get_summary_bounded (mm : NovelMemoryManager) (max_length : Z) :
  (0 < max_length)%Z ->
  (Z.of_nat (length (get_summary py_str mm max_length)) <= max_length)%Z.
Proof.
  intros Hpos. unfold get_summary.
  assert (Htail : forall parts : list str,
            (Z.of_nat
               (length
                  (if (Z.of_nat (length (join [NL] parts)) >? max_length)%Z
                   then slice_from (join [NL] parts) (- max_length)
                   else join [NL] parts)) <= max_length)%Z).
  { intros parts.
    destruct (Z.of_nat (length (join [NL] parts)) >? max_length)%Z eqn:E.
    - apply Z.gtb_lt in E.
      destruct (@slice_from_tail _ (join [NL] parts) max_length) as [_ Hl];
        [lia|]. rewrite Hl. lia.
    - destruct (Z.gtb_spec (Z.of_nat (length (join [NL] parts))) max_length);
        [discriminate | lia]. }
  assert (Hlist : forall l : list pyval,
            (Z.of_nat
               (length
                  match l with
                  | [] => []
                  | _ :: _ =>
                      match summary_parts py_str (recent_memories l) with
                      | None => []
                      | Some parts =>
                          if (Z.of_nat (length (join [NL] parts))
                              >? max_length)%Z
                          then slice_from (join [NL] parts) (- max_length)
                          else join [NL] parts
                      end
                  end) <= max_length)%Z).
  { intros [|x l]; [cbn [length]; lia|].
    destruct (summary_parts py_str (recent_memories (x :: l)));
      [apply Htail | cbn [length]; lia]. }
  destruct (memory mm) as [[| | | | |l|d]|]; try (cbn [length]; lia).
  - apply (Hlist l).
  - apply (Hlist (map snd d)).
Qed.

End SummaryFacts.

(** *** update_from_summary *)

Lemma keys_mem_app (a b : list (pyval * pyval)) (k : pyval) :
  keys_mem (a ++ b) k = keys_mem a k || keys_mem b k.
Proof.
  induction a as [|[k0 v] r IH]; cbn [app keys_mem]; [reflexivity|].
  rewrite IH, orb_assoc. reflexivity.
Qed.




Lemma string_keyed_threads_of (d : list (str * pyval)) :
  string_keyed (threads_of d) = Some d.
Proof.
  induction d as [|[k0 v] r IH]; cbn [threads_of map string_keyed fst snd];
    [reflexivity|].
  unfold threads_of in IH. rewrite IH. reflexivity.
Qed.

Lemma string_keyed_snoc (t : list (pyval * pyval)) (d : list (str * pyval))
      (s : str) (v : pyval) :
  string_keyed t = Some d ->
  string_keyed (t ++ [(PStr s, v)]) = Some (d ++ [(s, v)]).
Proof.
  revert d. induction t as [|[k0 x] r IH]; intros d H; cbn [app string_keyed] in *.
  - injection H as <-. reflexivity.
  - destruct k0; try discriminate H.
    destruct (string_keyed r) as [d0|]; [|discriminate H].
    injection H as <-. rewrite (IH d0 eq_refl). reflexivity.
Qed.

Lemma string_keyed_mem (t : list (pyval * pyval)) (d : list (str * pyval))
      (s : str) :
  string_keyed t = Some d -> dict_mem d s = keys_mem t (PStr s).
Proof.
  revert d. induction t as [|[k0 x] r IH]; intros d H; cbn [string_keyed] in H.
  - injection H as <-. reflexivity.
  - destruct k0; try discriminate H.
    destruct (string_keyed r) as [d0|]; [|discriminate H].
    injection H as <-. cbn [dict_mem keys_mem key_eqb].
    rewrite (IH d0 eq_refl). reflexivity.
Qed.

Lemma threads_kept_refl (pt : list (pyval * pyval)) : threads_kept pt pt.
Proof. exists []. rewrite app_nil_r. split; [reflexivity | constructor]. Qed.

Lemma threads_kept_trans (a b c : list (pyval * pyval)) :
  threads_kept a b -> threads_kept b c -> threads_kept a c.
Proof.
  intros [ab [-> Hab]] [bc [-> Hbc]]. exists (ab ++ bc). split.
  - rewrite app_assoc. reflexivity.
  - apply Forall_app. split; [exact Hab|].
    rewrite Forall_forall in *. intros kv Hin.
    destruct (Hbc kv Hin) as [Hmem Hst]. split; [|exact Hst].
    rewrite keys_mem_app in Hmem. apply orb_false_iff in Hmem. apply Hmem.
Qed.

Lemma threads_kept_add (status : str) (pt : list (pyval * pyval))
      (info : pyval) :
  status = STATUS_ONGOING \/ status = STATUS_OCCURRED ->
  threads_kept pt (if keys_mem pt info then pt
                   else pt ++ [(info, PStr status)]).
Proof.
  intros Hst. destruct (keys_mem pt info) eqn:E; [apply threads_kept_refl|].
  exists [(info, PStr status)]. split; [reflexivity|].
  constructor; [|constructor]. cbn [fst snd]. split; [exact E|].
  destruct Hst as [-> | ->]; [left | right]; reflexivity.
Qed.

Lemma add_threads_kept (status : str) (items : list pyval) :
  status = STATUS_ONGOING \/ status = STATUS_OCCURRED ->
  forall pt pt',
    add_threads status pt items = Go pt'
    \/ add_threads status pt items = Caught pt' ->
    threads_kept pt pt'.
Proof.
  intros Hst. induction items as [|info r IH]; intros pt pt' H.
  - cbn [add_threads] in H. destruct H as [H | H]; [|discriminate].
    injection H as <-. apply threads_kept_refl.
  - cbn [add_threads] in H. destruct (truth info).
    + destruct (hashable info).
      * eapply threads_kept_trans; [|apply IH; exact H].
        apply threads_kept_add. exact Hst.
      * destruct H as [H | H]; [discriminate|].
        injection H as <-. apply threads_kept_refl.
    + apply IH. exact H.
Qed.

Lemma add_threads_strings (status : str) (items : list pyval) :
  forallb is_str items = true ->
  forall pt d,
    string_keyed pt = Some d ->
    exists pt' d',
      add_threads status pt items = Go pt'
      /\ string_keyed pt' = Some d'
      /\ (forall k, keys_mem pt k = true -> keys_mem pt' k = true)
      /\ forall s, In (PStr s) items -> s <> [] ->
                   keys_mem pt' (PStr s) = true.
Proof.
  induction items as [|info r IH]; intros Hall pt d Hd.
  - exists pt, d. split; [reflexivity|]. split; [exact Hd|].
    split; [auto|]. intros s [].
  - cbn [forallb] in Hall. apply andb_true_iff in Hall as [Hi Hr].
    destruct info as [| | | |s0|l|d0]; try discriminate Hi.
    cbn [add_threads truth hashable].
    destruct (truthy s0) eqn:Et.
    + assert (Hnext : exists d1,
                 string_keyed (if keys_mem pt (PStr s0) then pt
                               else pt ++ [(PStr s0, PStr status)])
                 = Some d1).
      { destruct (keys_mem pt (PStr s0)); [exists d; exact Hd|].
        eexists. apply string_keyed_snoc. exact Hd. }
      destruct Hnext as [d1 Hd1].
      destruct (IH Hr _ d1 Hd1) as [pt' [d' [Hgo [Hd' [Hmono Hin]]]]].
      assert (Hs0 : keys_mem (if keys_mem pt (PStr s0) then pt
                              else pt ++ [(PStr s0, PStr status)])
                             (PStr s0) = true).
      { destruct (keys_mem pt (PStr s0)) eqn:Es; [exact Es|].
        rewrite keys_mem_app. cbn [keys_mem key_eqb].
        rewrite str_eqb_refl, orb_true_r. reflexivity. }
      exists pt', d'. split; [exact Hgo|]. split; [exact Hd'|]. split.
      * intros k Hk. apply Hmono.
        destruct (keys_mem pt (PStr s0)); [exact Hk|].
        rewrite keys_mem_app, Hk. reflexivity.
      * intros s [Hs | Hs] Hne.
        -- injection Hs as ->. apply Hmono. exact Hs0.
        -- apply Hin; assumption.
    + destruct (IH Hr pt d Hd) as [pt' [d' [Hgo [Hd' [Hmono Hin]]]]].
      exists pt', d'. split; [exact Hgo|]. split; [exact Hd'|].
      split; [exact Hmono|].
      intros s [Hs | Hs] Hne.
      * injection Hs as ->. destruct s; [contradiction | discriminate Et].
      * apply Hin; assumption.
Qed.

Lemma apply_changes_appends (changes cd : list (str * pyval)) :
  forall name l,
    dict_get cd name PNone = PList l ->
    exists extra,
      dict_get (apply_changes cd changes) name PNone = PList (l ++ extra).
Proof.
  revert cd. induction changes as [|[char_name change] r IH];
    intros cd name l Hl.
  - exists []. rewrite app_nil_r. exact Hl.
  - cbn [apply_changes]. cbv zeta.
    set (cd1 := if dict_mem cd char_name then cd
                else dict_set cd char_name (PList [])).
    assert (H1 : dict_get cd1 name PNone = PList l).
    { unfold cd1. destruct (dict_mem cd char_name) eqn:Em; [exact Hl|].
      rewrite dict_get_set_other; [exact Hl|].
      intros ->.
      assert (Hmem : dict_mem cd char_name = true).
      { clear - Hl. induction cd as [|[k0 x] c IHc];
          cbn [dict_get dict_mem] in *; [discriminate|].
        destruct (str_eqb k0 char_name); [reflexivity | exact (IHc Hl)]. }
      congruence. }
    destruct (list_eq_dec N.eq_dec name char_name) as [-> | Hne].
    + rewrite H1. cbv iota.
      destruct (IH (dict_set cd1 char_name (PList (l ++ [change])))
                   char_name (l ++ [change])) as [extra He].
      { apply dict_get_set_same. }
      exists (change :: extra). rewrite He, <- app_assoc. reflexivity.
    + assert (H2 : forall v, dict_get (dict_set cd1 char_name v) name PNone
                             = PList l).
      { intros v. rewrite dict_get_set_other; assumption. }
      destruct (dict_get cd1 char_name PNone); apply IH; apply H2.
Qed.

Lemma apply_changes_records (changes cd : list (str * pyval)) :
  forall name change,
    In (name, change) changes ->
    exists l,
      dict_get (apply_changes cd changes) name PNone = PList l
      /\ In change l.
Proof.
  revert cd. induction changes as [|[char_name c] r IH];
    intros cd name change Hin; [destruct Hin|].
  destruct Hin as [Heq | Hin].
  - injection Heq as -> ->. cbn [apply_changes]. cbv zeta.
    set (cd1 := if dict_mem cd name then cd
                else dict_set cd name (PList [])).
    assert (Hnew : exists l,
               dict_get
                 match dict_get cd1 name PNone with
                 | PList l0 => dict_set cd1 name (PList (l0 ++ [change]))
                 | _ => dict_set cd1 name (PList [change])
                 end name PNone = PList (l ++ [change])).
    { destruct (dict_get cd1 name PNone) as [| | | | |l0|];
        try (exists []; apply dict_get_set_same).
      exists l0. apply dict_get_set_same. }
    destruct Hnew as [l0 Hl0].
    destruct (@apply_changes_appends r _ name (l0 ++ [change]) Hl0)
      as [extra He].
    exists ((l0 ++ [change]) ++ extra). split; [exact He|].
    apply in_or_app. left. apply in_or_app. right. left. reflexivity.
  - cbn [apply_changes]. apply IH. exact Hin.
Qed.

Lemma update_log_frame (mm : NovelMemoryManager) (summary_text : pyval) :
  forall mm1,
    update_log mm summary_text = Go mm1
    \/ update_log mm summary_text = Caught mm1 ->
    characters mm1 = characters mm
    /\ character_development mm1 = character_development mm
    /\ plot_threads mm1 = plot_threads mm
    /\ world_events mm1 = world_events mm
    /\ (memory mm1 = memory mm
        \/ exists l,
             memory mm = Some (PList l)
             /\ memory mm1 = Some (PList (l ++ [summary_text]))
             /\ truth summary_text = true).
Proof.
  unfold update_log. destruct (truth summary_text) eqn:Et.
  - destruct (memory mm) as [[| | | | |l|d]|] eqn:Em;
      intros mm1 [H | H];
      try discriminate H; injection H as <-;
      cbn [with_memory characters character_development plot_threads
           world_events memory];
      repeat (split; [reflexivity|]);
      try (left; exact Em).
    right. exists l. repeat split; reflexivity.
  - intros mm1 [H | H]; [|discriminate H].
    injection H as <-. repeat (split; [reflexivity|]). left. reflexivity.
Qed.

Lemma update_characters_frame (mm : NovelMemoryManager) (char_changes : pyval) :
  forall mm2,
    update_characters mm char_changes = Go mm2
    \/ update_characters mm char_changes = Caught mm2 ->
    characters mm2 = characters mm
    /\ memory mm2 = memory mm
    /\ plot_threads mm2 = plot_threads mm
    /\ world_events mm2 = world_events mm
    /\ (character_development mm2 = character_development mm
        \/ exists cd changes,
             character_development mm = Some (PDict cd)
             /\ char_changes = PDict changes
             /\ character_development mm2
                = Some (PDict (apply_changes cd changes))).
Proof.
  assert (Hsame : forall (f : flow NovelMemoryManager) mm2,
            f = Go mm \/ f = Caught mm ->
            f = Go mm2 \/ f = Caught mm2 ->
            characters mm2 = characters mm
            /\ memory mm2 = memory mm
            /\ plot_threads mm2 = plot_threads mm
            /\ world_events mm2 = world_events mm
            /\ (character_development mm2 = character_development mm
                \/ exists cd changes,
                     character_development mm = Some (PDict cd)
                     /\ char_changes = PDict changes
                     /\ character_development mm2
                        = Some (PDict (apply_changes cd changes)))).
  { intros f mm2 Hf H.
    assert (mm2 = mm).
    { destruct Hf as [-> | ->]; destruct H as [H | H];
        try discriminate H; injection H as <-; reflexivity. }
    subst mm2. repeat (split; [reflexivity|]). left. reflexivity. }
  unfold update_characters.
  destruct char_changes as [| | | | | |changes];
    try (intros mm2; apply Hsame; right; reflexivity).
  destruct changes as [|c changes];
    [intros mm2; apply Hsame; left; reflexivity|].
  destruct (character_development mm) as [[| | | | | |cd]|] eqn:Ecd;
    try (intros mm2; apply Hsame; right; reflexivity).
  intros mm2 [H | H]; [|discriminate H].
  injection H as <-.
  cbn [with_character_development characters character_development
       plot_threads world_events memory].
  repeat (split; [reflexivity|]). right.
  exists cd, (c :: changes). repeat split; reflexivity.
Qed.

Lemma update_threads_frame (mm : NovelMemoryManager)
      (new_info key_events : pyval) :
  forall u,
    update_threads mm new_info key_events = Go u
    \/ update_threads mm new_info key_events = Caught u ->
    base u = mm
    /\ match keyed u with
       | None => plot_threads mm = None
       | Some t =>
           exists pt0,
             plot_threads mm = Some pt0
             /\ threads_kept
                  match pt0 with PDict d => threads_of d | _ => [] end t
       end.
Proof.
  intros u. unfold update_threads.
  destruct (plot_threads mm) as [pt0|] eqn:Ept.
  2:{ intros [H | H]; [discriminate H|]. injection H as <-.
      split; reflexivity. }
  set (pt := match pt0 with PDict d => threads_of d | _ => [] end).
  assert (Hdone : forall t,
            threads_kept pt t ->
            forall u,
              u = mkUpdated mm (Some t) ->
              base u = mm
              /\ match keyed u with
                 | None => Some pt0 = None
                 | Some t' =>
                     exists pt1,
                       Some pt0 = Some pt1
                       /\ threads_kept
                            match pt1 with
                            | PDict d => threads_of d
                            | _ => []
                            end t'
                 end).
  { intros t Hk u0 ->. cbn [base keyed]. split; [reflexivity|].
    exists pt0. split; [reflexivity | exact Hk]. }
  destruct (iterate new_info) as [infos|].
  2:{ intros [H | H]; [discriminate H|]. injection H as <-.
      apply (Hdone pt); [apply threads_kept_refl | reflexivity]. }
  destruct (add_threads STATUS_ONGOING pt infos) as [pt1|pt1] eqn:E1.
  2:{ intros [H | H]; [discriminate H|]. injection H as <-.
      apply (Hdone pt1); [|reflexivity].
      apply (@add_threads_kept STATUS_ONGOING infos (or_introl eq_refl)).
      right. exact E1. }
  assert (H1 : threads_kept pt pt1).
  { apply (@add_threads_kept STATUS_ONGOING infos (or_introl eq_refl)).
    left. exact E1. }
  destruct (iterate key_events) as [events|].
  2:{ intros [H | H]; [discriminate H|]. injection H as <-.
      apply (Hdone pt1); [exact H1 | reflexivity]. }
  destruct (add_threads STATUS_OCCURRED pt1 events) as [pt2|pt2] eqn:E2.
  - intros [H | H]; [|discriminate H]. injection H as <-.
    apply (Hdone pt2); [|reflexivity].
    apply (threads_kept_trans H1).
    apply (@add_threads_kept STATUS_OCCURRED events (or_intror eq_refl)).
    left. exact E2.
  - intros [H | H]; [discriminate H|]. injection H as <-.
    apply (Hdone pt2); [|reflexivity].
    apply (threads_kept_trans H1).
    apply (@add_threads_kept STATUS_OCCURRED events (or_intror eq_refl)).
    right. exact E2.
Qed.

(** What one call of [update_from_summary] can do to each attribute. *)
Lemma update_from_summary_frame
      (mm : NovelMemoryManager) (summary_data : pyval) :
  let u := update_from_summary mm summary_data in
  characters (base u) = characters mm
  /\ world_events (base u) = world_events mm
  /\ plot_threads (base u) = plot_threads mm
  /\ (memory (base u) = memory mm
      \/ exists l entry,
           memory mm = Some (PList l)
           /\ memory (base u) = Some (PList (l ++ [entry]))
           /\ truth entry = true)
  /\ (character_development (base u) = character_development mm
      \/ exists cd changes,
           character_development mm = Some (PDict cd)
           /\ character_development (base u)
              = Some (PDict (apply_changes cd changes)))
  /\ (forall t, keyed u = Some t ->
                exists pt0,
                  plot_threads mm = Some pt0
                  /\ threads_kept
                       match pt0 with PDict d => threads_of d | _ => [] end
                       t).
Proof.
  cbv zeta.
  assert (Hkeep : forall mm1,
            characters mm1 = characters mm ->
            world_events mm1 = world_events mm ->
            plot_threads mm1 = plot_threads mm ->
            (memory mm1 = memory mm
             \/ exists l entry,
                  memory mm = Some (PList l)
                  /\ memory mm1 = Some (PList (l ++ [entry]))
                  /\ truth entry = true) ->
            (character_development mm1 = character_development mm
             \/ exists cd changes,
                  character_development mm = Some (PDict cd)
                  /\ character_development mm1
                     = Some (PDict (apply_changes cd changes))) ->
            characters (base (mkUpdated mm1 None)) = characters mm
            /\ world_events (base (mkUpdated mm1 None)) = world_events mm
            /\ plot_threads (base (mkUpdated mm1 None)) = plot_threads mm
            /\ (memory (base (mkUpdated mm1 None)) = memory mm
                \/ exists l entry,
                     memory mm = Some (PList l)
                     /\ memory (base (mkUpdated mm1 None))
                        = Some (PList (l ++ [entry]))
                     /\ truth entry = true)
            /\ (character_development (base (mkUpdated mm1 None))
                = character_development mm
                \/ exists cd changes,
                     character_development mm = Some (PDict cd)
                     /\ character_development (base (mkUpdated mm1 None))
                        = Some (PDict (apply_changes cd changes)))
            /\ (forall t, keyed (mkUpdated mm1 None) = Some t ->
                          exists pt0,
                            plot_threads mm = Some pt0
                            /\ threads_kept
                                 match pt0 with
                                 | PDict d => threads_of d
                                 | _ => []
                                 end t)).
  { intros mm1 Hc Hwe Hpt Hm Hcd. cbn [base keyed].
    repeat (split; [assumption|]). intros t H. discriminate H. }
  destruct summary_data as [| | | | | |sd];
    try (apply Hkeep; try reflexivity; left; reflexivity).
  unfold update_from_summary.
  pose proof (@update_log_frame mm (dict_get sd K_SUMMARY (PStr []))) as F1.
  assert (Hmem : forall mm1,
            memory mm1 = memory mm
            \/ (exists l,
                  memory mm = Some (PList l)
                  /\ memory mm1
                     = Some (PList (l ++ [dict_get sd K_SUMMARY (PStr [])]))
                  /\ truth (dict_get sd K_SUMMARY (PStr [])) = true) ->
            memory mm1 = memory mm
            \/ exists l entry,
                 memory mm = Some (PList l)
                 /\ memory mm1 = Some (PList (l ++ [entry]))
                 /\ truth entry = true).
  { intros mm1 [Hm | [l Hm]]; [left; exact Hm | right].
    exists l, (dict_get sd K_SUMMARY (PStr [])). exact Hm. }
  destruct (update_log mm (dict_get sd K_SUMMARY (PStr [])))
    as [mm1|mm1] eqn:E1.
  2:{ destruct (F1 mm1 (or_intror eq_refl)) as [Hc [Hcd [Hpt [Hwe Hm]]]].
      apply Hkeep; try assumption; [apply Hmem; exact Hm | left; exact Hcd]. }
  destruct (F1 mm1 (or_introl eq_refl)) as [Hc1 [Hcd1 [Hpt1 [Hwe1 Hm1]]]].
  apply Hmem in Hm1.
  pose proof (@update_characters_frame mm1
                (dict_get sd K_CHARACTER_CHANGES (PDict []))) as F2.
  assert (Hchar : forall mm2,
            character_development mm2 = character_development mm1
            \/ (exists cd changes,
                  character_development mm1 = Some (PDict cd)
                  /\ dict_get sd K_CHARACTER_CHANGES (PDict [])
                     = PDict changes
                  /\ character_development mm2
                     = Some (PDict (apply_changes cd changes))) ->
            character_development mm2 = character_development mm
            \/ exists cd changes,
                 character_development mm = Some (PDict cd)
                 /\ character_development mm2
                    = Some (PDict (apply_changes cd changes))).
  { intros mm2 [Hx | [cd [changes [Hx [_ Hy]]]]].
    - left. congruence.
    - right. exists cd, changes. split; congruence. }
  destruct (update_characters mm1
              (dict_get sd K_CHARACTER_CHANGES (PDict [])))
    as [mm2|mm2] eqn:E2.
  2:{ destruct (F2 mm2 (or_intror eq_refl)) as [Hc [Hm [Hpt [Hwe Hcd]]]].
      apply Hkeep; try congruence.
      - rewrite Hm. exact Hm1.
      - apply Hchar. exact Hcd. }
  destruct (F2 mm2 (or_introl eq_refl)) as [Hc2 [Hm2 [Hpt2 [Hwe2 Hcd2]]]].
  apply Hchar in Hcd2.
  pose proof (@update_threads_frame mm2
                (dict_get sd K_NEW_INFO (PList []))
                (dict_get sd K_KEY_EVENTS (PList []))) as F3.
  assert (Hres : forall u,
            update_threads mm2 (dict_get sd K_NEW_INFO (PList []))
              (dict_get sd K_KEY_EVENTS (PList [])) = Go u
            \/ update_threads mm2 (dict_get sd K_NEW_INFO (PList []))
                 (dict_get sd K_KEY_EVENTS (PList [])) = Caught u ->
            characters (base u) = characters mm
            /\ world_events (base u) = world_events mm
            /\ plot_threads (base u) = plot_threads mm
            /\ (memory (base u) = memory mm
                \/ exists l entry,
                     memory mm = Some (PList l)
                     /\ memory (base u) = Some (PList (l ++ [entry]))
                     /\ truth entry = true)
            /\ (character_development (base u) = character_development mm
                \/ exists cd changes,
                     character_development mm = Some (PDict cd)
                     /\ character_development (base u)
                        = Some (PDict (apply_changes cd changes)))
            /\ (forall t, keyed u = Some t ->
                          exists pt0,
                            plot_threads mm = Some pt0
                            /\ threads_kept
                                 match pt0 with
                                 | PDict d => threads_of d
                                 | _ => []
                                 end t)).
  { intros u Hu. destruct (F3 u Hu) as [Hb Hk]. rewrite Hb.
    split; [congruence|]. split; [congruence|]. split; [congruence|].
    split; [rewrite Hm2; exact Hm1|]. split; [exact Hcd2|].
    intros t Ht. rewrite Ht in Hk. destruct Hk as [pt0 [Hp Hk]].
    exists pt0. split; [congruence | exact Hk]. }
  destruct (update_threads mm2 (dict_get sd K_NEW_INFO (PList []))
              (dict_get sd K_KEY_EVENTS (PList []))) as [u|u];
    apply Hres; [left | right]; reflexivity.
Qed.

(** X21: [update_from_summary] only ever appends to the log: after any
    call, whatever the summary data, the log is what it was, or what it
    was with one entry that counts as true added at its end; and the call
    leaves [characters] and [world_events] alone. *)
Theorem update_from_summary_log_append_only
        (mm : NovelMemoryManager) (summary_data : pyval) :
  let u := update_from_summary mm summary_data in
  characters (base u) = characters mm
  /\ world_events (base u) = world_events mm
  /\ (memory (base u) = memory mm
      \/ exists l entry,
           memory mm = Some (PList l)
           /\ memory (base u) = Some (PList (l ++ [entry]))
           /\ truth entry = true).
Proof.
  destruct (update_from_summary_frame mm summary_data)
    as [Hc [Hwe [_ [Hm _]]]].
  cbv zeta. repeat split; assumption.
Qed.

(** X22: [update_from_summary] never drops a character note: after any
    call, every list of notes that the dict [character_development] held
    for a name is a prefix of the list held for that name. *)
Theorem update_from_summary_keeps_character_notes
        (mm : NovelMemoryManager) (summary_data : pyval)
        (cd : list (str * pyval)) :
  character_development mm = Some (PDict cd) ->
  exists cd',
    character_development (base (update_from_summary mm summary_data))
    = Some (PDict cd')
    /\ forall name l,
         dict_get cd name PNone = PList l ->
         exists extra, dict_get cd' name PNone = PList (l ++ extra).
Proof.
  intros Hcd.
  destruct (update_from_summary_frame mm summary_data)
    as [_ [_ [_ [_ [Hx _]]]]].
  destruct Hx as [Hx | [cd0 [changes [Hx Hy]]]].
  - exists cd. split; [congruence|]. intros name l Hl.
    exists []. rewrite app_nil_r. exact Hl.
  - assert (cd0 = cd) by congruence. subst cd0.
    exists (apply_changes cd changes). split; [exact Hy|].
    intros name l Hl. apply apply_changes_appends. exact Hl.
Qed.


(** X24: on a store with the declared container types, a summary record of
    the shape the summarizer asks for is taken in completely: the call
    leaves a store whose plot threads all have string keys and that keeps
    the declared types, a non-empty summary text is the new last log
    entry, every character change is among the notes of its character,
    and every non-empty string of [new_info] and [key_events] is a plot
    thread. *)
Theorem update_from_summary_records
        (mm : NovelMemoryManager) (sd : list (str * pyval)) :
  declared_types mm ->
  well_shaped_summary (PDict sd) ->
  exists mm',
    as_manager (update_from_summary mm (PDict sd)) = Some mm'
    /\ declared_types mm'
    /\ (forall l,
          memory mm = Some (PList l) ->
          memory mm'
          = Some (PList (if truth (dict_get sd K_SUMMARY (PStr []))
                         then l ++ [dict_get sd K_SUMMARY (PStr [])]
                         else l)))
    /\ (forall changes name change,
          dict_get sd K_CHARACTER_CHANGES (PDict []) = PDict changes ->
          In (name, change) changes ->
          exists cd' notes,
            character_development mm' = Some (PDict cd')
            /\ dict_get cd' name PNone = PList notes
            /\ In change notes)
    /\ (forall items s,
          dict_get sd K_NEW_INFO (PList []) = PList items
          \/ dict_get sd K_KEY_EVENTS (PList []) = PList items ->
          In (PStr s) items -> s <> [] ->
          exists pt',
            plot_threads mm' = Some (PDict pt')
            /\ dict_mem pt' s = true).
Proof.
  intros [[l Hm] [[cd Hcd] [pt Hpt]]] [sd0 [Esd [Hs [Hc [Hi He]]]]].
  injection Esd as <-.
  destruct Hi as [infos [Ei Hinfos]]. destruct He as [events [Ee Hevents]].
  unfold update_from_summary.
  set (st := dict_get sd K_SUMMARY (PStr [])) in *.
  assert (E1 : exists mm1,
             update_log mm st = Go mm1
             /\ memory mm1 = Some (PList (if truth st then l ++ [st] else l))
             /\ character_development mm1 = Some (PDict cd)
             /\ plot_threads mm1 = Some (PDict pt)).
  { unfold update_log. rewrite Hm. destruct (truth st).
    - eexists. split; [reflexivity|].
      cbn [with_memory memory character_development plot_threads].
      repeat split; assumption.
    - exists mm. repeat split; assumption. }
  destruct E1 as [mm1 [E1 [Hm1 [Hcd1 Hpt1]]]]. rewrite E1.
  destruct (dict_get sd K_CHARACTER_CHANGES (PDict []))
    as [| | | | | |changes] eqn:Ec; try discriminate Hc.
  assert (E2 : exists mm2,
             update_characters mm1 (PDict changes) = Go mm2
             /\ memory mm2 = memory mm1
             /\ character_development mm2
                = Some (PDict (apply_changes cd changes))
             /\ plot_threads mm2 = Some (PDict pt)).
  { unfold update_characters. rewrite Hcd1. destruct changes as [|c r].
    - exists mm1. repeat split; assumption.
    - eexists. split; [reflexivity|].
      cbn [with_character_development memory character_development
           plot_threads]. repeat split; assumption. }
  destruct E2 as [mm2 [E2 [Hm2 [Hcd2 Hpt2]]]]. rewrite E2.
  destruct (@add_threads_strings STATUS_ONGOING infos Hinfos
              (threads_of pt) pt (string_keyed_threads_of pt))
    as [pt1 [d1 [G1 [K1 [Mono1 In1]]]]].
  destruct (@add_threads_strings STATUS_OCCURRED events Hevents pt1 d1 K1)
    as [pt2 [d2 [G2 [K2 [Mono2 In2]]]]].
  assert (E3 : update_threads mm2 (dict_get sd K_NEW_INFO (PList []))
                 (dict_get sd K_KEY_EVENTS (PList []))
               = Go (mkUpdated mm2 (Some pt2))).
  { unfold update_threads. rewrite Hpt2, Ei, Ee. cbn [iterate].
    rewrite G1, G2. reflexivity. }
  rewrite E3. unfold as_manager. cbn [keyed base]. rewrite K2.
  exists (with_plot_threads mm2 (PDict d2)).
  split; [reflexivity|].
  assert (Fm : memory (with_plot_threads mm2 (PDict d2))
               = Some (PList (if truth st then l ++ [st] else l))).
  { cbn [with_plot_threads memory]. rewrite Hm2. exact Hm1. }
  assert (Fcd : character_development (with_plot_threads mm2 (PDict d2))
                = Some (PDict (apply_changes cd changes))).
  { cbn [with_plot_threads character_development]. exact Hcd2. }
  assert (Fpt : plot_threads (with_plot_threads mm2 (PDict d2))
                = Some (PDict d2)) by reflexivity.
  split.
  { unfold declared_types. rewrite Fm, Fcd, Fpt.
    repeat split; eexists; reflexivity. }
  split.
  { intros l0 Hl0. rewrite Fm.
    assert (l0 = l) by congruence. subst l0. reflexivity. }
  split.
  { intros changes0 name change Hch Hin. injection Hch as <-.
    destruct (@apply_changes_records changes cd name change Hin)
      as [notes [Hn Hin']].
    exists (apply_changes cd changes), notes.
    split; [exact Fcd | split; assumption]. }
  intros items s Hitems Hin Hne. exists d2. split; [exact Fpt|].
  rewrite (@string_keyed_mem pt2 d2 s K2).
  destruct Hitems as [Hx | Hx].
  - rewrite Ei in Hx. injection Hx as <-.
    apply Mono2. apply In1; assumption.
  - rewrite Ee in Hx. injection Hx as <-. apply In2; assumption.
Qed.

(** X22, witness: the notes of the sample store after the sample summary. *)
Lemma update_from_summary_keeps_character_notes_witness :
  exists cd',
    character_development
      (base (update_from_summary Examples.store Examples.numbered_record))
    = Some (PDict cd')
    /\ forall name l,
         dict_get [(py "Mina", PList [PStr (py "grows")])] name PNone
         = PList l ->
         exists extra, dict_get cd' name PNone = PList (l ++ extra).
Proof.
  exact (@update_from_summary_keeps_character_notes
           Examples.store Examples.numbered_record
           [(py "Mina", PList [PStr (py "grows")])] eq_refl).
Defined.


(** X24, witness: the sample store and the sample summary record. *)
Lemma update_from_summary_records_witness :
  declared_types Examples.store
  /\ well_shaped_summary Examples.summary_record
  /\ exists mm',
       as_manager (update_from_summary Examples.store Examples.summary_record)
       = Some mm'
       /\ declared_types mm'.
Proof.
  assert (Hd : declared_types Examples.store)
    by (repeat split; eexists; reflexivity).
  assert (Hw : well_shaped_summary Examples.summary_record).
  { eexists. split; [reflexivity|]. split; [reflexivity|].
    split; [reflexivity|]. split; eexists; split; reflexivity. }
  split; [exact Hd|]. split; [exact Hw|].
  destruct (@update_from_summary_records Examples.store _ Hd Hw)
    as [mm' [H1 [H2 _]]].
  exists mm'. split; [exact H1 | exact H2].
Defined.

End MemoryMore.


(** ** LongTermMemoryOptimizer: what an optimization can do to the store *)

Module OptimizerMore.
Import SliceFacts LedgerFacts MemoryMore.

Section WithGateway.
Variable json_loads : str -> option pyval.
Variables max_retries rate_limit_max_retries : nat.
Variable generate : nat -> outcome str.

Let optimize_memory :=
  optimize_memory json_loads max_retries rate_limit_max_retries generate.
Let optimize_with_llm :=
  _optimize_with_llm json_loads max_retries rate_limit_max_retries generate.

(** The store [from_dict] makes of the snapshot with its two optimized
    fields. *)
Lemma optimized_dict_restored (mm : NovelMemoryManager) (v1 v2 : pyval) :
  from_dict mm
    (PDict (dict_set (dict_set (to_dict mm) K_CHARACTER_DEVELOPMENT v1)
                     K_PLOT_THREADS v2))
  = Ok (mkMemory (characters mm)
          (Some (if is_list (attr_or (memory mm) (PList []))
                 then attr_or (memory mm) (PList []) else PList []))
          (Some (if is_dict v1 then v1 else PDict []))
          (Some (if is_dict v2 || is_list v2 then v2 else PDict []))
          (Some (if is_list (attr_or (world_events mm) (PList []))
                 then attr_or (world_events mm) (PList []) else PList []))).
Proof. reflexivity. Qed.

(** X25: an optimization never touches the log, the world events or the
    character sheet: a [memory] and a [world_events] that are lists come
    out as they went in; and either the store is unchanged, or
    [character_development] is a dict and [plot_threads] a dict or a
    list. *)
Theorem optimize_memory_keeps_log (mm : NovelMemoryManager) (calls : nat) :
  let mm' := fst (fst (optimize_memory mm calls)) in
  characters mm' = characters mm
  /\ (forall l, memory mm = Some (PList l) -> memory mm' = Some (PList l))
  /\ (forall l, world_events mm = Some (PList l) ->
                world_events mm' = Some (PList l))
  /\ (mm' = mm
      \/ (exists d, character_development mm' = Some (PDict d))
         /\ exists v, plot_threads mm' = Some v
                      /\ is_dict v || is_list v = true).
Proof.
  cbv zeta.
  assert (Hsame : characters mm = characters mm
                  /\ (forall l, memory mm = Some (PList l) ->
                                memory mm = Some (PList l))
                  /\ (forall l, world_events mm = Some (PList l) ->
                                world_events mm = Some (PList l))
                  /\ (mm = mm
                      \/ (exists d, character_development mm = Some (PDict d))
                         /\ exists v, plot_threads mm = Some v
                                      /\ is_dict v || is_list v = true)).
  { repeat (split; [auto|]). left. reflexivity. }
  unfold optimize_memory, Optimizer.optimize_memory.
  destruct (sum_len_values _) as [n|e]; [|exact Hsame].
  destruct (py_len _) as [m|e]; [|exact Hsame].
  destruct (_optimize_with_llm _ _ _ _ _ calls) as [[[v|]|e] k];
    [|exact Hsame|exact Hsame].
  destruct v as [| | | | | |od];
    try (destruct (truth _); exact Hsame).
  destruct od as [|entry od]; [exact Hsame|].
  cbv zeta. change (truth (PDict (entry :: od))) with true. cbv iota.
  rewrite optimized_dict_restored.
  cbn [fst snd characters memory world_events character_development
       plot_threads].
  split; [reflexivity|].
  split; [intros l Hl; rewrite Hl; reflexivity|].
  split; [intros l Hl; rewrite Hl; reflexivity|].
  right. split.
  - destruct (is_dict_guard
                (dict_get (entry :: od) K_CHARACTER_DEVELOPMENT
                   (dict_get (to_dict mm) K_CHARACTER_DEVELOPMENT (PDict []))))
      as [d Hd].
    exists d. rewrite Hd. reflexivity.
  - eexists. split; [reflexivity|]. apply container_guard.
Qed.

Lemma sum_len_lists (vs : list pyval) :
  forallb is_list vs = true -> exists n, sum_len vs = Ok n.
Proof.
  induction vs as [|v r IH]; intros H.
  - exists 0%Z. reflexivity.
  - cbn [forallb] in H. apply andb_true_iff in H as [Hv Hr].
    destruct (IH Hr) as [n Hn]. destruct v; try discriminate Hv.
    cbn [sum_len py_len Py.bind]. rewrite Hn. cbn [Py.bind].
    eexists. reflexivity.
Qed.

(** X26: [optimize_memory] writes the store before it computes its
    statistics.  When the optimizer answers with a mapping whose
    [character_development] is no dict, the store (whose notes were lists
    under a dict) ends with an empty [character_development], and the call
    raises instead of returning. *)
Theorem optimize_memory_mistyped_character_development
        (mm : NovelMemoryManager) (calls calls' : nat)
        (cd pt od : list (str * pyval)) :
  character_development mm = Some (PDict cd) ->
  forallb is_list (map snd cd) = true ->
  plot_threads mm = Some (PDict pt) ->
  optimize_with_llm (PDict cd) calls = (Ok (Some (PDict od)), calls') ->
  is_dict (dict_get od K_CHARACTER_DEVELOPMENT (PDict [])) = false ->
  character_development (fst (fst (optimize_memory mm calls)))
  = Some (PDict [])
  /\ (exists e, snd (fst (optimize_memory mm calls)) = Raise e)
  /\ snd (optimize_memory mm calls) = calls'.
Proof.
  intros Hcd Hlists Hpt Hllm Hbad.
  unfold optimize_memory, Optimizer.optimize_memory.
  unfold optimize_with_llm in Hllm. cbv zeta.
  destruct (MemoryClaims.to_dict_lookup mm) as [_ [Ecd [Ept _]]].
  rewrite Ecd, Ept, Hcd, Hpt. cbn [attr_or sum_len_values py_len].
  destruct (sum_len_lists _ Hlists) as [n Hn]. rewrite Hn, Hllm.
  assert (Hne : od <> []) by (intros ->; discriminate Hbad).
  destruct od as [|entry od]; [contradiction|].
  change (truth (PDict (entry :: od))) with true. cbv iota.
  rewrite optimized_dict_restored.
  assert (Hmem : dict_mem (entry :: od) K_CHARACTER_DEVELOPMENT = true).
  { clear - Hbad. induction (entry :: od) as [|[k0 x] r IH];
      cbn [dict_get dict_mem] in *; [discriminate Hbad|].
    destruct (str_eqb k0 K_CHARACTER_DEVELOPMENT);
      [reflexivity | exact (IH Hbad)]. }
  rewrite (@dict_mem_get _ _ (PDict cd) (PDict []) Hmem).
  rewrite Hbad.
  cbn [fst snd character_development].
  split; [reflexivity|]. split; [|reflexivity].
  destruct (dict_get (entry :: od) K_CHARACTER_DEVELOPMENT (PDict []));
    try discriminate Hbad; eexists; reflexivity.
Qed.
End WithGateway.

Lemma filter_above_numbered (n : Z) (chapters : list Chapter) :
  forall k : Z,
    (forall i ch, nth_error chapters i = Some ch ->
                  number ch = (Z.of_nat i + k)%Z) ->
    filter (fun ch => (number ch >? n)%Z) chapters
    = skipn (Z.to_nat (n + 1 - k)) chapters.
Proof.
  induction chapters as [|ch r IH]; intros k Hnum.
  - rewrite skipn_nil. reflexivity.
  - assert (Hch : number ch = k) by (rewrite (Hnum 0%nat ch eq_refl); lia).
    assert (Hr : forall i c, nth_error r i = Some c ->
                             number c = (Z.of_nat i + (k + 1))%Z).
    { intros i c Hi. rewrite (Hnum (S i) c Hi). lia. }
    cbn [filter]. rewrite Hch.
    destruct (k >? n)%Z eqn:E.
    + assert (n < k)%Z by (apply Z.gtb_lt; exact E).
      replace (Z.to_nat (n + 1 - k)) with 0%nat by lia.
      cbn [skipn]. f_equal.
      rewrite (IH (k + 1)%Z Hr).
      replace (Z.to_nat (n + 1 - (k + 1))) with 0%nat by lia. reflexivity.
    + assert (k <= n)%Z.
      { destruct (Z.gtb_spec k n); [discriminate | lia]. }
      replace (Z.to_nat (n + 1 - k)) with (S (Z.to_nat (n + 1 - (k + 1))))
        by lia.
      cbn [skipn]. apply (IH (k + 1)%Z Hr).
Qed.

(** X27: in a ledger numbered from one, the outline of the remaining
    chapters lists exactly the chapters after position [current_number],
    one line each in ledger order, and is the fixed sentence for the end of
    the novel when there is none. *)
Theorem remaining_chapters_of_numbered_ledger
        (chapters : ChapterManager) (current_number : Z) :
  numbered_from_one chapters ->
  (0 <= current_number)%Z ->
  _get_remaining_chapters chapters current_number
  = match skipn (Z.to_nat current_number) chapters with
    | [] => NO_REMAINING
    | ch :: rest => join [NL] (map remaining_line (ch :: rest))
    end.
Proof.
  intros Hnum Hn. unfold _get_remaining_chapters. cbv zeta.
  rewrite (@filter_above_numbered current_number chapters 1%Z Hnum).
  replace (Z.to_nat (current_number + 1 - 1)) with (Z.to_nat current_number)
    by lia.
  destruct (skipn (Z.to_nat current_number) chapters); reflexivity.
Qed.

(** X26, witness: the optimizer answers with a list where the character notes
    should be. *)
Lemma optimize_memory_mistyped_character_development_witness :
  let json_loads :=
    fun _ : str => Some (PDict [(K_CHARACTER_DEVELOPMENT, PList [])]) in
  let generate := fun _ : nat => Ok [LBRACE; RBRACE] in
  let r := optimize_memory json_loads 5 10 generate Examples.store 0 in
  character_development (fst (fst r)) = Some (PDict [])
  /\ (exists e, snd (fst r) = Raise e)
  /\ snd r = 1.
Proof.
  cbv zeta.
  apply (@optimize_memory_mistyped_character_development
           (fun _ : str => Some (PDict [(K_CHARACTER_DEVELOPMENT, PList [])]))
           5 10 (fun _ : nat => Ok [LBRACE; RBRACE])
           Examples.store 0 1
           [(py "Mina", PList [PStr (py "grows")])]
           [(py "the letter", PStr (py "ongoing"))]
           [(K_CHARACTER_DEVELOPMENT, PList [])]).
  - reflexivity.
  - reflexivity.
  - reflexivity.
  - vm_compute. reflexivity.
  - reflexivity.
Defined.

Lemma sample_ledger_numbered : numbered_from_one Examples.ledger.
Proof.
  intros [|[|[|i]]] ch H; simpl in H;
    try (injection H as <-; reflexivity).
  destruct i; discriminate.
Defined.

(** X27, witness: what remains after chapter 1 of the sample ledger. *)
Lemma remaining_chapters_of_numbered_ledger_witness :
  numbered_from_one Examples.ledger
  /\ _get_remaining_chapters Examples.ledger 1
     = match skipn (Z.to_nat 1) Examples.ledger with
       | [] => NO_REMAINING
       | ch :: rest => join [NL] (map remaining_line (ch :: rest))
       end.
Proof.
  split; [exact sample_ledger_numbered|].
  apply (@remaining_chapters_of_numbered_ledger Examples.ledger 1
           sample_ledger_numbered).
  lia.
Defined.

End OptimizerMore.


(** ** NovelWriter: the refine request and the draft that comes back *)

Module WriterMore.
Import PyStrFacts WindowFacts RetryFacts DedupMore.

Lemma omission_mark_length : length (NL :: py "[생략]" ++ [NL]) = 6.
Proof. vm_compute. reflexivity. Qed.

(** X28: of a text longer than a limit of at least 2, [excerpt] keeps the
    first and the last [max_chars / 2] characters around a six-character
    omission mark: the excerpt has [2 * (max_chars / 2) + 6] characters,
    so a text that exceeds an even limit by at most five characters comes
    out longer than it went in. *)
Theorem excerpt_shape (max_chars : nat) (text : str) :
  2 <= max_chars -> max_chars < length text ->
  excerpt max_chars text
  = firstn (max_chars / 2) text ++ (NL :: py "[생략]" ++ [NL])
    ++ skipn (length text - max_chars / 2) text
  /\ length (excerpt max_chars text) = 2 * (max_chars / 2) + 6
  /\ (Nat.even max_chars = true -> length text <= max_chars + 5 ->
      length text < length (excerpt max_chars text)).
Proof.
  intros H2 Hlen. unfold excerpt.
  assert (E : (max_chars <? length text) = true) by (apply Nat.ltb_lt; lia).
  rewrite E. cbv zeta.
  assert (Hhalf : 1 <= max_chars / 2 /\ 2 * (max_chars / 2) <= max_chars).
  { pose proof (Nat.div_mod_eq max_chars 2).
    pose proof (Nat.mod_upper_bound max_chars 2). lia. }
  destruct (@slice_from_tail _ text (Z.of_nat (max_chars / 2))) as [Hs Hl];
    [lia|].
  rewrite Nat2Z.id in Hs, Hl. rewrite Hs.
  assert (Hlength : length (firstn (max_chars / 2) text
                            ++ (NL :: py "[생략]" ++ [NL])
                            ++ skipn (length text - max_chars / 2) text)
                    = 2 * (max_chars / 2) + 6).
  { rewrite !length_app, omission_mark_length, length_firstn, length_skipn.
    lia. }
  split; [reflexivity|]. split; [exact Hlength|].
  intros Hev Hle. rewrite Hlength.
  assert (max_chars = 2 * (max_chars / 2)).
  { pose proof (Nat.div_mod_eq max_chars 2).
    assert (max_chars mod 2 = 0).
    { apply Nat.even_spec in Hev. destruct Hev as [k ->].
      rewrite Nat.mul_comm. apply Nat.Div0.mod_mul. }
    lia. }
  lia.
Qed.



Section Draft.
Variable json_loads : str -> option pyval.
Variables max_retries rate_limit_max_retries : nat.
Variable generate : nat -> outcome str.

Lemma postprocess_triple_free (raw content : str) :
  postprocess json_loads raw = Ok content ->
  Runs.triple_free (split_lines content) = true.
Proof.
  unfold postprocess.
  destruct (_parse_json_response json_loads (strip_reasoning raw));
    try discriminate.
  intros H. injection H as <-. apply dedup_output_triple_free.
Qed.

Lemma write_returns_processed (calls calls' : nat) (content : str) :
  _write json_loads max_retries rate_limit_max_retries generate calls
  = (Ok content, calls') ->
  calls < calls'
  /\ exists raw,
       generate (calls' - 1) = Ok raw
       /\ postprocess json_loads raw = Ok content.
Proof.
  intros Hw. unfold _write, retry_on_error in Hw.
  pose proof (@attempts_calls str rate_limit_max_retries
                (_api_call json_loads generate) max_retries None calls) as H.
  cbv zeta in H. rewrite Hw in H. cbn [fst snd] in H.
  destruct H as [_ H]. destruct (H content eq_refl) as [Hlt Hcall].
  split; [exact Hlt|].
  unfold _api_call in Hcall.
  destruct (generate (calls' - 1)) as [raw|e]; [|discriminate Hcall].
  exists raw. split; [reflexivity | exact Hcall].
Qed.

Lemma write_chapter_fuel_result (chapter : Chapter) (min_words max_words : Z)
      (content : str) (chapter' : Chapter) (calls' : nat) :
  forall fuel retry_count calls,
    write_chapter_fuel json_loads max_retries rate_limit_max_retries generate
      fuel chapter min_words max_words retry_count calls
    = Some (Ok (content, chapter'), calls') ->
    chapter' = set_word_count chapter (count_words content)
    /\ calls < calls'
    /\ exists raw,
         generate (calls' - 1) = Ok raw
         /\ postprocess json_loads raw = Ok content.
Proof.
  induction fuel as [|f IH]; intros retry_count calls H; [discriminate H|].
  cbn [write_chapter_fuel] in H.
  destruct (_write json_loads max_retries rate_limit_max_retries generate
              calls) as [[c|e] k] eqn:Ew; [|discriminate H].
  destruct (@write_returns_processed _ _ _ Ew) as [Hlt Hraw].
  destruct (negb (validate_content c min_words) && (retry_count <? 2)).
  - destruct (@IH _ _ H) as [Hc [Hlt' Hr]].
    split; [exact Hc|]. split; [lia | exact Hr].
  - cbv zeta in H. injection H as <- <- <-.
    split; [reflexivity|]. split; [exact Hlt | exact Hraw].
Qed.

Lemma write_chapter_fuel_enough (chapter : Chapter) (min_words max_words : Z) :
  forall fuel retry_count calls,
    2 - retry_count <= fuel ->
    exists r,
      write_chapter_fuel json_loads max_retries rate_limit_max_retries
        generate (S fuel) chapter min_words max_words retry_count calls
      = Some r.
Proof.
  induction fuel as [|f IH]; intros retry_count calls Hf;
    cbn [write_chapter_fuel];
    destruct (_write json_loads max_retries rate_limit_max_retries generate
                calls) as [[c|e] k]; try (eexists; reflexivity).
  - assert (E : (retry_count <? 2) = false) by (apply Nat.ltb_ge; lia).
    rewrite E, andb_false_r. eexists. reflexivity.
  - destruct (negb (validate_content c min_words) && (retry_count <? 2))
      eqn:E; [|eexists; reflexivity].
    apply (IH (S retry_count) k). lia.
Qed.

(** X30: [write_chapter] returns or raises for every [retry_count] it is
    entered with, and entered with 2 or more it makes one draft and
    returns it.  A chapter text that it returns is the processed form of
    the gateway's last answer: that answer stripped, unwrapped and
    collapsed; it has no line three times in a row, the collapse leaves it
    unchanged, and the chapter's word count is the count of that text. *)
Theorem write_chapter_returns_processed_draft
        (chapter : Chapter) (min_words max_words : Z)
        (retry_count calls : nat) :
  (exists r,
      write_chapter json_loads max_retries rate_limit_max_retries generate
        chapter min_words max_words retry_count calls = Some r)
  /\ (2 <= retry_count ->
      write_chapter json_loads max_retries rate_limit_max_retries generate
        chapter min_words max_words retry_count calls
      = Some
          match _write json_loads max_retries rate_limit_max_retries
                  generate calls with
          | (Ok content, calls') =>
              (Ok (content, set_word_count chapter (count_words content)),
               calls')
          | (Raise e, calls') => (Raise e, calls')
          end)
  /\ forall content chapter' calls',
       write_chapter json_loads max_retries rate_limit_max_retries generate
         chapter min_words max_words retry_count calls
       = Some (Ok (content, chapter'), calls') ->
       chapter' = set_word_count chapter (count_words content)
       /\ calls < calls'
       /\ (exists raw,
             generate (calls' - 1) = Ok raw
             /\ postprocess json_loads raw = Ok content)
       /\ Runs.triple_free (split_lines content) = true
       /\ Dedup.remove_duplicate_sentences content = content.
Proof.
  split; [|split].
  - unfold write_chapter. apply write_chapter_fuel_enough. lia.
  - intros H2. unfold write_chapter.
    replace (2 - retry_count) with 0 by lia. cbn [write_chapter_fuel].
    destruct (_write json_loads max_retries rate_limit_max_retries generate
                calls) as [[c|e] k]; [|reflexivity].
    assert (E : (retry_count <? 2) = false) by (apply Nat.ltb_ge; lia).
    rewrite E, andb_false_r. reflexivity.
  - intros content chapter' calls' H. unfold write_chapter in H.
    destruct (@write_chapter_fuel_result _ _ _ _ _ _ _ _ _ H)
      as [Hc [Hlt [raw [Hg Hp]]]].
    pose proof (@postprocess_triple_free _ _ Hp) as Htf.
    split; [exact Hc|]. split; [exact Hlt|].
    split; [exists raw; split; assumption|].
    split; [exact Htf|]. apply dedup_fixes_triple_free. exact Htf.
Qed.
End Draft.

(** X28, witness: a limit of four characters on a text of eight. *)
Lemma excerpt_shape_witness :
  2 <= 4 /\ 4 < length (py "abcdefgh")
  /\ length (excerpt 4 (py "abcdefgh")) = 2 * (4 / 2) + 6.
Proof.
  assert (H1 : 2 <= 4) by lia.
  assert (H2 : 4 < length (py "abcdefgh")) by (vm_compute; lia).
  split; [exact H1|]. split; [exact H2|].
  apply (proj1 (proj2 (@excerpt_shape 4 (py "abcdefgh") H1 H2))).
Defined.

Lemma sample_draft :
  exists content chapter' calls',
    write_chapter (fun _ : str => None) 5 10
      (fun _ : nat => Ok (py "Once upon a time"))
      (mkChapter 1 (py "A") (py "o1") [] [] [] 0) 10 20 0 0
    = Some (Ok (content, chapter'), calls').
Proof. vm_compute. do 3 eexists. reflexivity. Defined.

(** X30, witness: a gateway that answers with one short line. *)
Lemma write_chapter_returns_processed_draft_witness :
  exists content chapter' calls',
    write_chapter (fun _ : str => None) 5 10
      (fun _ : nat => Ok (py "Once upon a time"))
      (mkChapter 1 (py "A") (py "o1") [] [] [] 0) 10 20 0 0
    = Some (Ok (content, chapter'), calls')
    /\ chapter'
       = set_word_count (mkChapter 1 (py "A") (py "o1") [] [] [] 0)
           (count_words content)
    /\ Runs.triple_free (split_lines content) = true.
Proof.
  destruct sample_draft as [content [chapter' [calls' E]]].
  exists content, chapter', calls'. split; [exact E|].
  destruct (proj2 (proj2 (@write_chapter_returns_processed_draft
                            (fun _ : str => None) 5 10
                            (fun _ : nat => Ok (py "Once upon a time"))
                            (mkChapter 1 (py "A") (py "o1") [] [] [] 0)
                            10 20 0 0))
              content chapter' calls' E)
    as [H1 [_ [_ [H2 _]]]].
  split; [exact H1 | exact H2].
Defined.

End WriterMore.

